(** * unifiedAI: the validation/transform pipeline and the query engine

    A shallow embedding of
      - [app/schemas/validation.py]  ([VehicleRecord] and its field validators),
      - [app/pipeline/etl.py]        ([DataPipeline.transform] and helpers),
      - [app/api/routes.py]          (the five query operations),
      - [app/database.py]            ([DatabaseManager]) and the loading half
        of [app/pipeline/etl.py]     ([extract], [load], [run_pipeline]),
    followed by the properties of the specification, stated on those
    definitions, and by further properties of the code.

    Conventions of the embedding.
      - Python [int] is [Z]; Python [float] is an IEEE-754 binary64 value,
        represented by [spec_float] with precision 53 and [emax = 1024], so
        that every float operation of the source rounds here as it does there.
      - Python [str] is [string]; the text handled is 7-bit ASCII, on which
        [str.upper] touches the letters a-z only.
      - An exception that the source lets escape is a value of [PyExn];
        HTTP failures are values of [HttpError].
      - The document store is the list of stored documents in natural order.
        MongoDB leaves the order of [$group] output and of equal sort keys
        unspecified; the embedding fixes it to first occurrence and to a
        stable sort. *)

From Stdlib Require Import ZArith List String Ascii Bool Lia.
From Stdlib Require Import SpecFloat DecimalString DecimalZ.
From Stdlib Require Import Permutation Sorted.
Import ListNotations.

#[local] Open Scope string_scope.
#[local] Open Scope list_scope.
#[local] Open Scope Z_scope.

(* ================================================================== *)
(** * Python runtime: exceptions *)
(* ================================================================== *)

Inductive PyExn : Type :=
  | ValueError
  | TypeError
  | OverflowError
  | ZeroDivisionError.

(** The outcome of an expression that may raise. *)
Inductive PyRes (A : Type) : Type :=
  | Ret (a : A)
  | Raise (e : PyExn).
Arguments Ret {A} a.
Arguments Raise {A} e.

Definition bindR {A B} (m : PyRes A) (k : A -> PyRes B) : PyRes B :=
  match m with
  | Ret a => k a
  | Raise e => Raise e
  end.

Notation "x <- m ;; k" := (bindR m (fun x => k))
  (at level 61, m at next level, right associativity).

(* ================================================================== *)
(** * Python runtime: text *)
(* ================================================================== *)

Module PyStr.

Definition code (c : ascii) : N := N_of_ascii c.

(** [str.isspace] on the ASCII range: TAB, LF, VT, FF, CR, the four
    separators FS..US and SPACE. *)
Definition is_space (c : ascii) : bool :=
  let n := code c in
  (((9 <=? n) && (n <=? 13)) || ((28 <=? n) && (n <=? 32)))%N.

Definition is_lower (c : ascii) : bool :=
  let n := code c in ((97 <=? n) && (n <=? 122))%N.

Definition is_upper (c : ascii) : bool :=
  let n := code c in ((65 <=? n) && (n <=? 90))%N.

Definition is_digit (c : ascii) : bool :=
  let n := code c in ((48 <=? n) && (n <=? 57))%N.

Definition digit_val (c : ascii) : Z := Z.of_N (code c) - 48.

Definition upper_char (c : ascii) : ascii :=
  if is_lower c then ascii_of_N (code c - 32) else c.

Definition lower_char (c : ascii) : ascii :=
  if is_upper c then ascii_of_N (code c + 32) else c.

(** [s.upper()] *)
Fixpoint upper (s : string) : string :=
  match s with
  | EmptyString => EmptyString
  | String c t => String (upper_char c) (upper t)
  end.

(** [s.lower()] *)
Fixpoint lower (s : string) : string :=
  match s with
  | EmptyString => EmptyString
  | String c t => String (lower_char c) (lower t)
  end.

(** [s.lstrip()] *)
Fixpoint lstrip (s : string) : string :=
  match s with
  | EmptyString => EmptyString
  | String c t => if is_space c then lstrip t else s
  end.

(** [s.rstrip()]: a character is dropped when it is white space and
    everything after it has been dropped. *)
Fixpoint rstrip (s : string) : string :=
  match s with
  | EmptyString => EmptyString
  | String c t =>
      match rstrip t with
      | EmptyString => if is_space c then EmptyString else String c EmptyString
      | t' => String c t'
      end
  end.

(** [s.strip()] *)
Definition strip (s : string) : string := rstrip (lstrip s).

(** [pat in s] for two strings. *)
Fixpoint contains (pat s : string) : bool :=
  prefix pat s ||
  match s with
  | EmptyString => false
  | String _ t => contains pat t
  end.

(** [x in xs] for a string and a list of strings. *)
Definition mem (x : string) (xs : list string) : bool :=
  existsb (String.eqb x) xs.

(** [str(n)] for an integer. *)
Definition of_Z (z : Z) : string := NilZero.string_of_int (Z.to_int z).

Fixpoint repeat0 (n : nat) : string :=
  match n with
  | O => EmptyString
  | S k => String "0" (repeat0 k)
  end.

Fixpoint take (n : nat) (s : string) : string :=
  match n, s with
  | S k, String c t => String c (take k t)
  | _, _ => EmptyString
  end.

Fixpoint drop (n : nat) (s : string) : string :=
  match n, s with
  | S k, String _ t => drop k t
  | _, _ => s
  end.

End PyStr.

(* ================================================================== *)
(** * Python runtime: binary64 floats *)
(* ================================================================== *)

Module PyFloat.

Definition prec : Z := 53.
Definition emax : Z := 1024.

Definition add : spec_float -> spec_float -> spec_float := SFadd prec emax.
Definition sub : spec_float -> spec_float -> spec_float := SFsub prec emax.
Definition mul : spec_float -> spec_float -> spec_float := SFmul prec emax.
Definition div : spec_float -> spec_float -> spec_float := SFdiv prec emax.
Definition ltb : spec_float -> spec_float -> bool := SFltb.
Definition eqb : spec_float -> spec_float -> bool := SFeqb.

Definition zero : spec_float := S754_zero false.

Definition is_zero (f : spec_float) : bool :=
  match f with S754_zero _ => true | _ => false end.

Definition is_nan (f : spec_float) : bool :=
  match f with S754_nan => true | _ => false end.

Definition is_inf (f : spec_float) : bool :=
  match f with S754_infinity _ => true | _ => false end.

(** [bool(f)]: a float is falsy exactly when it is a zero. *)
Definition truthy (f : spec_float) : bool := negb (is_zero f).

(** The double nearest to the integer [z] (an infinity past the range). *)
Definition of_Z (z : Z) : spec_float := binary_normalize prec emax z 0 false.

(** The double nearest to [(-1)^s * a / b]; the quotient is formed on the
    exact integers and rounded once. *)
Definition of_ratio (s : bool) (a b : positive) : spec_float :=
  div (S754_finite s a 0) (S754_finite false b 0).

(** [float(n)] for an integer [n]. *)
Definition of_int (z : Z) : PyRes spec_float :=
  let f := of_Z z in
  if is_inf f then Raise OverflowError else Ret f.

(** [a / b] for two integers. *)
Definition int_truediv (a b : Z) : PyRes spec_float :=
  match b, a with
  | Z0, _ => Raise ZeroDivisionError
  | _, Z0 => Ret (S754_zero (b <? 0))
  | _, _ =>
      let f := of_ratio (xorb (a <? 0) (b <? 0))
                        (Z.to_pos (Z.abs a)) (Z.to_pos (Z.abs b)) in
      if is_inf f then Raise OverflowError else Ret f
  end.

(** [x / y] for two floats. *)
Definition truediv (x y : spec_float) : PyRes spec_float :=
  if is_zero y then Raise ZeroDivisionError else Ret (div x y).

(** [x / n] for a float and an integer. *)
Definition truediv_int (x : spec_float) (n : Z) : PyRes spec_float :=
  y <- of_int n ;; truediv x y.

(** [x * n] for a float and an integer. *)
Definition mul_int (x : spec_float) (n : Z) : PyRes spec_float :=
  y <- of_int n ;; Ret (mul x y).

(** [x > 0] *)
Definition gt0 (x : spec_float) : bool := ltb zero x.

(** The magnitude of a finite float [m * 2^e], cut towards zero. *)
Definition trunc_mag (m : positive) (e : Z) : Z :=
  if 0 <=? e then Zpos m * 2 ^ e else Zpos m / 2 ^ (- e).

(** [int(f)] *)
Definition to_int (f : spec_float) : PyRes Z :=
  match f with
  | S754_zero _ => Ret 0
  | S754_nan => Raise ValueError
  | S754_infinity _ => Raise OverflowError
  | S754_finite s m e => Ret (cond_Zopp s (trunc_mag m e))
  end.

(** [math.ceil(f)] *)
Definition ceil (f : spec_float) : PyRes Z :=
  match f with
  | S754_zero _ => Ret 0
  | S754_nan => Raise ValueError
  | S754_infinity _ => Raise OverflowError
  | S754_finite s m e =>
      if 0 <=? e then Ret (cond_Zopp s (Zpos m * 2 ^ e))
      else if s then Ret (- (Zpos m / 2 ^ (- e)))
      else Ret (- ((- Zpos m) / 2 ^ (- e)))
  end.

(** ** [round(x, 2)]

    CPython renders the exact binary value with two digits after the
    point, correctly rounded with ties to the even digit, and reads the
    result back as a double. *)

(** The integer nearest to [a / b] ([0 < b]), ties to even. *)
Definition round_half_even_div (a b : Z) : Z :=
  let q := a / b in
  match 2 * (a mod b) ?= b with
  | Lt => q
  | Gt => q + 1
  | Eq => if Z.even q then q else q + 1
  end.

(** The integer nearest to [a / b] ([0 < b]), ties upwards: the rounding
    the specification names. *)
Definition round_half_up_div (a b : Z) : Z :=
  let q := a / b in
  match 2 * (a mod b) ?= b with
  | Lt => q
  | _ => q + 1
  end.

(** [|x| * 100] rounded to an integer by [rnd]. *)
Definition hundredths_by (rnd : Z -> Z -> Z) (m : positive) (e : Z) : Z :=
  if 0 <=? e then 100 * Zpos m * 2 ^ e else rnd (100 * Zpos m) (2 ^ (- e)).

(** The double nearest to [(-1)^s * n / 100]. *)
Definition of_hundredths (s : bool) (n : Z) : spec_float :=
  match n with
  | Zpos p => of_ratio s p 100
  | _ => S754_zero s
  end.

Definition round2_by (rnd : Z -> Z -> Z) (f : spec_float) : spec_float :=
  match f with
  | S754_finite s m e => of_hundredths s (hundredths_by rnd m e)
  | _ => f
  end.

(** [round(f, 2)] *)
Definition round2 : spec_float -> spec_float := round2_by round_half_even_div.

(** Rounding half-up to two decimal places, for comparison. *)
Definition round2_half_up : spec_float -> spec_float := round2_by round_half_up_div.

(** ** [float(s)] for a string

    Accepted after stripping white space: an optional sign followed by
    [inf], [infinity] or [nan] in any case, or by a decimal literal
    [D], [D.], [D.D] or [.D] with an optional exponent [e[+-]D]; a digit
    part [D] is digits with single underscores between them. *)

Fixpoint digits_from (s : string) (acc n : Z) : Z * Z * string :=
  match s with
  | String c t =>
      if PyStr.is_digit c then digits_from t (10 * acc + PyStr.digit_val c) (n + 1)
      else if Ascii.eqb c "_" then
        match t with
        | String c' t' =>
            if PyStr.is_digit c'
            then digits_from t' (10 * acc + PyStr.digit_val c') (n + 1)
            else (acc, n, s)
        | EmptyString => (acc, n, s)
        end
      else (acc, n, s)
  | EmptyString => (acc, n, s)
  end.

(** A digit part continuing the accumulator [acc]; [n = 0] when absent. *)
Definition digitpart (acc : Z) (s : string) : Z * Z * string :=
  match s with
  | String c t =>
      if PyStr.is_digit c then digits_from t (10 * acc + PyStr.digit_val c) 1
      else (acc, 0, s)
  | EmptyString => (acc, 0, s)
  end.

Definition take_sign (s : string) : bool * string :=
  match s with
  | String c t =>
      if Ascii.eqb c "-" then (true, t)
      else if Ascii.eqb c "+" then (false, t)
      else (false, s)
  | EmptyString => (false, s)
  end.

(** The fraction after the integer digits: the point and its digits. *)
Definition fraction (acc : Z) (s : string) : Z * Z * string :=
  match s with
  | String c t => if Ascii.eqb c "." then digitpart acc t else (acc, 0, s)
  | EmptyString => (acc, 0, s)
  end.

Definition exponent (s : string) : option (Z * string) :=
  match s with
  | String c t =>
      if Ascii.eqb c "e" || Ascii.eqb c "E" then
        let '(neg, t1) := take_sign t in
        let '(v, n, r) := digitpart 0 t1 in
        if n =? 0 then None else Some (if neg then - v else v, r)
      else Some (0, s)
  | EmptyString => Some (0, s)
  end.

(** The double nearest to [(-1)^s * m * 10^e10]. *)
Definition of_decimal (s : bool) (m e10 : Z) : spec_float :=
  match m with
  | Zpos p =>
      if 0 <=? e10
      then binary_normalize prec emax (cond_Zopp s (m * 10 ^ e10)) 0 s
      else of_ratio s p (Z.to_pos (10 ^ (- e10)))
  | _ => S754_zero s
  end.

Definition of_string (s : string) : PyRes spec_float :=
  let '(neg, body) := take_sign (PyStr.strip s) in
  let low := PyStr.lower body in
  if String.eqb low "inf" || String.eqb low "infinity" then Ret (S754_infinity neg)
  else if String.eqb low "nan" then Ret S754_nan
  else
    let '(ip, ni, r1) := digitpart 0 body in
    let '(m, nf, r2) := fraction ip r1 in
    if ni + nf =? 0 then Raise ValueError
    else
      match exponent r2 with
      | Some (ex, EmptyString) => Ret (of_decimal neg m (ex - nf))
      | _ => Raise ValueError
      end.

(** ** [str(x)] for a float

    CPython prints the shortest decimal that reads back as [x] (the one
    nearest to [x] among those), in fixed notation when the decimal point
    falls within the first sixteen digits or up to three zeros before
    them, and in exponent notation otherwise. *)

(** [m * 2^e / 10^q] as a fraction of two positive integers. *)
Definition scaled (m : positive) (e q : Z) : Z * Z :=
  (Zpos m * (if 0 <=? e then 2 ^ e else 1) * (if q <? 0 then 10 ^ (- q) else 1),
   (if 0 <=? e then 1 else 2 ^ (- e)) * (if q <? 0 then 1 else 10 ^ q)).

Definition below_pow10 (m : positive) (e k : Z) : bool :=
  let '(num, den) := scaled m e k in num / den =? 0.

(** The least [k] with [m * 2^e < 10^k]. *)
Definition decimal_exponent (m : positive) (e : Z) : Z :=
  let k0 := (Zpos (digits2_pos m) + e) * 30103 / 100000 in
  if below_pow10 m e (k0 - 1) then k0 - 1
  else if below_pow10 m e k0 then k0
  else if below_pow10 m e (k0 + 1) then k0 + 1
  else k0 + 2.

Definition reads_back (m : positive) (e n q : Z) : bool :=
  match of_decimal false n q with
  | S754_finite _ m' e' => Pos.eqb m m' && (e =? e')
  | _ => false
  end.

(** Digits [n] and exponent [q] of the shortest decimal [n * 10^q] that
    reads back as [m * 2^e], trying [p], [p+1], ... significant digits. *)
Fixpoint shortest (fuel : nat) (p : Z) (m : positive) (e k : Z) : Z * Z :=
  let q := k - p in
  let '(num, den) := scaled m e q in
  let lo := num / den in
  let hi := lo + 1 in
  let oklo := reads_back m e lo q in
  let okhi := reads_back m e hi q in
  let nearer_hi :=
    match 2 * (num mod den) ?= den with
    | Lt => false
    | Gt => true
    | Eq => Z.odd lo
    end in
  match fuel with
  | O => (lo, q)
  | S fuel' =>
      if oklo && okhi then (if nearer_hi then hi else lo, q)
      else if oklo then (lo, q)
      else if okhi then (hi, q)
      else shortest fuel' (p + 1) m e k
  end.

Fixpoint strip_zeros (fuel : nat) (n q : Z) : Z * Z :=
  match fuel with
  | O => (n, q)
  | S fuel' =>
      if (n mod 10 =? 0) && negb (n =? 0)
      then strip_zeros fuel' (n / 10) (q + 1)
      else (n, q)
  end.

Definition exponent_digits (ex : Z) : string :=
  let d := PyStr.of_Z (Z.abs ex) in
  String.append (if ex <? 0 then "-" else "+")
                (if Z.abs ex <? 10 then String "0" d else d).

Definition format_short (n q : Z) : string :=
  let digits := PyStr.of_Z n in
  let nd := Z.of_nat (String.length digits) in
  let decpt := nd + q in
  if (decpt <=? -4) || (16 <? decpt) then
    let mant :=
      match digits with
      | String c (String c' t) => String c (String "." (String c' t))
      | _ => digits
      end in
    String.append mant (String "e" (exponent_digits (decpt - 1)))
  else if decpt <=? 0 then
    String.append "0." (String.append (PyStr.repeat0 (Z.to_nat (- decpt))) digits)
  else if decpt <? nd then
    String.append (PyStr.take (Z.to_nat decpt) digits)
                  (String "." (PyStr.drop (Z.to_nat decpt) digits))
  else
    String.append digits
                  (String.append (PyStr.repeat0 (Z.to_nat (decpt - nd))) ".0").

Definition to_string (f : spec_float) : string :=
  match f with
  | S754_nan => "nan"
  | S754_infinity s => if s then "-inf" else "inf"
  | S754_zero s => if s then "-0.0" else "0.0"
  | S754_finite s m e =>
      let '(n, q) := shortest 17 1 m e (decimal_exponent m e) in
      let '(n', q') := strip_zeros 20 n q in
      String.append (if s then "-" else "") (format_short n' q')
  end.

End PyFloat.

(* ================================================================== *)
(** * Untyped values and records *)
(* ================================================================== *)

(** The values a raw cell or an untyped record field can hold.  A missing
    cell of a data frame is the float NaN or [None]. *)
Inductive PyVal : Type :=
  | VNone
  | VInt (z : Z)
  | VFloat (f : spec_float)
  | VStr (s : string).

(** A record with string keys ([Dict[str, Any]]), in insertion order; the
    keys of one record are distinct. *)
Definition PyDict : Type := list (string * PyVal).

Fixpoint lookup (k : string) (d : PyDict) : option PyVal :=
  match d with
  | [] => None
  | (k', v) :: t => if String.eqb k' k then Some v else lookup k t
  end.

Definition keys (d : PyDict) : list string := map fst d.

(** [str(v)] *)
Definition py_str (v : PyVal) : string :=
  match v with
  | VNone => "None"
  | VInt z => PyStr.of_Z z
  | VFloat f => PyFloat.to_string f
  | VStr s => s
  end.

(** [float(v)] *)
Definition py_float (v : PyVal) : PyRes spec_float :=
  match v with
  | VNone => Raise TypeError
  | VInt z => PyFloat.of_int z
  | VFloat f => Ret f
  | VStr s => PyFloat.of_string s
  end.

(* ================================================================== *)
(** * app/schemas/validation.py *)
(* ================================================================== *)

Module Validation.

Record VehicleRecord : Type := {
  vin_1_10 : string;
  county : string;
  city : string;
  state : string;
  postal_code : option string;
  model_year : Z;
  make : string;
  model : string;
  electric_vehicle_type : string;
  cafv_eligibility : string;
  electric_range : Z;
  base_msrp : Z;
  legislative_district : option string;
  dol_vehicle_id : string;
  vehicle_location : option string;
  electric_utility : option string;
  census_tract_2020 : option string
}.

(** ** The field validators of the class *)

(** [normalize_strings], run before the type check of [make], [model],
    [electric_vehicle_type], [county] and [city]. *)
Definition normalize_strings (v : PyVal) : PyVal :=
  match v with
  | VStr s => VStr (PyStr.upper (PyStr.strip s))
  | _ => v
  end.

Definition BEV_LABEL : string := "BATTERY ELECTRIC VEHICLE (BEV)".
Definition PHEV_LABEL : string := "PLUG-IN HYBRID ELECTRIC VEHICLE (PHEV)".

Definition valid_types : list string := [BEV_LABEL; PHEV_LABEL; "BEV"; "PHEV"].

(** [validate_ev_type], run after the type check of
    [electric_vehicle_type]. *)
Definition validate_ev_type (v : string) : string :=
  if negb (PyStr.mem v valid_types) then
    if PyStr.contains "BEV" (PyStr.upper v) then BEV_LABEL
    else if PyStr.contains "PHEV" (PyStr.upper v) then PHEV_LABEL
    else v
  else v.

(** [v in ['', 'NA', 'N/A', None]] *)
Definition is_na_sentinel (v : PyVal) : bool :=
  match v with
  | VNone => true
  | VStr s => PyStr.mem s [""; "NA"; "N/A"]
  | _ => false
  end.

(** [handle_numeric_na], run before the type check of [electric_range]
    and [base_msrp].  [ValueError] and [TypeError] are caught; any other
    exception of [int(float(v))] escapes. *)
Definition handle_numeric_na (v : PyVal) : PyRes Z :=
  if is_na_sentinel v then Ret 0
  else
    match (f <- py_float v ;; PyFloat.to_int f) with
    | Ret z => Ret z
    | Raise ValueError => Ret 0
    | Raise TypeError => Ret 0
    | Raise e => Raise e
    end.

(** ** Pydantic's field validation (lax mode) *)

Inductive ErrorType : Type :=
  | missing
  | string_type
  | int_type
  | int_parsing
  | int_from_float
  | finite_number
  | greater_than_equal
  | less_than_equal.

(** One line of a [ValidationError]: the field it is located at and the
    kind of failure.  The printed message lists, for every error, the
    field name on a line of its own followed by the description. *)
Record ErrorDetail : Type := { loc : string; type : ErrorType }.

(** The result of validating one field: a value, a validation error, or
    an exception that is not a validation error and escapes. *)
Inductive FieldRes (A : Type) : Type :=
  | FOk (a : A)
  | FErr (t : ErrorType)
  | FRaise (e : PyExn).
Arguments FOk {A} a.
Arguments FErr {A} t.
Arguments FRaise {A} e.

(** [str]: only text is accepted. *)
Definition check_str (v : PyVal) : FieldRes string :=
  match v with
  | VStr s => FOk s
  | _ => FErr string_type
  end.

(** [Optional[str]] *)
Definition check_opt_str (v : PyVal) : FieldRes (option string) :=
  match v with
  | VNone => FOk None
  | VStr s => FOk (Some s)
  | _ => FErr string_type
  end.

(** Text accepted for an [int]: after trimming, an optional sign, digits
    (single underscores between them) and an optional point followed by
    zeros only. *)
Fixpoint all_zeros (s : string) : bool :=
  match s with
  | EmptyString => true
  | String c t => Ascii.eqb c "0" && all_zeros t
  end.

Definition int_of_string (s : string) : option Z :=
  let '(neg, body) := PyFloat.take_sign (PyStr.strip s) in
  let '(v, n, rest) := PyFloat.digitpart 0 body in
  if n =? 0 then None
  else
    match rest with
    | EmptyString => Some (if neg then - v else v)
    | String c t =>
        if Ascii.eqb c "." && all_zeros t
        then Some (if neg then - v else v)
        else None
    end.

(** [int]: an integer, a float without fractional part, or text that
    reads as an integer. *)
Definition check_int (v : PyVal) : FieldRes Z :=
  match v with
  | VNone => FErr int_type
  | VInt z => FOk z
  | VFloat (S754_zero _) => FOk 0
  | VFloat (S754_finite s m e) =>
      if (0 <=? e) || (Zpos m mod 2 ^ (- e) =? 0)
      then FOk (cond_Zopp s (PyFloat.trunc_mag m e))
      else FErr int_from_float
  | VFloat _ => FErr finite_number
  | VStr s =>
      match int_of_string s with
      | Some z => FOk z
      | None => FErr int_parsing
      end
  end.

(** The bounds [ge] and [le] of a [Field]. *)
Definition check_bounds (ge le : option Z) (z : Z) : FieldRes Z :=
  match ge with
  | Some lo => if z <? lo then FErr greater_than_equal else
      match le with
      | Some hi => if hi <? z then FErr less_than_equal else FOk z
      | None => FOk z
      end
  | None =>
      match le with
      | Some hi => if hi <? z then FErr less_than_equal else FOk z
      | None => FOk z
      end
  end.

Definition bindF {A B} (m : FieldRes A) (k : A -> FieldRes B) : FieldRes B :=
  match m with
  | FOk a => k a
  | FErr t => FErr t
  | FRaise e => FRaise e
  end.

Definition mapF {A B} (f : A -> B) (m : FieldRes A) : FieldRes B :=
  bindF m (fun a => FOk (f a)).

(** A required field, [Field(...)]. *)
Definition required {A} (check : PyVal -> FieldRes A) (name : string)
           (data : PyDict) : FieldRes A :=
  match lookup name data with
  | None => FErr missing
  | Some v => check v
  end.

(** A field with a default: validators do not run on the default. *)
Definition with_default {A} (check : PyVal -> FieldRes A) (dflt : A)
           (name : string) (data : PyDict) : FieldRes A :=
  match lookup name data with
  | None => FOk dflt
  | Some v => check v
  end.

(** The check of [electric_range] and [base_msrp]: the before-validator,
    then [int] with [ge=0]. *)
Definition check_numeric_na (v : PyVal) : FieldRes Z :=
  match handle_numeric_na v with
  | Ret z => bindF (check_int (VInt z)) (check_bounds (Some 0) None)
  | Raise e => FRaise e
  end.

Definition check_normalized (v : PyVal) : FieldRes string :=
  check_str (normalize_strings v).

Definition check_ev_type (v : PyVal) : FieldRes string :=
  mapF validate_ev_type (check_str (normalize_strings v)).

Definition check_model_year (v : PyVal) : FieldRes Z :=
  bindF (check_int v) (check_bounds (Some 1997) (Some 2026)).

(** ** Building a [VehicleRecord] from the keyword arguments [data] *)

Inductive Outcome : Type :=
  | Valid (r : VehicleRecord)
  | Invalid (errors : list ErrorDetail)      (* ValidationError *)
  | Raised (e : PyExn).                      (* any other exception *)

Definition err_of {A} (name : string) (x : FieldRes A) : list ErrorDetail :=
  match x with
  | FErr t => [{| loc := name; type := t |}]
  | _ => []
  end.

Definition exn_of {A} (x : FieldRes A) : list PyExn :=
  match x with
  | FRaise e => [e]
  | _ => []
  end.

Definition val {A} (dflt : A) (x : FieldRes A) : A :=
  match x with
  | FOk a => a
  | _ => dflt
  end.

(** The declared fields, each read from the keyword arguments. *)
Section Fields.
Variable data : PyDict.

Definition f_vin_1_10 := required check_str "vin_1_10" data.
Definition f_county := required check_normalized "county" data.
Definition f_city := required check_normalized "city" data.
Definition f_state := with_default check_str "WA" "state" data.
Definition f_postal_code := with_default check_opt_str None "postal_code" data.
Definition f_model_year := required check_model_year "model_year" data.
Definition f_make := required check_normalized "make" data.
Definition f_model := required check_normalized "model" data.
Definition f_electric_vehicle_type :=
  required check_ev_type "electric_vehicle_type" data.
Definition f_cafv_eligibility := required check_str "cafv_eligibility" data.
Definition f_electric_range := with_default check_numeric_na 0 "electric_range" data.
Definition f_base_msrp := with_default check_numeric_na 0 "base_msrp" data.
Definition f_legislative_district :=
  with_default check_opt_str None "legislative_district" data.
Definition f_dol_vehicle_id := required check_str "dol_vehicle_id" data.
Definition f_vehicle_location :=
  with_default check_opt_str None "vehicle_location" data.
Definition f_electric_utility :=
  with_default check_opt_str None "electric_utility" data.
Definition f_census_tract_2020 :=
  with_default check_opt_str None "census_tract_2020" data.

Definition status {A} (x : FieldRes A) : FieldRes unit := mapF (fun _ => tt) x.

(** How each field fared, in declaration order. *)
Definition field_status : list (string * FieldRes unit) := [
  ("vin_1_10", status f_vin_1_10);
  ("county", status f_county);
  ("city", status f_city);
  ("state", status f_state);
  ("postal_code", status f_postal_code);
  ("model_year", status f_model_year);
  ("make", status f_make);
  ("model", status f_model);
  ("electric_vehicle_type", status f_electric_vehicle_type);
  ("cafv_eligibility", status f_cafv_eligibility);
  ("electric_range", status f_electric_range);
  ("base_msrp", status f_base_msrp);
  ("legislative_district", status f_legislative_district);
  ("dol_vehicle_id", status f_dol_vehicle_id);
  ("vehicle_location", status f_vehicle_location);
  ("electric_utility", status f_electric_utility);
  ("census_tract_2020", status f_census_tract_2020)
].

(** The lines of the [ValidationError]. *)
Definition errors_of : list ErrorDetail :=
  flat_map (fun ns => err_of (fst ns) (snd ns)) field_status.

(** The exceptions that are not validation errors. *)
Definition escaping : list PyExn :=
  flat_map (fun ns => exn_of (snd ns)) field_status.

Definition build : VehicleRecord := {|
  vin_1_10 := val "" f_vin_1_10;
  county := val "" f_county;
  city := val "" f_city;
  state := val "" f_state;
  postal_code := val None f_postal_code;
  model_year := val 0 f_model_year;
  make := val "" f_make;
  model := val "" f_model;
  electric_vehicle_type := val "" f_electric_vehicle_type;
  cafv_eligibility := val "" f_cafv_eligibility;
  electric_range := val 0 f_electric_range;
  base_msrp := val 0 f_base_msrp;
  legislative_district := val None f_legislative_district;
  dol_vehicle_id := val "" f_dol_vehicle_id;
  vehicle_location := val None f_vehicle_location;
  electric_utility := val None f_electric_utility;
  census_tract_2020 := val None f_census_tract_2020
|}.

(** Fields are validated in declaration order; validation errors are
    collected, the first other exception ends the call. *)
Definition validate : Outcome :=
  match escaping with
  | e :: _ => Raised e
  | [] =>
      match errors_of with
      | [] => Valid build
      | errors => Invalid errors
      end
  end.
End Fields.

(** ** [DataQualityReport] ([processed_at], a wall-clock stamp, is left out) *)

Record ValidationErrorEntry : Type := {
  record_index : Z;
  vin : PyVal;
  error : list ErrorDetail
}.

Record DataQualityReport : Type := {
  total_records : Z;
  valid_records : Z;
  invalid_records : Z;
  missing_values : list (string * Z);
  validation_errors : list ValidationErrorEntry
}.

End Validation.

(* ================================================================== *)
(** * app/pipeline/etl.py *)
(* ================================================================== *)

Module Etl.
Import Validation.

(** A data frame is the list of its rows; every row carries the frame's
    columns in order, as (column label, cell). *)
Definition Row : Type := PyDict.
Definition DataFrame : Type := list Row.

(** [pd.isnull] *)
Definition isnull (v : PyVal) : bool :=
  match v with
  | VNone => true
  | VFloat S754_nan => true
  | _ => false
  end.

(** ** [normalize_column_names] *)

Definition column_mapping : list (string * string) := [
  ("VIN (1-10)", "vin_1_10");
  ("County", "county");
  ("City", "city");
  ("State", "state");
  ("Postal Code", "postal_code");
  ("Model Year", "model_year");
  ("Make", "make");
  ("Model", "model");
  ("Electric Vehicle Type", "electric_vehicle_type");
  ("Clean Alternative Fuel Vehicle (CAFV) Eligibility", "cafv_eligibility");
  ("Electric Range", "electric_range");
  ("Base MSRP", "base_msrp");
  ("Legislative District", "legislative_district");
  ("DOL Vehicle ID", "dol_vehicle_id");
  ("Vehicle Location", "vehicle_location");
  ("Electric Utility", "electric_utility");
  ("2020 Census Tract", "census_tract_2020")
].

Fixpoint assoc (k : string) (m : list (string * string)) : option string :=
  match m with
  | [] => None
  | (k', v) :: t => if String.eqb k' k then Some v else assoc k t
  end.

(** A label of the mapping is replaced, any other label is kept. *)
Definition rename_column (c : string) : string :=
  match assoc c column_mapping with
  | Some c' => c'
  | None => c
  end.

Definition rename_row (r : Row) : Row :=
  map (fun cv => (rename_column (fst cv), snd cv)) r.

Definition normalize_column_names (df : DataFrame) : DataFrame :=
  map rename_row df.

(** ** [analyze_missing_values]: per column, the number of null cells,
    for the columns that have any. *)

Definition count_null (c : string) (df : DataFrame) : Z :=
  Z.of_nat (List.length
    (filter (fun r => match lookup c r with
                      | Some v => isnull v
                      | None => false
                      end) df)).

Definition analyze_missing_values (df : DataFrame) : list (string * Z) :=
  match df with
  | [] => []
  | r :: _ =>
      filter (fun cn => 0 <? snd cn)
             (map (fun c => (c, count_null c df)) (keys r))
  end.

(** ** The defaulting steps of [transform] *)

Definition fill_values : PyDict := [
  ("postal_code", VStr "");
  ("legislative_district", VStr "");
  ("vehicle_location", VStr "");
  ("electric_utility", VStr "");
  ("census_tract_2020", VStr "");
  ("electric_range", VInt 0);
  ("base_msrp", VInt 0)
].

(** [df.fillna({...})] on one cell. *)
Definition fillna_cell (c : string) (v : PyVal) : PyVal :=
  if isnull v then
    match lookup c fill_values with
    | Some d => d
    | None => v
    end
  else v.

Definition string_fields : list string :=
  ["postal_code"; "legislative_district"; "dol_vehicle_id"; "census_tract_2020"].

(** [.replace(a, b)] of a series, on one cell: whole-cell match. *)
Definition replace_cell (a : string) (b : PyVal) (v : PyVal) : PyVal :=
  match v with
  | VStr s => if String.eqb s a then b else v
  | _ => v
  end.

(** [df[field].astype(str).replace('nan', '').replace('', None)] on one
    cell of a column of [string_fields]. *)
Definition to_text_cell (v : PyVal) : PyVal :=
  replace_cell "" VNone (replace_cell "nan" (VStr "") (VStr (py_str v))).

Definition stringify_cell (c : string) (v : PyVal) : PyVal :=
  if PyStr.mem c string_fields then to_text_cell v else v.

Definition map_cells (f : string -> PyVal -> PyVal) (r : Row) : Row :=
  map (fun cv => (fst cv, f (fst cv) (snd cv))) r.

(** The normalization of one row: renaming, defaulting, and the
    conversion of the identifier columns to text. *)
Definition normalize_row (r : Row) : Row :=
  map_cells stringify_cell (map_cells fillna_cell (rename_row r)).

Definition normalize (df : DataFrame) : DataFrame := map normalize_row df.

(** ** [validate_record]

    Returns [(is_valid, validated_record, error_msg)]; only a
    [ValidationError] is caught. *)
Definition validate_record (record : PyDict)
  : PyRes (bool * option VehicleRecord * list ErrorDetail) :=
  match validate record with
  | Valid v => Ret (true, Some v, [])
  | Invalid errs => Ret (false, None, errs)
  | Raised e => Raise e
  end.

(** ** [transform] *)

(** [record.get('vin_1_10', 'UNKNOWN')] *)
Definition get_vin (record : PyDict) : PyVal :=
  match lookup "vin_1_10" record with
  | Some v => v
  | None => VStr "UNKNOWN"
  end.

(** One turn of the validation loop over [enumerate(records)].  The
    pipeline object also appends each message to a list of its own that no
    result reads; that list is left out. *)
Definition loop_body
           (acc : list VehicleRecord * list ValidationErrorEntry)
           (idx : Z) (record : PyDict)
  : PyRes (list VehicleRecord * list ValidationErrorEntry) :=
  let '(valid_records, validation_errors) := acc in
  res <- validate_record record ;;
  match res with
  | (true, Some validated_record, _) =>
      Ret (valid_records ++ [validated_record], validation_errors)
  | (_, _, error_msg) =>
      Ret (valid_records,
           validation_errors ++
             [{| record_index := idx; vin := get_vin record; error := error_msg |}])
  end.

Fixpoint validation_loop
         (acc : list VehicleRecord * list ValidationErrorEntry)
         (idx : Z) (records : list PyDict)
  : PyRes (list VehicleRecord * list ValidationErrorEntry) :=
  match records with
  | [] => Ret acc
  | record :: rest =>
      acc' <- loop_body acc idx record ;;
      validation_loop acc' (idx + 1) rest
  end.

Definition len {A} (l : list A) : Z := Z.of_nat (List.length l).

Definition transform (df : DataFrame)
  : PyRes (list VehicleRecord * DataQualityReport) :=
  let df := normalize_column_names df in
  let missing := analyze_missing_values df in
  let df := map (map_cells fillna_cell) df in
  let df := map (map_cells stringify_cell) df in
  let records := df in
  let total := len records in
  out <- validation_loop ([], []) 0 records ;;
  let '(valid_records, validation_errors) := out in
  Ret (valid_records,
       {| total_records := total;
          valid_records := len valid_records;
          invalid_records := len validation_errors;
          missing_values := missing;
          validation_errors := firstn 100 validation_errors |}).

End Etl.

(* ================================================================== *)
(** * The document store (MongoDB collection [vehicles]) *)
(* ================================================================== *)

Module Mongo.
Import Validation.

(** A stored document has the shape of a validated record. *)
Definition Document : Type := VehicleRecord.

(** [db_manager.get_collection("vehicles")]: the documents in natural
    order, or a store that cannot be reached. *)
Inductive Collection : Type :=
  | Online (docs : list Document)
  | Offline.

Section Stages.
Context {K : Type} (eqb : K -> K -> bool).

(** The distinct keys of a list, in order of first occurrence. *)
Fixpoint distinct (l : list K) : list K :=
  match l with
  | [] => []
  | x :: t => x :: filter (fun y => negb (eqb x y)) (distinct t)
  end.

(** [$group] with [_id] the value of [key]: one output document per
    distinct key, carrying the input documents of that key in input
    order (what [$push], [$sum] and [$avg] accumulate over). *)
Definition group {A} (key : A -> K) (docs : list A) : list (K * list A) :=
  map (fun k => (k, filter (fun d => eqb (key d) k) docs))
      (distinct (map key docs)).
End Stages.

Section Sort.
Context {A : Type} (le : A -> A -> bool).

Fixpoint insert_sorted (x : A) (l : list A) : list A :=
  match l with
  | [] => [x]
  | y :: t => if le x y then x :: y :: t else y :: insert_sorted x t
  end.

(** [$sort] / [cursor.sort]: a stable sort by [le]. *)
Definition sort (l : list A) : list A := fold_right insert_sorted [] l.
End Sort.

Definition count {A} (l : list A) : Z := Z.of_nat (List.length l).

Definition sum (l : list Z) : Z := fold_right Z.add 0 l.

(** [$avg] over integer values: the exact sum divided by the count, as a
    double. *)
Definition avg (l : list Z) : spec_float :=
  PyFloat.div (PyFloat.of_Z (sum l)) (PyFloat.of_Z (count l)).

(** [{"$sort": {"count": -1}}] on grouped documents. *)
Definition sort_count_desc {K A} (l : list (K * list A)) : list (K * list A) :=
  sort (fun x y => count (snd y) <=? count (snd x)) l.

(** [$regexMatch] with a literal pattern: substring search. *)
Definition regex_match (input regex : string) : bool :=
  PyStr.contains regex input.

End Mongo.

(* ================================================================== *)
(** * app/schemas/api_models.py *)
(* ================================================================== *)

Module ApiModels.
Import Validation.

Record VehicleTypeSummary : Type := { vts_type : string; vts_count : Z }.
Record MakeSummary : Type := { mks_make : string; mks_count : Z }.
Record EligibilitySummary : Type := { els_eligibility : string; els_count : Z }.

Record SummaryResponse : Type := {
  total_vehicles : Z;
  vehicles_by_type : list VehicleTypeSummary;
  top_10_makes : list MakeSummary;
  average_electric_range : spec_float;
  eligibility_summary : list EligibilitySummary
}.

(** [Vehicle] has the fields of [VehicleRecord]. *)
Definition Vehicle : Type := VehicleRecord.

Record CountyVehiclesResponse : Type := {
  cvr_county : string;
  total_count : Z;
  page : Z;
  page_size : Z;
  total_pages : Z;
  vehicles : list Vehicle
}.

Record ModelStatistics : Type := {
  ms_model : string;
  ms_count : Z;
  ms_average_electric_range : spec_float
}.

Record MakeModelsResponse : Type := {
  mmr_make : string;
  total_models : Z;
  most_popular_model : string;
  most_popular_count : Z;
  models : list ModelStatistics
}.

(** [model_years] is a dictionary read at the keys "start" and "end". *)
Record AnalyzeFilters : Type := {
  makes : option (list string);
  model_years : option (list (string * Z));
  min_electric_range : option Z;
  counties : option (list string);
  vehicle_types : option (list string)
}.

Inductive GroupBy : Type :=
  | by_county
  | by_make
  | by_model_year
  | by_vehicle_type.

Record AnalyzeRequest : Type := {
  filters : AnalyzeFilters;
  group_by : GroupBy
}.

Record GroupStatistics : Type := {
  group_value : string;
  gs_count : Z;
  gs_average_electric_range : spec_float;
  most_common_vehicle : option string
}.

Record AnalyzeResponse : Type := {
  ar_group_by : GroupBy;
  total_matching_vehicles : Z;
  groups : list GroupStatistics
}.

Record YearTrend : Type := {
  yt_model_year : Z;
  vehicle_count : Z;
  yt_average_electric_range : spec_float;
  bev_count : Z;
  phev_count : Z;
  bev_percentage : spec_float;
  phev_percentage : spec_float
}.

Record TrendsResponse : Type := {
  trends : list YearTrend;
  overall_growth_rate : option spec_float;
  range_improvement_rate : option spec_float
}.

End ApiModels.

(* ================================================================== *)
(** * app/api/routes.py *)
(* ================================================================== *)

Module Routes.
Import Validation Mongo ApiModels.

(** The failures an endpoint answers with: 404 raised by the endpoint
    itself, 422 from the declared bounds of its parameters, 500 for any
    other exception ([except Exception]). *)
Inductive HttpError : Type :=
  | NotFound (detail : string)
  | Unprocessable
  | InternalServerError.

Inductive Response (A : Type) : Type :=
  | Ok (a : A)
  | Fail (e : HttpError).
Arguments Ok {A} a.
Arguments Fail {A} e.

(** [try: ... except Exception: raise HTTPException(status_code=500)] *)
Definition guard {A} (m : PyRes A) : Response A :=
  match m with
  | Ret a => Ok a
  | Raise _ => Fail InternalServerError
  end.

(** A query document: the conjunction of its conditions. *)
Definition Query : Type := list (Document -> bool).

Definition matches (q : Query) (d : Document) : bool :=
  forallb (fun cond => cond d) q.

(** [collection.find(q)] and the [$match] stage. *)
Definition find (q : Query) (docs : list Document) : list Document :=
  filter (matches q) docs.

(** ** GET /vehicles/summary *)

Definition get_summary (collection : Collection) : Response SummaryResponse :=
  match collection with
  | Offline => Fail InternalServerError
  | Online docs =>
      let by_type := sort_count_desc (group String.eqb electric_vehicle_type docs) in
      let by_make := firstn 10 (sort_count_desc (group String.eqb make docs)) in
      let range_result :=
        match find [fun d => 0 <? electric_range d] docs with
        | [] => []
        | matched => [avg (map electric_range matched)]
        end in
      let by_eligibility := sort_count_desc (group String.eqb cafv_eligibility docs) in
      Ok {| total_vehicles := count docs;
            vehicles_by_type :=
              map (fun g => {| vts_type := fst g; vts_count := count (snd g) |}) by_type;
            top_10_makes :=
              map (fun g => {| mks_make := fst g; mks_count := count (snd g) |}) by_make;
            average_electric_range :=
              match range_result with
              | avg_range :: _ => PyFloat.round2 avg_range
              | [] => PyFloat.zero
              end;
            eligibility_summary :=
              map (fun g => {| els_eligibility := fst g; els_count := count (snd g) |})
                  by_eligibility |}
  end.

(** ** GET /vehicles/county/{county_name} *)

Inductive SortField : Type := sort_model_year | sort_make | sort_model.
Inductive SortOrder : Type := asc | desc.

Definition field_le (sort_by : SortField) (x y : Document) : bool :=
  match sort_by with
  | sort_model_year => model_year x <=? model_year y
  | sort_make => String.leb (make x) (make y)
  | sort_model => String.leb (model x) (model y)
  end.

Definition cursor_sort (sort_by : SortField) (sort_order : SortOrder)
           (docs : list Document) : list Document :=
  match sort_order with
  | asc => sort (field_le sort_by) docs
  | desc => sort (fun x y => field_le sort_by y x) docs
  end.

(** [if model_year:] holds for an integer that is present and not 0. *)
Definition county_query (county_name : string) (model_year_param : option Z) : Query :=
  (fun d => String.eqb (county d) (PyStr.upper county_name)) ::
  match model_year_param with
  | Some y => if y =? 0 then [] else [fun d => model_year d =? y]
  | None => []
  end.

Definition get_vehicles_by_county (collection : Collection)
           (county_name : string) (page_param page_size_param : Z)
           (model_year_param : option Z)
           (sort_by : SortField) (sort_order : SortOrder)
  : Response CountyVehiclesResponse :=
  if (page_param <? 1) || (page_size_param <? 1) || (100 <? page_size_param)
  then Fail Unprocessable
  else
    match collection with
    | Offline => Fail InternalServerError
    | Online docs =>
        let query := county_query county_name model_year_param in
        let matched := find query docs in
        let total := count matched in
        if total =? 0
        then Fail (NotFound (String.append "No vehicles found in county: " county_name))
        else
          guard (
            pages <- (q <- PyFloat.int_truediv total page_size_param ;; PyFloat.ceil q) ;;
            let skip := (page_param - 1) * page_size_param in
            let cursor :=
              firstn (Z.to_nat page_size_param)
                     (skipn (Z.to_nat skip) (cursor_sort sort_by sort_order matched)) in
            Ret {| cvr_county := PyStr.upper county_name;
                   total_count := total;
                   page := page_param;
                   page_size := page_size_param;
                   total_pages := pages;
                   vehicles := cursor |})
    end.

(** ** GET /vehicles/make/{make}/models *)

Definition get_models_by_make (collection : Collection) (make_param : string)
  : Response MakeModelsResponse :=
  match collection with
  | Offline => Fail InternalServerError
  | Online docs =>
      let results :=
        sort_count_desc
          (group String.eqb model
                 (find [fun d => String.eqb (make d) (PyStr.upper make_param)] docs)) in
      match results with
      | [] => Fail (NotFound (String.append "No vehicles found for make: " make_param))
      | most_popular :: _ =>
          let stats :=
            map (fun doc =>
                   {| ms_model := fst doc;
                      ms_count := count (snd doc);
                      ms_average_electric_range :=
                        PyFloat.round2 (avg (map electric_range (snd doc))) |})
                results in
          Ok {| mmr_make := PyStr.upper make_param;
                total_models := count stats;
                most_popular_model := fst most_popular;
                most_popular_count := count (snd most_popular);
                models := stats |}
      end
  end.

(** ** POST /vehicles/analyze *)

(** [{"$in": [x.upper() for x in values]}], present when the list is
    given and not empty. *)
Definition in_upper (field : Document -> string) (values : option (list string)) : Query :=
  match values with
  | Some (v :: vs) => [fun d => PyStr.mem (field d) (map PyStr.upper (v :: vs))]
  | _ => []
  end.

Fixpoint dict_get (k : string) (d : list (string * Z)) : option Z :=
  match d with
  | [] => None
  | (k', v) :: t => if String.eqb k' k then Some v else dict_get k t
  end.

Definition year_filter (years : option (list (string * Z))) : Query :=
  match years with
  | Some (kv :: rest) =>
      let d := kv :: rest in
      match dict_get "start" d with
      | Some start => [fun doc => start <=? model_year doc]
      | None => []
      end ++
      match dict_get "end" d with
      | Some stop => [fun doc => model_year doc <=? stop]
      | None => []
      end
  | _ => []
  end.

(** [if request.filters.min_electric_range:] holds when present and not 0. *)
Definition min_range_filter (m : option Z) : Query :=
  match m with
  | Some n => if n =? 0 then [] else [fun d => n <=? electric_range d]
  | None => []
  end.

Definition match_stage (f : AnalyzeFilters) : Query :=
  in_upper make (makes f) ++
  year_filter (model_years f) ++
  min_range_filter (min_electric_range f) ++
  in_upper county (counties f) ++
  in_upper electric_vehicle_type (vehicle_types f).

(** The value of [_id] in the group stage. *)
Inductive GroupKey : Type :=
  | KStr (s : string)
  | KInt (z : Z)
  | KNull.

Definition key_eqb (a b : GroupKey) : bool :=
  match a, b with
  | KStr x, KStr y => String.eqb x y
  | KInt x, KInt y => x =? y
  | KNull, KNull => true
  | _, _ => false
  end.

(** [f"${request.group_by}"] evaluated on a document.  The documents
    have no field named [vehicle_type], so that path yields null. *)
Definition group_field (g : GroupBy) (d : Document) : GroupKey :=
  match g with
  | by_county => KStr (county d)
  | by_make => KStr (make d)
  | by_model_year => KInt (model_year d)
  | by_vehicle_type => KNull
  end.

(** [str(doc["_id"])] *)
Definition key_str (k : GroupKey) : string :=
  match k with
  | KStr s => s
  | KInt z => PyStr.of_Z z
  | KNull => "None"
  end.

(** [f"{v['make']} {v['model']}"] *)
Definition vehicle_key (v : string * string) : string :=
  String.append (fst v) (String " " (snd v)).

(** [d[key] = d.get(key, 0) + 1] on an insertion-ordered dictionary. *)
Fixpoint dict_incr (key : string) (d : list (string * Z)) : list (string * Z) :=
  match d with
  | [] => [(key, 1)]
  | (k, n) :: t =>
      if String.eqb k key then (k, n + 1) :: t else (k, n) :: dict_incr key t
  end.

Definition vehicle_counts (members : list (string * string)) : list (string * Z) :=
  fold_left (fun counts v => dict_incr (vehicle_key v) counts) members [].

(** [max(items, key=lambda x: x[1])], scanning from [best]: a later item
    replaces it only when strictly greater. *)
Fixpoint max_from (best : string * Z) (items : list (string * Z)) : string * Z :=
  match items with
  | [] => best
  | x :: t => max_from (if snd best <? snd x then x else best) t
  end.

(** [max(vehicle_counts.items(), key=...)[0] if vehicle_counts else None] *)
Definition most_common (counts : list (string * Z)) : option string :=
  match counts with
  | [] => None
  | x :: t => Some (fst (max_from x t))
  end.

Definition group_statistics (doc : GroupKey * list Document) : GroupStatistics :=
  let members := map (fun d => (make d, model d)) (snd doc) in
  {| group_value := key_str (fst doc);
     gs_count := count (snd doc);
     gs_average_electric_range := PyFloat.round2 (avg (map electric_range (snd doc)));
     most_common_vehicle := most_common (vehicle_counts members) |}.

(** [min_electric_range] is declared with [ge=0]. *)
Definition negative_min_range (f : AnalyzeFilters) : bool :=
  match min_electric_range f with
  | Some n => n <? 0
  | None => false
  end.

Definition analyze_vehicles (collection : Collection) (request : AnalyzeRequest)
  : Response AnalyzeResponse :=
  if negative_min_range (filters request) then Fail Unprocessable
  else
    match collection with
    | Offline => Fail InternalServerError
    | Online docs =>
        let results :=
          sort_count_desc
            (group key_eqb (group_field (group_by request))
                   (find (match_stage (filters request)) docs)) in
        match results with
        | [] => Fail (NotFound "No vehicles match the specified filters")
        | _ =>
            Ok {| ar_group_by := group_by request;
                  total_matching_vehicles := sum (map (fun doc => count (snd doc)) results);
                  groups := map group_statistics results |}
        end
    end.

(** ** GET /vehicles/trends *)

(** [(part / total * 100) if total > 0 else 0] *)
Definition percentage (part total : Z) : PyRes spec_float :=
  if 0 <? total
  then q <- PyFloat.int_truediv part total ;; PyFloat.mul_int q 100
  else Ret PyFloat.zero.

(** One element of [trends], from a grouped document of the pipeline. *)
Definition year_trend (doc : Z * list Document) : PyRes YearTrend :=
  let bev := count (filter (fun d => regex_match (electric_vehicle_type d) "BEV") (snd doc)) in
  let phev := count (filter (fun d => regex_match (electric_vehicle_type d) "PHEV") (snd doc)) in
  let total := bev + phev in
  bev_pct <- percentage bev total ;;
  phev_pct <- percentage phev total ;;
  Ret {| yt_model_year := fst doc;
         vehicle_count := count (snd doc);
         yt_average_electric_range := PyFloat.round2 (avg (map electric_range (snd doc)));
         bev_count := bev;
         phev_count := phev;
         bev_percentage := PyFloat.round2 bev_pct;
         phev_percentage := PyFloat.round2 phev_pct |}.

Fixpoint year_trends (results : list (Z * list Document)) : PyRes (list YearTrend) :=
  match results with
  | [] => Ret []
  | doc :: rest =>
      t <- year_trend doc ;;
      ts <- year_trends rest ;;
      Ret (t :: ts)
  end.

(** [((b - a) / a / years_diff) * 100] on two counts. *)
Definition count_rate (first_count last_count years_diff : Z) : PyRes spec_float :=
  q <- PyFloat.int_truediv (last_count - first_count) first_count ;;
  r <- PyFloat.truediv_int q years_diff ;;
  PyFloat.mul_int r 100.

(** [((b - a) / a / years_diff) * 100] on two mean ranges. *)
Definition range_rate (first_range last_range : spec_float) (years_diff : Z)
  : PyRes spec_float :=
  q <- PyFloat.truediv (PyFloat.sub last_range first_range) first_range ;;
  r <- PyFloat.truediv_int q years_diff ;;
  PyFloat.mul_int r 100.

(** The two rates before rounding, [None] where the source assigns
    [None]. *)
Definition growth_rates (ts : list YearTrend)
  : PyRes (option spec_float * option spec_float) :=
  match ts with
  | first :: _ :: _ =>
      let final := last ts first in
      let first_year_count := vehicle_count first in
      let last_year_count := vehicle_count final in
      let years_diff := yt_model_year final - yt_model_year first in
      overall <- (if (0 <? years_diff) && (0 <? first_year_count)
                  then r <- count_rate first_year_count last_year_count years_diff ;;
                       Ret (Some r)
                  else Ret None) ;;
      let first_year_range := yt_average_electric_range first in
      let last_year_range := yt_average_electric_range final in
      improvement <- (if PyFloat.gt0 first_year_range
                      then r <- range_rate first_year_range last_year_range years_diff ;;
                           Ret (Some r)
                      else Ret None) ;;
      Ret (overall, improvement)
  | _ => Ret (None, None)
  end.

(** [round(x, 2) if x else None] *)
Definition round_if_truthy (x : option spec_float) : option spec_float :=
  match x with
  | Some f => if PyFloat.truthy f then Some (PyFloat.round2 f) else None
  | None => None
  end.

Definition get_trends (collection : Collection) : Response TrendsResponse :=
  match collection with
  | Offline => Fail InternalServerError
  | Online docs =>
      let results :=
        sort (fun x y => fst x <=? fst y) (group Z.eqb model_year docs) in
      match results with
      | [] => Fail (NotFound "No trend data available")
      | _ =>
          guard (
            ts <- year_trends results ;;
            rates <- growth_rates ts ;;
            Ret {| trends := ts;
                   overall_growth_rate := round_if_truthy (fst rates);
                   range_improvement_rate := round_if_truthy (snd rates) |})
      end
  end.

End Routes.

(* ================================================================== *)
(** * Python runtime: ranges and slices *)
(* ================================================================== *)

Module PySeq.

(** [len(range(start, stop, step))] for a step other than 0. *)
Definition range_length (start stop step : Z) : Z :=
  if 0 <? step then
    if start <? stop then 1 + (stop - 1 - start) / step else 0
  else
    if stop <? start then 1 + (start - 1 - stop) / (- step) else 0.

(** [range(start, stop, step)]: a step of 0 is a [ValueError]. *)
Definition range (start stop step : Z) : PyRes (list Z) :=
  if step =? 0 then Raise ValueError
  else Ret (map (fun k => start + Z.of_nat k * step)
                (seq 0 (Z.to_nat (range_length start stop step)))).

(** A slice bound brought into [0..n]: a negative bound counts from the
    end. *)
Definition clamp (n i : Z) : Z :=
  if i <? 0 then Z.max 0 (i + n) else Z.min i n.

(** [l[i:j]] *)
Definition slice {A} (l : list A) (i j : Z) : list A :=
  let n := Z.of_nat (List.length l) in
  let lo := clamp n i in
  let hi := clamp n j in
  firstn (Z.to_nat (hi - lo)) (skipn (Z.to_nat lo) l).

End PySeq.

(* ================================================================== *)
(** * app/database.py and the loading half of app/pipeline/etl.py *)
(* ================================================================== *)

(** The code of these two files talks to the outside world: the MongoDB
    server, the file system, S3.  The embedding records every call made
    on the outside world, in order, and takes the answers from a [World]:
    whether the call fails, and with what.  The client object is created
    without contacting the server (the first contact is the ping), and
    the connection URL is well formed. *)

Module Pipeline.
Import Validation.

(** An exception that ends a call: a built-in one of the runtime, or one
    of a library or of the system, known by its class name. *)
Inductive Exn : Type :=
  | Builtin (e : PyExn)
  | External (class_name : string).

Inductive Result (A : Type) : Type :=
  | Done (a : A)
  | Failed (e : Exn).
Arguments Done {A} a.
Arguments Failed {A} e.

(** The calls made on the outside world. *)
Inductive Effect : Type :=
  | Ping                                        (* client.admin.command('ping') *)
  | CloseClient                                 (* client.close() *)
  | DropCollection (name : string)              (* db[name].drop() *)
  | InsertMany (batch : list VehicleRecord)     (* collection.insert_many(batch) *)
  | CreateIndex (name : string)                 (* collection.create_index(..., name=name) *)
  | ReadLocal (path : string)                   (* pd.read_csv(path) *)
  | ReadS3 (bucket key : string).               (* s3_client.get_object(...) and pd.read_csv *)

(** What the outside world answers. *)
Record World : Type := {
  ping_error : option Exn;
  drop_error : option Exn;
  insert_error : list VehicleRecord -> option Exn;
  index_error : string -> option Exn;
  (** [None] when no file exists at the path. *)
  local_file : string -> option (Result Etl.DataFrame);
  s3_object : string -> string -> Result Etl.DataFrame
}.

(** The settings the pipeline reads. *)
Record Settings : Type := {
  csv_source : string;
  csv_local_path : string;
  csv_s3_bucket : string;
  csv_s3_key : string
}.

(** [DatabaseManager]: whether [client] and [db] are set. *)
Record Manager : Type := { client : bool; db : bool }.

(** The state threaded through the calls: the manager and the calls made
    so far. *)
Record State : Type := { manager : Manager; effects : list Effect }.

Definition M (A : Type) : Type := State -> Result A * State.

Definition ret {A} (a : A) : M A := fun s => (Done a, s).

Definition raise {A} (e : Exn) : M A := fun s => (Failed e, s).

Definition bind {A B} (m : M A) (k : A -> M B) : M B :=
  fun s =>
    match m s with
    | (Done a, s') => k a s'
    | (Failed e, s') => (Failed e, s')
    end.

Notation "x <-- m ;;; k" := (bind m (fun x => k))
  (at level 61, m at next level, right associativity).
Notation "m ;;; k" := (bind m (fun _ => k))
  (at level 61, right associativity).

(** [try: body finally: cleanup] *)
Definition finally {A} (body : M A) (cleanup : M unit) : M A :=
  fun s =>
    match body s with
    | (res, s') =>
        match cleanup s' with
        | (Done _, s'') => (res, s'')
        | (Failed e, s'') => (Failed e, s'')
        end
    end.

(** A built-in exception of a pure computation ends the call. *)
Definition lift {A} (m : PyRes A) : M A :=
  match m with
  | Ret a => ret a
  | Raise e => raise (Builtin e)
  end.

(** One call on the outside world: it is recorded, and its outcome is the
    answer of the world. *)
Definition call {A} (ef : Effect) (answer : Result A) : M A :=
  fun s => (answer, {| manager := manager s; effects := effects s ++ [ef] |}).

(** A call without a result, which fails when the world says so. *)
Definition perform (ef : Effect) (error : option Exn) : M unit :=
  call ef (match error with
           | Some e => Failed e
           | None => Done tt
           end).

Definition set_client : M unit :=
  fun s => (Done tt, {| manager := {| client := true; db := db (manager s) |};
                        effects := effects s |}).

Definition set_db : M unit :=
  fun s => (Done tt, {| manager := {| client := client (manager s); db := true |};
                        effects := effects s |}).

Definition get_manager : M Manager := fun s => (Done (manager s), s).

Section Calls.
Variable world : World.

(** ** [DatabaseManager] *)

Definition connect : M unit :=
  set_client ;;;
  perform Ping (ping_error world) ;;;
  set_db.

Definition disconnect : M unit :=
  m <-- get_manager ;;;
  if client m then perform CloseClient None else ret tt.

Definition get_collection : M unit :=
  m <-- get_manager ;;;
  if db m then ret tt else connect.

(** The names of the indexes, in the order they are created. *)
Definition index_names : list string :=
  ["idx_county"; "idx_make"; "idx_model_year"; "idx_ev_type"; "idx_electric_range";
   "idx_make_model"; "idx_county_year"; "idx_year_type"].

Fixpoint create_each (names : list string) : M unit :=
  match names with
  | [] => ret tt
  | n :: rest => perform (CreateIndex n) (index_error world n) ;;; create_each rest
  end.

Definition create_indexes : M unit :=
  get_collection ;;;
  create_each index_names.

(** [self.db[collection_name].drop()]: without a database the subscript
    itself is a [TypeError]. *)
Definition drop_collection (collection_name : string) : M unit :=
  m <-- get_manager ;;;
  if db m then perform (DropCollection collection_name) (drop_error world)
  else raise (Builtin TypeError).

(** ** [DataPipeline]: extract *)

Definition extract_from_local (file_path : string) : M Etl.DataFrame :=
  match local_file world file_path with
  | None => raise (External "FileNotFoundError")
  | Some answer => call (ReadLocal file_path) answer
  end.

Definition extract_from_s3 (bucket key : string) : M Etl.DataFrame :=
  call (ReadS3 bucket key) (s3_object world bucket key).

Definition extract (settings : Settings) : M Etl.DataFrame :=
  if String.eqb (csv_source settings) "local"
  then extract_from_local (csv_local_path settings)
  else if String.eqb (csv_source settings) "s3"
  then extract_from_s3 (csv_s3_bucket settings) (csv_s3_key settings)
  else raise (Builtin ValueError).

(** ** [DataPipeline]: load *)

(** [collection.insert_many(batch, ordered=False)]: an empty batch is
    refused by the driver, with a [TypeError], before anything is sent. *)
Definition insert_many (batch : list VehicleRecord) : M unit :=
  match batch with
  | [] => raise (Builtin TypeError)
  | _ => perform (InsertMany batch) (insert_error world batch)
  end.

Fixpoint insert_batches (records : list VehicleRecord) (batch_size : Z)
         (starts : list Z) : M unit :=
  match starts with
  | [] => ret tt
  | i :: rest =>
      insert_many (PySeq.slice records i (i + batch_size)) ;;;
      insert_batches records batch_size rest
  end.

Definition load (records : list VehicleRecord) (batch_size : Z) : M unit :=
  get_collection ;;;
  starts <-- lift (PySeq.range 0 (Etl.len records) batch_size) ;;;
  insert_batches records batch_size starts ;;;
  create_indexes.

(** ** [DataPipeline.run_pipeline] *)

Definition run_pipeline (settings : Settings) (drop_existing : bool)
  : M DataQualityReport :=
  finally
    (connect ;;;
     (if drop_existing then drop_collection "vehicles" else ret tt) ;;;
     df <-- extract settings ;;;
     out <-- lift (Etl.transform df) ;;;
     load (fst out) 10000 ;;;
     ret (snd out))
    disconnect.

End Calls.

(** [run_etl_pipeline]: a fresh pipeline on the shared manager. *)
Definition run_etl_pipeline (world : World) (settings : Settings) (drop_existing : bool)
  : M DataQualityReport :=
  run_pipeline world settings drop_existing.

End Pipeline.

(* ================================================================== *)
(** * Notions of the specification and sample data *)
(* ================================================================== *)

(** ** Validation *)

(** The text fields declared with [Field(...)]. *)
Definition required_text_fields : list string :=
  ["vin_1_10"; "county"; "city"; "make"; "model"; "electric_vehicle_type";
   "cafv_eligibility"; "dol_vehicle_id"].

(** The field is absent from the record or holds something that is not
    text (null, a number). *)
Definition not_text (f : string) (data : PyDict) : Prop :=
  match lookup f data with
  | Some (VStr _) => False
  | _ => True
  end.

(** The field is absent, null, or text that is empty once trimmed. *)
Definition missing_or_blank (f : string) (data : PyDict) : Prop :=
  match lookup f data with
  | None => True
  | Some VNone => True
  | Some (VStr s) => PyStr.strip s = ""
  | Some _ => False
  end.

(** Validation failed with a message that names [f]. *)
Definition fails_naming (f : string) (o : Validation.Outcome) : Prop :=
  match o with
  | Validation.Invalid errs => In f (map Validation.loc errs)
  | _ => False
  end.

(** The status recorded for a field name. *)
Fixpoint status_at (f : string) (l : list (string * Validation.FieldRes unit))
  : option (Validation.FieldRes unit) :=
  match l with
  | [] => None
  | (n, st) :: t => if String.eqb n f then Some st else status_at f t
  end.

(** A complete record but for the county. *)
Definition no_county : PyDict := [
  ("vin_1_10", VStr "5YJSA1E26K"); ("city", VStr "SEATTLE");
  ("state", VStr "WA"); ("model_year", VInt 2023); ("make", VStr "TESLA");
  ("model", VStr "MODEL S"); ("electric_vehicle_type", VStr "BEV");
  ("cafv_eligibility", VStr "Eligible"); ("dol_vehicle_id", VStr "12345")
].

(** A raw row, complete, whose county cell is three spaces; and the
    record its normalization yields. *)
Definition blank_county_row : PyDict := [
  ("VIN (1-10)", VStr "5YJSA1E26K"); ("County", VStr "   "); ("City", VStr "Seattle");
  ("State", VStr "WA"); ("Postal Code", VInt 98101); ("Model Year", VInt 2023);
  ("Make", VStr "TESLA"); ("Model", VStr "MODEL S");
  ("Electric Vehicle Type", VStr "Battery Electric Vehicle (BEV)");
  ("Clean Alternative Fuel Vehicle (CAFV) Eligibility", VStr "Eligible");
  ("Electric Range", VInt 405); ("Base MSRP", VInt 0);
  ("Legislative District", VInt 43); ("DOL Vehicle ID", VInt 12345);
  ("Vehicle Location", VFloat S754_nan); ("Electric Utility", VFloat S754_nan);
  ("2020 Census Tract", VInt 53033000100)
].

Definition blank_county : PyDict := Etl.normalize_row blank_county_row.

(** A record without county whose electric range is the text "-5". *)
Definition negative_range : PyDict := ("electric_range", VStr "-5") :: no_county.

(** ** Normalization *)

(** What the three steps of the normalization do to one cell. *)
Definition normalize_cell (cv : string * PyVal) : string * PyVal :=
  let c := Etl.rename_column (fst cv) in
  (c, Etl.stringify_cell c (Etl.fillna_cell c (snd cv))).

(** A row whose DOL id is missing. *)
Definition missing_dol_id : Etl.Row := [("DOL Vehicle ID", VFloat S754_nan)].

(** A row with missing optional cells and a DOL id. *)
Definition sample_row : Etl.Row := [
  ("VIN (1-10)", VStr "5YJSA1E26K"); ("County", VStr "King");
  ("Postal Code", VFloat S754_nan); ("Model Year", VInt 2023);
  ("Electric Range", VFloat S754_nan); ("Legislative District", VInt 43);
  ("DOL Vehicle ID", VInt 12345); ("2020 Census Tract", VStr "nan")
].

(** A frame of three rows: a complete one, one without county and DOL
    id, and one whose electric range is negative. *)
Definition sample_frame : Etl.DataFrame := [
  [("VIN (1-10)", VStr "5YJSA1E26K"); ("County", VStr "King"); ("City", VStr "Seattle");
   ("Model Year", VInt 2023); ("Make", VStr "TESLA"); ("Model", VStr "MODEL S");
   ("Electric Vehicle Type", VStr "Battery Electric Vehicle (BEV)");
   ("Clean Alternative Fuel Vehicle (CAFV) Eligibility", VStr "Eligible");
   ("Electric Range", VInt 405); ("DOL Vehicle ID", VInt 12345)];
  [("VIN (1-10)", VStr "1G1RD6E44D"); ("County", VFloat S754_nan); ("City", VStr "Everett");
   ("Model Year", VInt 2022); ("Make", VStr "CHEVROLET"); ("Model", VStr "BOLT EV");
   ("Electric Vehicle Type", VStr "Battery Electric Vehicle (BEV)");
   ("Clean Alternative Fuel Vehicle (CAFV) Eligibility", VStr "Eligible");
   ("Electric Range", VInt 259); ("DOL Vehicle ID", VFloat S754_nan)];
  [("VIN (1-10)", VStr "5YJSA1E28L"); ("County", VStr "Pierce"); ("City", VStr "Tacoma");
   ("Model Year", VInt 2024); ("Make", VStr "TESLA"); ("Model", VStr "MODEL 3");
   ("Electric Vehicle Type", VStr "Battery Electric Vehicle (BEV)");
   ("Clean Alternative Fuel Vehicle (CAFV) Eligibility", VStr "Eligible");
   ("Electric Range", VInt (-1)); ("DOL Vehicle ID", VInt 11111)]
].

(** ** The answers of the query operations *)

(** The answer is the not-found condition. *)
Definition is_not_found {A} (r : Routes.Response A) : Prop :=
  exists detail, r = Routes.Fail (Routes.NotFound detail).

(** The answer is a computed result. *)
Definition is_result {A} (r : Routes.Response A) : Prop := exists a, r = Routes.Ok a.

(** [NotFound] exactly when nothing matches, a result otherwise. *)
Definition not_found_iff_empty {A} (r : Routes.Response A) (matched : list Mongo.Document)
  : Prop :=
  (matched = [] -> is_not_found r) /\ (matched <> [] -> is_result r).

(** The grouped documents the make->models operation is answered from. *)
Definition make_results (docs : list Mongo.Document) (make_param : string)
  : list (string * list Mongo.Document) :=
  Mongo.sort_count_desc
    (Mongo.group String.eqb Validation.model
       (Routes.find [fun d => String.eqb (Validation.make d) (PyStr.upper make_param)] docs)).

(** The grouped documents an analyze request is answered from. *)
Definition analyze_results (docs : list Mongo.Document) (request : ApiModels.AnalyzeRequest)
  : list (Routes.GroupKey * list Mongo.Document) :=
  Mongo.sort_count_desc
    (Mongo.group Routes.key_eqb (Routes.group_field (ApiModels.group_by request))
                 (Routes.find (Routes.match_stage (ApiModels.filters request)) docs)).

(** The grouped documents the trends operation is answered from. *)
Definition trend_results (docs : list Mongo.Document) : list (Z * list Mongo.Document) :=
  Mongo.sort (fun x y => fst x <=? fst y) (Mongo.group Z.eqb Validation.model_year docs).

(** The mean electric range of a group, before rounding. *)
Definition mean_range (members : list Mongo.Document) : spec_float :=
  Mongo.avg (map Validation.electric_range members).

(** A trend point as the claim reads it: the mean range and the two
    percentages are the rounded forms of the unrounded values. *)
Definition rounded_trend (doc : Z * list Mongo.Document) (t : ApiModels.YearTrend) : Prop :=
  ApiModels.yt_model_year t = fst doc /\
  ApiModels.yt_average_electric_range t = PyFloat.round2 (mean_range (snd doc)) /\
  (exists x, Routes.percentage (ApiModels.bev_count t)
                               (ApiModels.bev_count t + ApiModels.phev_count t) = Ret x /\
             ApiModels.bev_percentage t = PyFloat.round2 x) /\
  (exists x, Routes.percentage (ApiModels.phev_count t)
                               (ApiModels.bev_count t + ApiModels.phev_count t) = Ret x /\
             ApiModels.phev_percentage t = PyFloat.round2 x).

(** A float that is neither an infinity nor NaN. *)
Definition finite_or_zero (f : spec_float) : Prop :=
  match f with
  | S754_zero _ | S754_finite _ _ _ => True
  | _ => False
  end.

(** ** The most common vehicle *)

(** The labels of the members of a group, in the order [$push] collected
    them. *)
Definition member_labels (members : list Mongo.Document) : list string :=
  map (fun d => Routes.vehicle_key (Validation.make d, Validation.model d)) members.

(** The number of occurrences of a label. *)
Definition occ (l : string) (labels : list string) : Z :=
  Mongo.count (filter (String.eqb l) labels).

(** The specification of the tie-break: the first label, in the order the
    members were collected, whose frequency no label exceeds. *)
Definition first_most_frequent (labels : list string) : option string :=
  List.find (fun l => forallb (fun l' => occ l' labels <=? occ l labels) labels) labels.

Definition pair_eqb (p q : string * string) : bool :=
  String.eqb (fst p) (fst q) && String.eqb (snd p) (snd q).

(** The number of occurrences of a (make, model) pair. *)
Definition occ_pair (p : string * string) (members : list (string * string)) : Z :=
  Mongo.count (filter (pair_eqb p) members).

(** The same specification on (make, model) pairs, as the claim words
    it. *)
Definition first_most_frequent_pair (members : list (string * string))
  : option (string * string) :=
  List.find (fun p => forallb (fun p' => occ_pair p' members <=? occ_pair p members) members)
            members.

(** The tally of a list of labels, as the loop builds it. *)
Definition tally (labels : list string) : list (string * Z) :=
  fold_left (fun counts l => Routes.dict_incr l counts) labels [].

(** The labels in order of first occurrence, built from the left as the
    loop meets them. *)
Definition first_seen (labels : list string) : list string := map fst (tally labels).

(** Three distinct pairs, two of which render to the same label. *)
Definition colliding_members : list (string * string) :=
  [("X", "Y"); ("A B", "C"); ("A", "B C")].

(** ** Sample stores *)

(** A stored document with the given county, make, model, year, range and
    vehicle type. *)
Definition vehicle (cnty mke mdl : string) (yr rng : Z) (evt : string) : Mongo.Document :=
  {| Validation.vin_1_10 := "5YJSA1E26K";
     Validation.county := cnty;
     Validation.city := "SEATTLE";
     Validation.state := "WA";
     Validation.postal_code := None;
     Validation.model_year := yr;
     Validation.make := mke;
     Validation.model := mdl;
     Validation.electric_vehicle_type := evt;
     Validation.cafv_eligibility := "Eligible";
     Validation.electric_range := rng;
     Validation.base_msrp := 0;
     Validation.legislative_district := None;
     Validation.dol_vehicle_id := "1";
     Validation.vehicle_location := None;
     Validation.electric_utility := None;
     Validation.census_tract_2020 := None |}.

(** Two counties, two makes. *)
Definition small_store : list Mongo.Document := [
  vehicle "KING" "TESLA" "MODEL S" 2023 405 Validation.BEV_LABEL;
  vehicle "KING" "TESLA" "MODEL 3" 2024 358 Validation.BEV_LABEL;
  vehicle "PIERCE" "BMW" "X5" 2024 30 Validation.PHEV_LABEL
].

(** Two model years with one vehicle each, of the same range. *)
Definition flat_store : list Mongo.Document := [
  vehicle "KING" "TESLA" "MODEL 3" 2020 100 Validation.BEV_LABEL;
  vehicle "KING" "TESLA" "MODEL 3" 2021 100 Validation.BEV_LABEL
].

(** Eight vehicles of one model whose ranges sum to 1. *)
Definition eighth_store : list Mongo.Document := [
  vehicle "KING" "TESLA" "MODEL S" 2020 1 Validation.BEV_LABEL;
  vehicle "KING" "TESLA" "MODEL S" 2020 0 Validation.BEV_LABEL;
  vehicle "KING" "TESLA" "MODEL S" 2020 0 Validation.BEV_LABEL;
  vehicle "KING" "TESLA" "MODEL S" 2020 0 Validation.BEV_LABEL;
  vehicle "KING" "TESLA" "MODEL S" 2020 0 Validation.BEV_LABEL;
  vehicle "KING" "TESLA" "MODEL S" 2020 0 Validation.BEV_LABEL;
  vehicle "KING" "TESLA" "MODEL S" 2020 0 Validation.BEV_LABEL;
  vehicle "KING" "TESLA" "MODEL S" 2020 0 Validation.BEV_LABEL
].

(** One county whose three vehicles are the colliding pairs. *)
Definition colliding_store : list Mongo.Document := [
  vehicle "KING" "X" "Y" 2020 100 Validation.BEV_LABEL;
  vehicle "KING" "A B" "C" 2021 100 Validation.BEV_LABEL;
  vehicle "KING" "A" "B C" 2022 100 Validation.BEV_LABEL
].

(** One county in which two labels occur twice each. *)
Definition tied_store : list Mongo.Document := [
  vehicle "KING" "NISSAN" "LEAF" 2020 150 Validation.BEV_LABEL;
  vehicle "KING" "TESLA" "MODEL 3" 2021 300 Validation.BEV_LABEL;
  vehicle "KING" "TESLA" "MODEL 3" 2022 310 Validation.BEV_LABEL;
  vehicle "KING" "NISSAN" "LEAF" 2022 160 Validation.BEV_LABEL
].

Definition no_filters : ApiModels.AnalyzeFilters :=
  {| ApiModels.makes := None;
     ApiModels.model_years := None;
     ApiModels.min_electric_range := None;
     ApiModels.counties := None;
     ApiModels.vehicle_types := None |}.

Definition by_county_request : ApiModels.AnalyzeRequest :=
  {| ApiModels.filters := no_filters; ApiModels.group_by := ApiModels.by_county |}.

(** The answer to [by_county_request] on [tied_store]. *)
Definition tied_answer : ApiModels.AnalyzeResponse :=
  {| ApiModels.ar_group_by := ApiModels.by_county;
     ApiModels.total_matching_vehicles := 4;
     ApiModels.groups :=
       [{| ApiModels.group_value := "KING";
           ApiModels.gs_count := 4;
           ApiModels.gs_average_electric_range := PyFloat.of_Z 230;
           ApiModels.most_common_vehicle := Some "NISSAN LEAF" |}] |}.

(** ** Validation: the stored form of a record *)

Definition opt_text (o : option string) : PyVal :=
  match o with
  | Some s => VStr s
  | None => VNone
  end.

(** [validated_record.model_dump()]: the fields in declaration order. *)
Definition model_dump (r : Validation.VehicleRecord) : PyDict := [
  ("vin_1_10", VStr (Validation.vin_1_10 r));
  ("county", VStr (Validation.county r));
  ("city", VStr (Validation.city r));
  ("state", VStr (Validation.state r));
  ("postal_code", opt_text (Validation.postal_code r));
  ("model_year", VInt (Validation.model_year r));
  ("make", VStr (Validation.make r));
  ("model", VStr (Validation.model r));
  ("electric_vehicle_type", VStr (Validation.electric_vehicle_type r));
  ("cafv_eligibility", VStr (Validation.cafv_eligibility r));
  ("electric_range", VInt (Validation.electric_range r));
  ("base_msrp", VInt (Validation.base_msrp r));
  ("legislative_district", opt_text (Validation.legislative_district r));
  ("dol_vehicle_id", VStr (Validation.dol_vehicle_id r));
  ("vehicle_location", opt_text (Validation.vehicle_location r));
  ("electric_utility", opt_text (Validation.electric_utility r));
  ("census_tract_2020", opt_text (Validation.census_tract_2020 r))
].

(** Text in the form [normalize_strings] produces: upper case, no white
    space at either end. *)
Definition normalized_text (s : string) : Prop :=
  PyStr.upper s = s /\ PyStr.strip s = s.

(** The vehicle type is one of the accepted forms, or names neither BEV
    nor PHEV. *)
Definition settled_type (t : string) : Prop :=
  PyStr.mem t Validation.valid_types = true \/
  (PyStr.contains "BEV" t = false /\ PyStr.contains "PHEV" t = false).

(** A complete record of the county KING. *)
Definition king_record : PyDict := ("county", VStr " King ") :: no_county.

(** The fields of a record and the outcome of their checks. *)
Definition fields_ok (data : PyDict) (r : Validation.VehicleRecord) : Prop :=
  Validation.f_vin_1_10 data = Validation.FOk (Validation.vin_1_10 r) /\
  Validation.f_county data = Validation.FOk (Validation.county r) /\
  Validation.f_city data = Validation.FOk (Validation.city r) /\
  Validation.f_state data = Validation.FOk (Validation.state r) /\
  Validation.f_postal_code data = Validation.FOk (Validation.postal_code r) /\
  Validation.f_model_year data = Validation.FOk (Validation.model_year r) /\
  Validation.f_make data = Validation.FOk (Validation.make r) /\
  Validation.f_model data = Validation.FOk (Validation.model r) /\
  Validation.f_electric_vehicle_type data =
    Validation.FOk (Validation.electric_vehicle_type r) /\
  Validation.f_cafv_eligibility data = Validation.FOk (Validation.cafv_eligibility r) /\
  Validation.f_electric_range data = Validation.FOk (Validation.electric_range r) /\
  Validation.f_base_msrp data = Validation.FOk (Validation.base_msrp r) /\
  Validation.f_legislative_district data =
    Validation.FOk (Validation.legislative_district r) /\
  Validation.f_dol_vehicle_id data = Validation.FOk (Validation.dol_vehicle_id r) /\
  Validation.f_vehicle_location data = Validation.FOk (Validation.vehicle_location r) /\
  Validation.f_electric_utility data = Validation.FOk (Validation.electric_utility r) /\
  Validation.f_census_tract_2020 data = Validation.FOk (Validation.census_tract_2020 r).

(** ** The answers of the query operations, continued *)

(** The summary of a store without documents. *)
Definition empty_summary : ApiModels.SummaryResponse :=
  {| ApiModels.total_vehicles := 0;
     ApiModels.vehicles_by_type := [];
     ApiModels.top_10_makes := [];
     ApiModels.average_electric_range := PyFloat.zero;
     ApiModels.eligibility_summary := [] |}.

(** The number of stored vehicles of a make. *)
Definition vehicles_of_make (k : string) (docs : list Mongo.Document) : Z :=
  Mongo.count (filter (fun d => String.eqb (Validation.make d) k) docs).

(** A request grouping on [vehicle_type] without filters. *)
Definition by_vehicle_type_request : ApiModels.AnalyzeRequest :=
  {| ApiModels.filters := no_filters; ApiModels.group_by := ApiModels.by_vehicle_type |}.

(** The counts of a trend point, read off the grouped document it was
    built from. *)
Definition counted_trend (doc : Z * list Mongo.Document) (t : ApiModels.YearTrend) : Prop :=
  ApiModels.yt_model_year t = fst doc /\
  ApiModels.vehicle_count t = Mongo.count (snd doc) /\
  ApiModels.bev_count t =
    Mongo.count (filter (fun d => Mongo.regex_match (Validation.electric_vehicle_type d) "BEV")
                        (snd doc)) /\
  ApiModels.phev_count t =
    Mongo.count (filter (fun d => Mongo.regex_match (Validation.electric_vehicle_type d) "PHEV")
                        (snd doc)).

(** A store of records as validation leaves them: model year within the
    declared bounds, vehicle type settled. *)
Definition validated_store (docs : list Mongo.Document) : Prop :=
  Forall (fun d => 1997 <= Validation.model_year d <= 2026 /\
                   settled_type (Validation.electric_vehicle_type d)) docs.

(** ** The county listing, page by page *)



(** The least number of pages of [page_size] that hold [total] items. *)
Definition pages_needed (total page_size : Z) : Z := (total + page_size - 1) / page_size.

(** The order a listing was asked in. *)
Definition in_order (sort_by : Routes.SortField) (sort_order : Routes.SortOrder)
           (x y : Mongo.Document) : Prop :=
  match sort_order with
  | Routes.asc => Routes.field_le sort_by x y = true
  | Routes.desc => Routes.field_le sort_by y x = true
  end.

(** ** The filters of an analyze request *)

Definition drop_empty {A} (o : option (list A)) : option (list A) :=
  match o with
  | Some [] => None
  | _ => o
  end.

(** The filters with every falsy one (an empty list, an empty dictionary,
    the number 0) left out. *)
Definition drop_falsy (f : ApiModels.AnalyzeFilters) : ApiModels.AnalyzeFilters :=
  {| ApiModels.makes := drop_empty (ApiModels.makes f);
     ApiModels.model_years := drop_empty (ApiModels.model_years f);
     ApiModels.min_electric_range :=
       match ApiModels.min_electric_range f with
       | Some 0 => None
       | o => o
       end;
     ApiModels.counties := drop_empty (ApiModels.counties f);
     ApiModels.vehicle_types := drop_empty (ApiModels.vehicle_types f) |}.

(** The filters with every listed make, county and vehicle type in upper
    case. *)
Definition upper_filters (f : ApiModels.AnalyzeFilters) : ApiModels.AnalyzeFilters :=
  {| ApiModels.makes := option_map (map PyStr.upper) (ApiModels.makes f);
     ApiModels.model_years := ApiModels.model_years f;
     ApiModels.min_electric_range := ApiModels.min_electric_range f;
     ApiModels.counties := option_map (map PyStr.upper) (ApiModels.counties f);
     ApiModels.vehicle_types := option_map (map PyStr.upper) (ApiModels.vehicle_types f) |}.

(** A request for the years 2025 down to 2020, an empty range. *)
Definition backwards_years : ApiModels.AnalyzeFilters :=
  {| ApiModels.makes := None;
     ApiModels.model_years := Some [("start", 2025); ("end", 2020)];
     ApiModels.min_electric_range := None;
     ApiModels.counties := None;
     ApiModels.vehicle_types := None |}.

(** The first page of size 1 of the county KING in the small store, by
    descending model year. *)
Definition king_first_page : ApiModels.CountyVehiclesResponse :=
  {| ApiModels.cvr_county := "KING";
     ApiModels.total_count := 2;
     ApiModels.page := 1;
     ApiModels.page_size := 1;
     ApiModels.total_pages := 2;
     ApiModels.vehicles := [vehicle "KING" "TESLA" "MODEL 3" 2024 358 Validation.BEV_LABEL] |}.

(** ** Binary64: rounding a quotient *)

(** The location of the discarded part after one more bit of the
    mantissa [m] is shifted out. *)
Definition loc_shift (m : Z) (l : location) : location :=
  match Z.even m, l with
  | true, loc_Exact => loc_Exact
  | true, _ => loc_Inexact Lt
  | false, loc_Exact => loc_Inexact Eq
  | false, _ => loc_Inexact Gt
  end.

(** A mantissa [q] of 53 or 54 bits rounded to 53 bits, scaled back to
    the exponent of [q]. *)
Definition rounded53 (q : Z) (l : location) : Z :=
  if q <? 2 ^ 53 then round_nearest_even q l
  else 2 * round_nearest_even (q / 2) (loc_shift q l).

(** ** The results of [transform] *)

(** The record a row yields, when its normalized form is valid. *)
Definition valid_of (r : Etl.Row) : list Validation.VehicleRecord :=
  match Validation.validate (Etl.normalize_row r) with
  | Validation.Valid v => [v]
  | _ => []
  end.

(** The error entry of the row at position [idx], when its normalized
    form is rejected. *)
Definition error_of (idx : Z) (r : Etl.Row) : list Validation.ValidationErrorEntry :=
  match Validation.validate (Etl.normalize_row r) with
  | Validation.Invalid errs =>
      [{| Validation.record_index := idx;
          Validation.vin := Etl.get_vin (Etl.normalize_row r);
          Validation.error := errs |}]
  | _ => []
  end.

(** The error entries of the rows of a frame, the first row at position
    [idx]. *)
Fixpoint errors_from (idx : Z) (df : Etl.DataFrame) : list Validation.ValidationErrorEntry :=
  match df with
  | [] => []
  | r :: t => error_of idx r ++ errors_from (idx + 1) t
  end.

(** The value is an infinity once read as a number: an infinite float,
    text such as "inf" or "1e999", or an integer past the range of a
    double. *)
Definition overflows (v : PyVal) : Prop :=
  match v with
  | VNone => False
  | VInt z => PyFloat.is_inf (PyFloat.of_Z z) = true
  | VFloat f => PyFloat.is_inf f = true
  | VStr s => exists sign, PyFloat.of_string s = Ret (S754_infinity sign)
  end.

(** One of the two numeric fields of the record overflows. *)
Definition numeric_overflow (data : PyDict) : Prop :=
  exists v, (lookup "electric_range" data = Some v \/ lookup "base_msrp" data = Some v) /\
            overflows v.

(** A row whose electric range is infinite. *)
Definition infinite_range_row : Etl.Row := [
  ("VIN (1-10)", VStr "5YJSA1E26K"); ("County", VStr "King"); ("City", VStr "Seattle");
  ("Model Year", VInt 2023); ("Make", VStr "TESLA"); ("Model", VStr "MODEL S");
  ("Electric Vehicle Type", VStr "Battery Electric Vehicle (BEV)");
  ("Clean Alternative Fuel Vehicle (CAFV) Eligibility", VStr "Eligible");
  ("Electric Range", VStr "inf"); ("DOL Vehicle ID", VInt 12345)
].

(** ** Loading *)

(** The state after further calls on the outside world. *)
Definition after (s : Pipeline.State) (calls : list Pipeline.Effect) : Pipeline.State :=
  {| Pipeline.manager := Pipeline.manager s;
     Pipeline.effects := Pipeline.effects s ++ calls |}.

(** A world in which no call fails, with one local file. *)
Definition calm_world (path : string) (df : Etl.DataFrame) : Pipeline.World :=
  {| Pipeline.ping_error := None;
     Pipeline.drop_error := None;
     Pipeline.insert_error := fun _ => None;
     Pipeline.index_error := fun _ => None;
     Pipeline.local_file :=
       fun p => if String.eqb p path then Some (Pipeline.Done df) else None;
     Pipeline.s3_object := fun _ _ => Pipeline.Failed (Pipeline.External "ClientError") |}.

Definition local_settings (path : string) : Pipeline.Settings :=
  {| Pipeline.csv_source := "local";
     Pipeline.csv_local_path := path;
     Pipeline.csv_s3_bucket := "";
     Pipeline.csv_s3_key := "" |}.

(** A manager that has not connected yet, and no call made. *)
Definition fresh : Pipeline.State :=
  {| Pipeline.manager := {| Pipeline.client := false; Pipeline.db := false |};
     Pipeline.effects := [] |}.

(** A connected manager, and no call made. *)
Definition connected : Pipeline.State :=
  {| Pipeline.manager := {| Pipeline.client := true; Pipeline.db := true |};
     Pipeline.effects := [] |}.

(** The calls that insert something. *)
Definition is_insert (ef : Pipeline.Effect) : bool :=
  match ef with
  | Pipeline.InsertMany _ => true
  | _ => false
  end.

(** The state [s'] comes after [s]: the calls of [s] followed by
    [calls], a client once set still set, a database once set still
    set. *)
Definition follows (s s' : Pipeline.State) (calls : list Pipeline.Effect) : Prop :=
  Pipeline.effects s' = Pipeline.effects s ++ calls /\
  (Pipeline.client (Pipeline.manager s) = true ->
   Pipeline.client (Pipeline.manager s') = true) /\
  (Pipeline.db (Pipeline.manager s) = true -> Pipeline.db (Pipeline.manager s') = true).

(** A world in which no call fails, and no file exists. *)
Definition empty_disk : Pipeline.World :=
  {| Pipeline.ping_error := None;
     Pipeline.drop_error := None;
     Pipeline.insert_error := fun _ => None;
     Pipeline.index_error := fun _ => None;
     Pipeline.local_file := fun _ => None;
     Pipeline.s3_object := fun _ _ => Pipeline.Failed (Pipeline.External "ClientError") |}.

(** The state of a run that began in [s]: client and database set, the
    calls of [s] followed by [calls]. *)
Definition ran (s : Pipeline.State) (calls : list Pipeline.Effect) : Pipeline.State :=
  {| Pipeline.manager := {| Pipeline.client := true; Pipeline.db := true |};
     Pipeline.effects := Pipeline.effects s ++ calls |}.

(** A computation that only adds calls and never unsets the client or
    the database. *)
Definition grows {A} (m : Pipeline.M A) : Prop :=
  forall s res s', m s = (res, s') -> exists calls, follows s s' calls.

(** ** Proof steps *)

(** Closes a goal [In x l] where [x] is syntactically a member of [l]. *)
Ltac pick_member := repeat first [left; reflexivity | right].

(* ================================================================== *)
(** * Properties *)
(* ================================================================== *)

(** ** Text *)

Lemma upper_char_idempotent (c : ascii) :
  PyStr.upper_char (PyStr.upper_char c) = PyStr.upper_char c.
Proof. destruct c as [[] [] [] [] [] [] [] []]; reflexivity. Qed.

Lemma upper_idempotent (s : string) : PyStr.upper (PyStr.upper s) = PyStr.upper s.
Proof.
  induction s as [|c t IH]; simpl.
  - reflexivity.
  - now rewrite upper_char_idempotent, IH.
Qed.

(** ** Exceptions of the numeric coercion *)

Lemma of_string_raises (s : string) (e : PyExn) :
  PyFloat.of_string s = Raise e -> e = ValueError.
Proof.
  unfold PyFloat.of_string.
  destruct (PyFloat.take_sign (PyStr.strip s)) as [neg body].
  destruct (_ || _); [discriminate|].
  destruct (String.eqb _ _); [discriminate|].
  destruct (PyFloat.digitpart 0 body) as [[ip ni] r1].
  destruct (PyFloat.fraction ip r1) as [[m nf] r2].
  destruct (ni + nf =? 0); [congruence|].
  destruct (PyFloat.exponent r2) as [[ex [|c t]]|]; congruence.
Qed.

Lemma of_int_raises (z : Z) (e : PyExn) :
  PyFloat.of_int z = Raise e -> e = OverflowError.
Proof. unfold PyFloat.of_int. destruct (PyFloat.is_inf _); congruence. Qed.

Lemma to_int_raises (f : spec_float) (e : PyExn) :
  PyFloat.to_int f = Raise e -> e = ValueError \/ e = OverflowError.
Proof. destruct f; simpl; intros H; inversion H; auto. Qed.

Lemma int_of_float_raises (v : PyVal) (e : PyExn) :
  (f <- py_float v ;; PyFloat.to_int f) = Raise e ->
  e = ValueError \/ e = TypeError \/ e = OverflowError.
Proof.
  destruct v as [|z|f|s]; simpl.
  - intros H; inversion H; auto.
  - destruct (PyFloat.of_int z) eqn:E; simpl.
    + intros H; apply to_int_raises in H; tauto.
    + intros H; inversion H; subst. apply of_int_raises in E. auto.
  - intros H; apply to_int_raises in H; tauto.
  - destruct (PyFloat.of_string s) eqn:E; simpl.
    + intros H; apply to_int_raises in H; tauto.
    + intros H; inversion H; subst. apply of_string_raises in E. auto.
Qed.

Lemma handle_numeric_na_raises (v : PyVal) (e : PyExn) :
  Validation.handle_numeric_na v = Raise e -> e = OverflowError.
Proof.
  unfold Validation.handle_numeric_na.
  destruct (Validation.is_na_sentinel v); [discriminate|].
  destruct (f <- py_float v ;; PyFloat.to_int f) as [z|e'] eqn:E; [discriminate|].
  apply int_of_float_raises in E.
  destruct e'; try discriminate; intros H; inversion H; subst;
    try reflexivity; destruct E as [E|[E|E]]; discriminate E.
Qed.

Lemma handle_numeric_na_unparsable (s : string) (e : PyExn) :
  PyFloat.of_string s = Raise e -> Validation.handle_numeric_na (VStr s) = Ret 0.
Proof.
  intros H. pose proof (of_string_raises _ _ H) as ->.
  unfold Validation.handle_numeric_na.
  destruct (Validation.is_na_sentinel (VStr s)); [reflexivity|].
  simpl. rewrite H. reflexivity.
Qed.

(** ** The structure of [validate] *)

Section ValidateFacts.
Import Validation.

Lemma In_status_at l f st :
  NoDup (map fst l) -> In (f, st) l -> status_at f l = Some st.
Proof.
  induction l as [|[n s] t IH]; simpl; [tauto|].
  intros Hnd [Heq|Hin].
  - inversion Heq; subst. now rewrite String.eqb_refl.
  - inversion Hnd as [|? ? Hn Hnd']; subst.
    destruct (String.eqb n f) eqn:E.
    + apply String.eqb_eq in E; subst.
      exfalso; apply Hn. change f with (fst (f, st)). now apply in_map.
    + auto.
Qed.

Lemma field_names_distinct data : NoDup (map fst (field_status data)).
Proof.
  unfold field_status; simpl.
  repeat (constructor;
          [simpl; intros H; repeat (destruct H as [H|H]; [discriminate H|]); exact H|]).
  constructor.
Qed.

Lemma In_errors_of data (d : ErrorDetail) :
  In d (errors_of data) <-> In (loc d, FErr (type d)) (field_status data).
Proof.
  unfold errors_of. rewrite in_flat_map. split.
  - intros [[n st] [Hin Hd]]. destruct st as [u|t|e]; simpl in Hd; try tauto.
    destruct Hd as [<-|[]]. exact Hin.
  - intros Hin. eexists; split; [exact Hin|]. destruct d; simpl; auto.
Qed.

Lemma In_escaping data (e : PyExn) :
  In e (escaping data) <-> exists n, In (n, FRaise e) (field_status data).
Proof.
  unfold escaping. rewrite in_flat_map. split.
  - intros [[n st] [Hin He]]. destruct st as [u|t|e']; simpl in He; try tauto.
    destruct He as [<-|[]]. eauto.
  - intros [n Hin]. eexists; split; [exact Hin|]. simpl; auto.
Qed.

Lemma status_FRaise {A} (x : FieldRes A) e : status x = FRaise e -> x = FRaise e.
Proof. destruct x; simpl; congruence. Qed.

Lemma status_FErr {A} (x : FieldRes A) t : status x = FErr t -> x = FErr t.
Proof. destruct x; simpl; congruence. Qed.

Lemma check_str_no_raise v e : check_str v <> FRaise e.
Proof. destruct v; simpl; congruence. Qed.

Lemma check_opt_str_no_raise v e : check_opt_str v <> FRaise e.
Proof. destruct v; simpl; congruence. Qed.

Lemma check_bounds_no_raise ge le z e : check_bounds ge le z <> FRaise e.
Proof.
  unfold check_bounds.
  destruct ge as [lo|], le as [hi|];
    repeat match goal with |- context [if ?c then _ else _] => destruct c end;
    congruence.
Qed.

Lemma check_int_no_raise v e : check_int v <> FRaise e.
Proof.
  destruct v as [|z|f|s]; simpl; try congruence.
  - destruct f; try congruence. destruct (_ || _); congruence.
  - destruct (int_of_string s); congruence.
Qed.

Lemma check_model_year_no_raise v e : check_model_year v <> FRaise e.
Proof.
  unfold check_model_year, bindF. destruct (check_int v) eqn:E; try congruence.
  - apply check_bounds_no_raise.
  - intros H; inversion H; subst. now apply check_int_no_raise in E.
Qed.

Lemma check_normalized_no_raise v e : check_normalized v <> FRaise e.
Proof. apply check_str_no_raise. Qed.

Lemma check_ev_type_no_raise v e : check_ev_type v <> FRaise e.
Proof.
  unfold check_ev_type, mapF. destruct (check_str (normalize_strings v)) eqn:E; simpl; try congruence.
  intros H; inversion H; subst. now apply check_str_no_raise in E.
Qed.

Lemma check_numeric_na_raises v e : check_numeric_na v = FRaise e -> e = OverflowError.
Proof.
  unfold check_numeric_na. destruct (handle_numeric_na v) as [z|e'] eqn:E.
  - cbn [check_int bindF]. intros H. now apply check_bounds_no_raise in H.
  - intros H; inversion H; subst. now apply handle_numeric_na_raises in E.
Qed.

Lemma required_raises {A} (chk : PyVal -> FieldRes A) n data e :
  required chk n data = FRaise e -> exists v, chk v = FRaise e.
Proof. unfold required. destruct (lookup n data); [eauto|discriminate]. Qed.

Lemma with_default_raises {A} (chk : PyVal -> FieldRes A) d n data e :
  with_default chk d n data = FRaise e -> exists v, chk v = FRaise e.
Proof. unfold with_default. destruct (lookup n data); [eauto|discriminate]. Qed.

(** Only [OverflowError] escapes from the construction of a record. *)
Lemma escaping_overflow data e : In e (escaping data) -> e = OverflowError.
Proof.
  rewrite In_escaping. intros [n Hin].
  unfold field_status in Hin; simpl in Hin.
  repeat (destruct Hin as [Hin|Hin];
    [ inversion Hin as [[Hn Hs]]; clear Hin; apply status_FRaise in Hs;
      first [ apply required_raises in Hs | apply with_default_raises in Hs ];
      destruct Hs as [v Hv];
      first [ now apply check_numeric_na_raises in Hv
            | exfalso; revert Hv;
              first [ apply check_str_no_raise | apply check_opt_str_no_raise
                    | apply check_model_year_no_raise | apply check_normalized_no_raise
                    | apply check_ev_type_no_raise ] ]
    | ]).
  destruct Hin.
Qed.

Lemma validate_cases data :
  (exists e, validate data = Raised e /\ e = OverflowError) \/
  (escaping data = [] /\ errors_of data = [] /\ validate data = Valid (build data)) \/
  (escaping data = [] /\ errors_of data <> [] /\ validate data = Invalid (errors_of data)).
Proof.
  unfold validate.
  destruct (escaping data) as [|e t] eqn:E.
  - right. destruct (errors_of data) eqn:E'.
    + left; auto.
    + right; repeat split; congruence.
  - left. exists e; split; [reflexivity|].
    apply (escaping_overflow data). rewrite E. now left.
Qed.

End ValidateFacts.

Lemma check_ev_type_text (s : string) :
  let v := PyStr.upper (PyStr.strip s) in
  Validation.check_ev_type (VStr s) =
    Validation.FOk
      (if PyStr.mem v Validation.valid_types then v
       else if PyStr.contains "BEV" v then Validation.BEV_LABEL
       else if PyStr.contains "PHEV" v then Validation.PHEV_LABEL
       else v).
Proof.
  intros v. unfold Validation.check_ev_type, Validation.mapF, Validation.bindF.
  cbn [Validation.normalize_strings Validation.check_str]. fold v.
  unfold Validation.validate_ev_type.
  assert (Hv : PyStr.upper v = v) by apply upper_idempotent.
  rewrite Hv. destruct (PyStr.mem v Validation.valid_types); reflexivity.
Qed.

(** The errors of an invalid record are exactly the failed fields. *)
Lemma invalid_errors (data : PyDict) (errs : list Validation.ErrorDetail) (f : string) :
  Validation.validate data = Validation.Invalid errs ->
  In f (map Validation.loc errs) ->
  exists t, status_at f (Validation.field_status data) = Some (Validation.FErr t).
Proof.
  intros Hv Hin.
  destruct (validate_cases data) as [[e [H _]]|[[_ [_ H]]|[_ [_ H]]]];
    rewrite H in Hv; inversion Hv; subst.
  apply in_map_iff in Hin. destruct Hin as [d [Hloc Hd]].
  apply In_errors_of in Hd. rewrite Hloc in Hd.
  apply In_status_at in Hd; [|apply field_names_distinct]. eauto.
Qed.

(** ** Binary64 facts: a quotient of bounded integers is finite *)

Lemma digits2_bound (p : positive) : forall k,
  0 <= k -> Zpos p < 2 ^ k -> Zpos (digits2_pos p) <= k.
Proof.
  induction p as [p IH|p IH|]; intros k Hk Hp; simpl.
  - assert (Hk1 : 1 <= k).
    { destruct (Z.eq_dec k 0) as [->|]; [simpl in Hp; lia|lia]. }
    replace k with (Z.succ (k - 1)) in Hp by lia.
    rewrite Z.pow_succ_r in Hp by lia.
    specialize (IH (k - 1) ltac:(lia) ltac:(lia)). lia.
  - assert (Hk1 : 1 <= k).
    { destruct (Z.eq_dec k 0) as [->|]; [simpl in Hp; lia|lia]. }
    replace k with (Z.succ (k - 1)) in Hp by lia.
    rewrite Z.pow_succ_r in Hp by lia.
    specialize (IH (k - 1) ltac:(lia) ltac:(lia)). lia.
  - destruct (Z.eq_dec k 0) as [->|]; [simpl in Hp; lia|lia].
Qed.

Lemma Zdigits2_bound (m k : Z) : 0 <= m -> 0 <= k -> m < 2 ^ k -> Zdigits2 m <= k.
Proof.
  intros Hm Hk Hlt. destruct m as [|p|p]; simpl; [lia| |lia].
  now apply digits2_bound.
Qed.

Lemma shr_1_m (mrs : shr_record) :
  0 <= shr_m mrs -> shr_m (shr_1 mrs) = shr_m mrs / 2.
Proof.
  destruct mrs as [m r s]. cbn [shr_m]. intros Hm. unfold shr_1.
  destruct m as [|[p|p|]|p]; cbn [shr_m]; try lia.
  - reflexivity.
  - apply Z.div_unique with (r := 1); [lia|]. rewrite Pos2Z.inj_xI. lia.
  - apply Z.div_unique with (r := 0); [lia|]. rewrite Pos2Z.inj_xO. lia.
  - reflexivity.
Qed.

Lemma pow2_xO (p : positive) : 2 ^ Zpos p~0 = 2 ^ Zpos p * 2 ^ Zpos p.
Proof. rewrite <- Z.pow_add_r by lia. f_equal. lia. Qed.

Lemma pow2_xI (p : positive) : 2 ^ Zpos p~1 = 2 * (2 ^ Zpos p * 2 ^ Zpos p).
Proof.
  replace (Zpos p~1) with (Z.succ (Zpos p + Zpos p)) by lia.
  rewrite Z.pow_succ_r by lia. now rewrite Z.pow_add_r by lia.
Qed.

Lemma iter_shr_1_m (p : positive) : forall mrs,
  0 <= shr_m mrs -> shr_m (iter_pos shr_1 p mrs) = shr_m mrs / 2 ^ Zpos p.
Proof.
  assert (Hnn : forall mrs, 0 <= shr_m mrs -> 0 <= shr_m (shr_1 mrs)).
  { intros mrs H. rewrite shr_1_m by exact H. apply Z.div_pos; lia. }
  assert (Hpow : forall q, 0 < 2 ^ Zpos q) by (intros q; apply Z.pow_pos_nonneg; lia).
  induction p as [p IH|p IH|]; intros mrs Hm; cbn [iter_pos].
  - assert (H1 : 0 <= shr_m (iter_pos shr_1 p (shr_1 mrs))).
    { rewrite IH by now apply Hnn. apply Z.div_pos; [now apply Hnn|apply Hpow]. }
    rewrite IH by exact H1. rewrite IH by now apply Hnn. rewrite shr_1_m by exact Hm.
    pose proof (Hpow p).
    rewrite !Z.div_div by lia. f_equal. rewrite pow2_xI. ring.
  - assert (H1 : 0 <= shr_m (iter_pos shr_1 p mrs)).
    { rewrite IH by exact Hm. apply Z.div_pos; [exact Hm|apply Hpow]. }
    rewrite IH by exact H1. rewrite IH by exact Hm.
    pose proof (Hpow p).
    rewrite Z.div_div by lia. f_equal. now rewrite pow2_xO.
  - rewrite shr_1_m by exact Hm. reflexivity.
Qed.

Lemma shr_record_of_loc_m (m : Z) (l : location) : shr_m (shr_record_of_loc m l) = m.
Proof. destruct l as [|[]]; reflexivity. Qed.

(** The first component of [shr_fexp] is the mantissa cut to the exponent
    of the format. *)
Lemma shr_fexp_spec (m e : Z) (l : location) :
  0 <= m ->
  let e1 := Z.max e (fexp PyFloat.prec PyFloat.emax (Zdigits2 m + e)) in
  shr_m (fst (shr_fexp PyFloat.prec PyFloat.emax m e l)) = m / 2 ^ (e1 - e) /\
  snd (shr_fexp PyFloat.prec PyFloat.emax m e l) = e1.
Proof.
  intros Hm e1. unfold shr_fexp, shr.
  set (n := fexp PyFloat.prec PyFloat.emax (Zdigits2 m + e) - e) in *.
  assert (He1 : e1 - e = Z.max 0 n) by (unfold e1, n; lia).
  rewrite He1. destruct n as [|p|p] eqn:En; simpl fst; simpl snd.
  - rewrite shr_record_of_loc_m. simpl. rewrite Z.div_1_r. split; [reflexivity|lia].
  - rewrite iter_shr_1_m by (rewrite shr_record_of_loc_m; exact Hm).
    rewrite shr_record_of_loc_m. split; [reflexivity|lia].
  - rewrite shr_record_of_loc_m. simpl. rewrite Z.div_1_r. split; [reflexivity|lia].
Qed.

Lemma round_nearest_even_bound (m : Z) (l : location) :
  0 <= m -> 0 <= round_nearest_even m l <= m + 1.
Proof.
  intros Hm. unfold round_nearest_even.
  destruct l as [|[]]; try destruct (Z.even m); lia.
Qed.

Lemma fexp_le (x : Z) : x <= 1024 -> fexp PyFloat.prec PyFloat.emax x <= 971.
Proof. unfold fexp, emin, PyFloat.prec, PyFloat.emax. lia. Qed.

Lemma fexp_le' (x : Z) : x <= 1023 -> fexp PyFloat.prec PyFloat.emax x <= 970.
Proof. unfold fexp, emin, PyFloat.prec, PyFloat.emax. lia. Qed.

Lemma binary_round_aux_finite (sx : bool) (mx ex : Z) (lx : location) :
  0 <= mx -> ex <= 0 -> mx < 2 ^ (1023 - ex) ->
  finite_or_zero (binary_round_aux PyFloat.prec PyFloat.emax sx mx ex lx).
Proof.
  intros Hm Hex Hlt. unfold binary_round_aux.
  destruct (shr_fexp_spec mx ex lx Hm) as [Hm1 He1].
  destruct (shr_fexp PyFloat.prec PyFloat.emax mx ex lx) as [mrs1 e1].
  simpl fst in Hm1; simpl snd in He1. rewrite <- He1 in Hm1.
  set (m2 := round_nearest_even (shr_m mrs1) (loc_of_shr_record mrs1)).
  assert (Hd : Zdigits2 mx + ex <= 1023).
  { assert (Zdigits2 mx <= 1023 - ex) by (apply Zdigits2_bound; lia). lia. }
  assert (He1b : ex <= e1 <= 970).
  { pose proof (fexp_le' _ Hd). lia. }
  assert (Hm1b : 0 <= shr_m mrs1 < 2 ^ (1023 - e1)).
  { rewrite Hm1. split.
    - apply Z.div_pos; [exact Hm|apply Z.pow_pos_nonneg; lia].
    - apply Z.div_lt_upper_bound; [apply Z.pow_pos_nonneg; lia|].
      rewrite <- Z.pow_add_r by lia.
      replace (e1 - ex + (1023 - e1)) with (1023 - ex) by lia. exact Hlt. }
  assert (Hm2 : 0 <= m2 <= shr_m mrs1 + 1) by (apply round_nearest_even_bound; lia).
  destruct (shr_fexp_spec m2 e1 loc_Exact (proj1 Hm2)) as [Hm3 He2].
  destruct (shr_fexp PyFloat.prec PyFloat.emax m2 e1 loc_Exact) as [mrs2 e2].
  simpl fst in Hm3; simpl snd in He2. rewrite <- He2 in Hm3.
  assert (Hd2 : Zdigits2 m2 + e1 <= 1024).
  { assert (Zdigits2 m2 <= 1024 - e1).
    { apply Zdigits2_bound; [lia|lia|].
      replace (1024 - e1) with (Z.succ (1023 - e1)) by lia.
      rewrite Z.pow_succ_r by lia. lia. }
    lia. }
  assert (He2b : e2 <= 971) by (pose proof (fexp_le _ Hd2); lia).
  assert (Hm3b : 0 <= shr_m mrs2).
  { rewrite Hm3. apply Z.div_pos; [lia|apply Z.pow_pos_nonneg; lia]. }
  destruct (shr_m mrs2) as [|p|p]; [exact I| |lia].
  replace (PyFloat.emax - PyFloat.prec) with 971 by reflexivity.
  apply Z.leb_le in He2b. rewrite He2b. exact I.
Qed.

Lemma SFdiv_core_bound (a b : positive) :
  let '(q, e, _) := SFdiv_core_binary PyFloat.prec PyFloat.emax (Zpos a) 0 (Zpos b) 0 in
  0 <= q /\ e <= 0 /\ q <= Zpos a * 2 ^ (- e).
Proof.
  unfold SFdiv_core_binary.
  set (e := Z.min _ _). assert (He : e <= 0) by (unfold e; lia).
  set (s := 0 - 0 - e). assert (Hs : s = - e) by (unfold s; lia).
  set (m' := match s with Zpos _ => Z.shiftl (Zpos a) s | Z0 => Zpos a | Zneg _ => 0 end).
  assert (Hm' : m' = Zpos a * 2 ^ (- e)).
  { unfold m'. rewrite <- Hs. destruct s as [|p|p] eqn:Es.
    - simpl. lia.
    - rewrite Z.shiftl_mul_pow2 by lia. reflexivity.
    - lia. }
  pose proof (Z.div_mod m' (Zpos b) ltac:(lia)) as Hdm.
  pose proof (Z.mod_pos_bound m' (Zpos b) ltac:(lia)) as Hr.
  unfold Z.div, Z.modulo in Hdm, Hr.
  destruct (Z.div_eucl m' (Zpos b)) as [q r].
  assert (Hm'0 : 0 <= m') by (rewrite Hm'; apply Z.mul_nonneg_nonneg; [lia|apply Z.pow_nonneg; lia]).
  split; [nia|]. split; [exact He|]. rewrite <- Hm'. nia.
Qed.

(** The double nearest to a quotient of positive integers below [2^1023]
    is finite. *)
Lemma of_ratio_finite (s : bool) (a b : positive) :
  Zpos a < 2 ^ 1023 -> finite_or_zero (PyFloat.of_ratio s a b).
Proof.
  intros Ha. unfold PyFloat.of_ratio, PyFloat.div, SFdiv.
  pose proof (SFdiv_core_bound a b) as H.
  destruct (SFdiv_core_binary PyFloat.prec PyFloat.emax (Zpos a) 0 (Zpos b) 0) as [[q e] l].
  destruct H as [Hq [He Hle]].
  apply binary_round_aux_finite; [exact Hq|exact He|].
  eapply Z.le_lt_trans; [exact Hle|].
  replace (1023 - e) with (1023 + - e) by lia.
  rewrite Z.pow_add_r by lia.
  apply Z.mul_lt_mono_pos_r; [apply Z.pow_pos_nonneg; lia|exact Ha].
Qed.

Lemma ceil_finite (f : spec_float) : finite_or_zero f -> exists z, PyFloat.ceil f = Ret z.
Proof.
  destruct f as [s|s| |s m e]; simpl; try tauto; intros _; [eauto|].
  destruct (0 <=? e); [eauto|]. destruct s; eauto.
Qed.

(** [math.ceil(a / b)] returns for positive integers below [2^1023]. *)
Lemma ceil_truediv_returns (a b : Z) :
  0 < a < 2 ^ 1023 -> 0 < b ->
  exists z, (q <- PyFloat.int_truediv a b ;; PyFloat.ceil q) = Ret z.
Proof.
  intros Ha Hb. unfold PyFloat.int_truediv.
  destruct b as [|pb|pb]; try lia. destruct a as [|pa|pa]; try lia.
  cbn [Z.abs Z.to_pos Z.ltb Z.compare xorb].
  pose proof (of_ratio_finite false pa pb ltac:(lia)) as Hf.
  destruct (PyFloat.of_ratio false pa pb) as [s|s| |s m e] eqn:E; simpl in Hf; try tauto.
  - simpl. eauto.
  - cbn [PyFloat.is_inf bindR]. apply ceil_finite. exact I.
Qed.

Lemma iter_xO_value (p k : positive) :
  Zpos (Pos.iter xO p k) = Zpos p * 2 ^ Zpos k.
Proof.
  induction k as [|k IH] using Pos.peano_ind.
  - simpl. lia.
  - rewrite Pos.iter_succ, Pos2Z.inj_xO, IH, Pos2Z.inj_succ, Z.pow_succ_r by lia. ring.
Qed.

Lemma iter_xO_digits (p k : positive) :
  Zpos (digits2_pos (Pos.iter xO p k)) = Zpos (digits2_pos p) + Zpos k.
Proof.
  induction k as [|k IH] using Pos.peano_ind.
  - simpl. lia.
  - rewrite Pos.iter_succ. cbn [digits2_pos]. rewrite Pos2Z.inj_succ, IH. lia.
Qed.

Lemma shr_fexp_no_shift (m e : Z) (l : location) :
  fexp PyFloat.prec PyFloat.emax (Zdigits2 m + e) <= e ->
  shr_fexp PyFloat.prec PyFloat.emax m e l = (shr_record_of_loc m l, e).
Proof.
  intros H. unfold shr_fexp, shr.
  destruct (fexp PyFloat.prec PyFloat.emax (Zdigits2 m + e) - e) eqn:E; try reflexivity. lia.
Qed.

(** A mantissa that already sits at the exponent of the format is kept. *)
Lemma binary_round_aux_exact (sx : bool) (m : positive) (e : Z) :
  fexp PyFloat.prec PyFloat.emax (Zpos (digits2_pos m) + e) <= e -> e <= 971 ->
  binary_round_aux PyFloat.prec PyFloat.emax sx (Zpos m) e loc_Exact = S754_finite sx m e.
Proof.
  intros Hc He. unfold binary_round_aux.
  rewrite shr_fexp_no_shift by exact Hc.
  cbn [shr_record_of_loc shr_m loc_of_shr_record round_nearest_even].
  rewrite shr_fexp_no_shift by exact Hc.
  cbn [shr_record_of_loc shr_m].
  replace (PyFloat.emax - PyFloat.prec) with 971 by reflexivity.
  apply Z.leb_le in He. now rewrite He.
Qed.

Lemma binary_round_small (s : bool) (p : positive) :
  Zpos p < 2 ^ 53 ->
  exists m e, binary_round PyFloat.prec PyFloat.emax s p 0 = S754_finite s m e /\
              PyFloat.trunc_mag m e = Zpos p.
Proof.
  intros Hp. unfold binary_round.
  pose proof (digits2_bound p 53 ltac:(lia) Hp) as Hd.
  assert (Hf : fexp PyFloat.prec PyFloat.emax (Zpos (digits2_pos p) + 0) = Zpos (digits2_pos p) - 53).
  { unfold fexp, emin, PyFloat.prec, PyFloat.emax. lia. }
  rewrite Hf. unfold shl_align.
  destruct (Zpos (digits2_pos p) - 53 - 0) as [|k|k] eqn:E; [| lia |].
  - exists p, 0. split.
    + apply binary_round_aux_exact; [rewrite Hf; lia|lia].
    + unfold PyFloat.trunc_mag. change (0 <=? 0) with true. cbn iota.
      rewrite Z.pow_0_r. apply Z.mul_1_r.
  - exists (Pos.iter xO p k), (Zpos (digits2_pos p) - 53). split.
    + apply binary_round_aux_exact; [|lia].
      rewrite iter_xO_digits. unfold fexp, emin, PyFloat.prec, PyFloat.emax. lia.
    + unfold PyFloat.trunc_mag.
      assert (Hneg : (0 <=? Zpos (digits2_pos p) - 53) = false) by (apply Z.leb_gt; lia).
      rewrite Hneg, iter_xO_value.
      replace (- (Zpos (digits2_pos p) - 53)) with (Zpos k) by lia.
      apply Z.div_mul. apply Z.pow_nonzero; lia.
Qed.

(** An integer of magnitude below [2^53] goes through [int(float(v))]
    unchanged. *)
Lemma handle_numeric_na_int (z : Z) :
  Z.abs z < 2 ^ 53 -> Validation.handle_numeric_na (VInt z) = Ret z.
Proof.
  intros Hz. unfold Validation.handle_numeric_na. cbn [Validation.is_na_sentinel py_float].
  unfold PyFloat.of_int, PyFloat.of_Z, binary_normalize.
  destruct z as [|p|p].
  - reflexivity.
  - destruct (binary_round_small false p ltac:(lia)) as [m [e [-> Ht]]].
    cbn [PyFloat.is_inf bindR PyFloat.to_int cond_Zopp]. now rewrite Ht.
  - destruct (binary_round_small true p ltac:(lia)) as [m [e [-> Ht]]].
    cbn [PyFloat.is_inf bindR PyFloat.to_int cond_Zopp]. now rewrite Ht.
Qed.

(** ** The answers of the query operations *)

Lemma Forall2_map_right {A B} (P : A -> B -> Prop) (f : A -> B) (l : list A) :
  (forall x, In x l -> P x (f x)) -> Forall2 P l (map f l).
Proof.
  induction l as [|x t IH]; simpl; intros H; constructor.
  - apply H. now left.
  - apply IH. intros y Hy. apply H. now right.
Qed.

Lemma analyze_ok (docs : list Mongo.Document) (request : ApiModels.AnalyzeRequest)
      (r : ApiModels.AnalyzeResponse) :
  Routes.analyze_vehicles (Mongo.Online docs) request = Routes.Ok r ->
  ApiModels.groups r = map Routes.group_statistics (analyze_results docs request).
Proof.
  unfold Routes.analyze_vehicles. fold (analyze_results docs request).
  destruct (Routes.negative_min_range _); [discriminate|].
  destruct (analyze_results docs request); [discriminate|].
  intros H; inversion H; subst. reflexivity.
Qed.

Lemma round_if_truthy_some (x : option spec_float) (g : spec_float) :
  Routes.round_if_truthy x = Some g -> exists v, x = Some v /\ g = PyFloat.round2 v.
Proof.
  unfold Routes.round_if_truthy. destruct x as [v|]; [|discriminate].
  destruct (PyFloat.truthy v); [|discriminate].
  intros H; inversion H; eauto.
Qed.

Lemma summary_ok (docs : list Mongo.Document) (r : ApiModels.SummaryResponse) :
  Routes.get_summary (Mongo.Online docs) = Routes.Ok r ->
  ApiModels.average_electric_range r =
    match Routes.find [fun d => 0 <? Validation.electric_range d] docs with
    | [] => PyFloat.zero
    | matched => PyFloat.round2 (mean_range matched)
    end.
Proof.
  unfold Routes.get_summary. intros H; inversion H; subst; clear H.
  cbn [ApiModels.average_electric_range].
  destruct (Routes.find _ docs); reflexivity.
Qed.

Lemma make_models_ok (docs : list Mongo.Document) (make_param : string)
      (r : ApiModels.MakeModelsResponse) :
  Routes.get_models_by_make (Mongo.Online docs) make_param = Routes.Ok r ->
  ApiModels.models r =
    map (fun doc =>
           {| ApiModels.ms_model := fst doc;
              ApiModels.ms_count := Mongo.count (snd doc);
              ApiModels.ms_average_electric_range := PyFloat.round2 (mean_range (snd doc)) |})
        (make_results docs make_param).
Proof.
  unfold Routes.get_models_by_make. fold (make_results docs make_param).
  destruct (make_results docs make_param) eqn:E; [discriminate|].
  intros H; inversion H; subst. reflexivity.
Qed.

Lemma year_trend_rounded (doc : Z * list Mongo.Document) (t : ApiModels.YearTrend) :
  Routes.year_trend doc = Ret t -> rounded_trend doc t.
Proof.
  unfold Routes.year_trend.
  destruct (Routes.percentage _ _) as [b|] eqn:Eb; [|discriminate]. cbn [bindR].
  destruct (Routes.percentage (Mongo.count (filter (fun d => Mongo.regex_match _ "PHEV") _)) _)
    as [p|] eqn:Ep; [|discriminate]. cbn [bindR].
  intros H; inversion H; subst; clear H.
  unfold rounded_trend; cbn. repeat split; eauto.
Qed.

Lemma year_trends_rounded (results : list (Z * list Mongo.Document)) :
  forall ts, Routes.year_trends results = Ret ts -> Forall2 rounded_trend results ts.
Proof.
  induction results as [|doc rest IH]; simpl; intros ts H.
  - inversion H. constructor.
  - destruct (Routes.year_trend doc) as [t|] eqn:Et; [|discriminate]. cbn [bindR] in H.
    destruct (Routes.year_trends rest) as [ts'|]; [|discriminate]. cbn [bindR] in H.
    inversion H; subst. constructor; [now apply year_trend_rounded|now apply IH].
Qed.

Lemma trends_ok (docs : list Mongo.Document) (r : ApiModels.TrendsResponse) :
  Routes.get_trends (Mongo.Online docs) = Routes.Ok r ->
  Routes.year_trends (trend_results docs) = Ret (ApiModels.trends r) /\
  exists rates,
    Routes.growth_rates (ApiModels.trends r) = Ret rates /\
    ApiModels.overall_growth_rate r = Routes.round_if_truthy (fst rates) /\
    ApiModels.range_improvement_rate r = Routes.round_if_truthy (snd rates).
Proof.
  unfold Routes.get_trends. fold (trend_results docs).
  destruct (trend_results docs) as [|doc rest] eqn:E; [discriminate|].
  destruct (Routes.year_trends (doc :: rest)) as [ts|]; [|discriminate]. cbn [bindR].
  destruct (Routes.growth_rates ts) as [rates|] eqn:Er; [|discriminate]. cbn [bindR Routes.guard].
  intros H; inversion H; subst; clear H. cbn. split; [reflexivity|].
  exists rates. auto.
Qed.

(** ** C1: required text fields *)

(** C1, as stated, fails: the normalized record of a row whose county
    cell is blank passes validation, with the empty county. *)
Lemma C1_counterexample :
  In "county" required_text_fields /\
  lookup "county" blank_county = Some (VStr "   ") /\
  missing_or_blank "county" blank_county /\
  (exists r, Validation.validate blank_county = Validation.Valid r /\
             Validation.county r = "") /\
  ~ fails_naming "county" (Validation.validate blank_county).
Proof.
  split; [simpl; tauto|]. split; [reflexivity|]. split; [reflexivity|]. split.
  - eexists. split; [vm_compute; reflexivity|reflexivity].
  - vm_compute. tauto.
Qed.

Lemma required_not_text {A} (chk : PyVal -> Validation.FieldRes A) f data :
  (forall v, (forall s, v <> VStr s) -> exists t, chk v = Validation.FErr t) ->
  not_text f data ->
  exists t, Validation.status (Validation.required chk f data) = Validation.FErr t.
Proof.
  unfold not_text, Validation.required. intros Hchk Hnt.
  destruct (lookup f data) as [v|]; [|simpl; eauto].
  destruct (Hchk v) as [t Ht].
  - intros s ->. exact Hnt.
  - rewrite Ht. simpl. eauto.
Qed.

Lemma check_str_not_text v :
  (forall s, v <> VStr s) -> exists t, Validation.check_str v = Validation.FErr t.
Proof.
  intros H. destruct v as [|z|f|s0]; try (eexists; reflexivity). now destruct (H s0).
Qed.

Lemma check_normalized_not_text v :
  (forall s, v <> VStr s) -> exists t, Validation.check_normalized v = Validation.FErr t.
Proof.
  intros H. destruct v as [|z|f|s0]; try (eexists; reflexivity). now destruct (H s0).
Qed.

Lemma check_ev_type_not_text v :
  (forall s, v <> VStr s) -> exists t, Validation.check_ev_type v = Validation.FErr t.
Proof.
  intros H. destruct v as [|z|f|s0]; try (eexists; reflexivity). now destruct (H s0).
Qed.

(** A required text field that is absent or not text is reported. *)
Lemma required_text_reported (f : string) (data : PyDict) :
  In f required_text_fields -> not_text f data ->
  exists t, In {| Validation.loc := f; Validation.type := t |} (Validation.errors_of data).
Proof.
  intros Hf Hnt.
  assert (H : exists t, In (f, Validation.FErr t) (Validation.field_status data)).
  { unfold required_text_fields in Hf. simpl in Hf.
    destruct Hf as [<-|[<-|[<-|[<-|[<-|[<-|[<-|[<-|[]]]]]]]]];
      [ destruct (required_not_text Validation.check_str _ data check_str_not_text Hnt) as [t Ht]
      | destruct (required_not_text Validation.check_normalized _ data check_normalized_not_text Hnt) as [t Ht]
      | destruct (required_not_text Validation.check_normalized _ data check_normalized_not_text Hnt) as [t Ht]
      | destruct (required_not_text Validation.check_normalized _ data check_normalized_not_text Hnt) as [t Ht]
      | destruct (required_not_text Validation.check_normalized _ data check_normalized_not_text Hnt) as [t Ht]
      | destruct (required_not_text Validation.check_ev_type _ data check_ev_type_not_text Hnt) as [t Ht]
      | destruct (required_not_text Validation.check_str _ data check_str_not_text Hnt) as [t Ht]
      | destruct (required_not_text Validation.check_str _ data check_str_not_text Hnt) as [t Ht] ];
      exists t; rewrite <- Ht; unfold Validation.field_status; cbn [In]; pick_member. }
  destruct H as [t Ht]. exists t. apply In_errors_of. exact Ht.
Qed.

(** A required text field that holds text is not reported. *)
Lemma required_text_accepted (f : string) (data : PyDict) (s : string) :
  In f required_text_fields -> lookup f data = Some (VStr s) ->
  exists u, status_at f (Validation.field_status data) = Some (Validation.FOk u).
Proof.
  intros Hf Hl. unfold required_text_fields in Hf. simpl in Hf.
  destruct Hf as [<-|[<-|[<-|[<-|[<-|[<-|[<-|[<-|[]]]]]]]]];
    cbn [status_at Validation.field_status String.eqb Ascii.eqb Bool.eqb];
    unfold Validation.f_vin_1_10, Validation.f_county, Validation.f_city,
      Validation.f_make, Validation.f_model, Validation.f_electric_vehicle_type,
      Validation.f_cafv_eligibility, Validation.f_dol_vehicle_id, Validation.required;
    rewrite Hl; try rewrite check_ev_type_text; simpl; eauto.
Qed.

(** C1, amended.  For every record and every required text field: when
    the field is absent or holds a value that is not text, validation does
    not succeed, and its failure message names the field (the one other
    outcome is an [OverflowError] escaping from the numeric coercion);
    when the field holds text, empty and blank text included, no failure
    message names it. *)
Theorem C1_required_text_fields (data : PyDict) (f : string) :
  In f required_text_fields ->
  (not_text f data ->
   match Validation.validate data with
   | Validation.Valid _ => False
   | Validation.Invalid errs => In f (map Validation.loc errs)
   | Validation.Raised e => e = OverflowError
   end) /\
  (forall s, lookup f data = Some (VStr s) ->
             ~ fails_naming f (Validation.validate data)).
Proof.
  intros Hf. split.
  - intros Hnt. destruct (required_text_reported f data Hf Hnt) as [t Ht].
    destruct (validate_cases data) as [[e [H He]]|[[_ [He H]]|[_ [_ H]]]]; rewrite H.
    + exact He.
    + rewrite He in Ht. destruct Ht.
    + apply in_map_iff. eexists; split; [|exact Ht]. reflexivity.
  - intros s Hl Hfail.
    destruct (required_text_accepted f data s Hf Hl) as [u Hu].
    destruct (Validation.validate data) as [r|errs|e] eqn:Hv; simpl in Hfail; try tauto.
    destruct (invalid_errors _ _ _ Hv Hfail) as [t Ht].
    rewrite Hu in Ht. discriminate Ht.
Qed.

Lemma C1_required_text_fields_witness :
  In "county" required_text_fields /\
  not_text "county" no_county /\
  Validation.validate no_county =
    Validation.Invalid [{| Validation.loc := "county"; Validation.type := Validation.missing |}] /\
  In "county" (map Validation.loc
                   [{| Validation.loc := "county"; Validation.type := Validation.missing |}]).
Proof.
  assert (Hf : In "county" required_text_fields) by (simpl; tauto).
  assert (Hnt : not_text "county" no_county) by exact I.
  pose proof (proj1 (C1_required_text_fields no_county "county" Hf) Hnt) as H.
  assert (Hv : Validation.validate no_county =
    Validation.Invalid [{| Validation.loc := "county"; Validation.type := Validation.missing |}])
    by (vm_compute; reflexivity).
  rewrite Hv in H.
  exact (conj Hf (conj Hnt (conj Hv H))).
Defined.

(** ** C2: the lenient numeric coercion *)

(** C2, as stated, fails: the text "-5" and the integer -5 are coerced to
    the negative integer -5, and the bound of [electric_range] then fails
    the validation of the record. *)
Lemma C2_counterexample :
  Validation.handle_numeric_na (VStr "-5") = Ret (-5) /\
  Validation.handle_numeric_na (VInt (-5)) = Ret (-5) /\
  Validation.check_numeric_na (VStr "-5") = Validation.FErr Validation.greater_than_equal /\
  Validation.validate (("county", VStr "KING") :: negative_range) =
    Validation.Invalid
      [{| Validation.loc := "electric_range";
          Validation.type := Validation.greater_than_equal |}].
Proof. repeat split; vm_compute; reflexivity. Qed.

Lemma check_bounds_ge0 (z z' : Z) :
  Validation.check_bounds (Some 0) None z = Validation.FOk z' -> z' = z /\ 0 <= z.
Proof.
  unfold Validation.check_bounds. destruct (z <? 0) eqn:E; [discriminate|].
  intros H; inversion H; subst. split; [reflexivity|]. now apply Z.ltb_ge.
Qed.

Lemma check_numeric_na_nonneg (v : PyVal) (z : Z) :
  Validation.check_numeric_na v = Validation.FOk z -> 0 <= z.
Proof.
  unfold Validation.check_numeric_na.
  destruct (Validation.handle_numeric_na v) as [n|e]; [|discriminate].
  cbn [Validation.check_int Validation.bindF]. intros H.
  apply check_bounds_ge0 in H. destruct H as [-> H]. exact H.
Qed.

Lemma numeric_field_nonneg (n : string) (data : PyDict) :
  (forall t, Validation.with_default Validation.check_numeric_na 0 n data <> Validation.FErr t) ->
  (forall e, Validation.with_default Validation.check_numeric_na 0 n data <> Validation.FRaise e) ->
  0 <= Validation.val 0 (Validation.with_default Validation.check_numeric_na 0 n data).
Proof.
  intros Herr Hexn. unfold Validation.with_default in *.
  destruct (lookup n data) as [v|]; simpl; [|lia].
  destruct (Validation.check_numeric_na v) as [z|t|e] eqn:E; simpl.
  - now apply check_numeric_na_nonneg in E.
  - now destruct (Herr t).
  - now destruct (Hexn e).
Qed.

Lemma valid_no_failed_field (data : PyDict) (r : Validation.VehicleRecord) :
  Validation.validate data = Validation.Valid r ->
  r = Validation.build data /\
  forall n st, In (n, st) (Validation.field_status data) ->
               (forall t, st <> Validation.FErr t) /\ (forall e, st <> Validation.FRaise e).
Proof.
  intros Hv.
  destruct (validate_cases data) as [[e [H _]]|[[Hx [He H]]|[_ [_ H]]]];
    rewrite H in Hv; inversion Hv; subst.
  split; [reflexivity|]. intros n st Hin. split.
  - intros t ->.
    assert (Hd : In {| Validation.loc := n; Validation.type := t |} (Validation.errors_of data))
      by now apply In_errors_of.
    rewrite He in Hd. destruct Hd.
  - intros e ->.
    assert (Hd : In e (Validation.escaping data)) by (apply In_escaping; eauto).
    rewrite Hx in Hd. destruct Hd.
Qed.

Lemma status_not_FErr {A} (x : Validation.FieldRes A) :
  (forall t, Validation.status x <> Validation.FErr t) -> forall t, x <> Validation.FErr t.
Proof. intros H t ->. now apply (H t). Qed.

Lemma status_not_FRaise {A} (x : Validation.FieldRes A) :
  (forall e, Validation.status x <> Validation.FRaise e) -> forall e, x <> Validation.FRaise e.
Proof. intros H e ->. now apply (H e). Qed.

(** The numeric fields of a validated record are not negative. *)
Lemma valid_ranges_nonneg (data : PyDict) (r : Validation.VehicleRecord) :
  Validation.validate data = Validation.Valid r ->
  0 <= Validation.electric_range r /\ 0 <= Validation.base_msrp r.
Proof.
  intros Hv. destruct (valid_no_failed_field data r Hv) as [-> Hall].
  split; cbn [Validation.build Validation.electric_range Validation.base_msrp].
  - destruct (Hall "electric_range" (Validation.status (Validation.f_electric_range data)))
      as [H1 H2]; [unfold Validation.field_status; cbn [In]; pick_member|].
    apply numeric_field_nonneg; [now apply status_not_FErr|now apply status_not_FRaise].
  - destruct (Hall "base_msrp" (Validation.status (Validation.f_base_msrp data)))
      as [H1 H2]; [unfold Validation.field_status; cbn [In]; pick_member|].
    apply numeric_field_nonneg; [now apply status_not_FErr|now apply status_not_FRaise].
Qed.

(** C2, amended.  The sentinels (the empty text, "NA", "N/A" and null) and
    every text that [float] cannot read are coerced to 0; an integer of
    magnitude below [2^53] is returned unchanged, a negative one included;
    whenever the coercion yields a negative integer the bound [ge=0] fails
    the field; and in every record that passes validation
    [electric_range] and [base_msrp] are not negative. *)
Theorem C2_numeric_coercion :
  (forall v, Validation.is_na_sentinel v = true -> Validation.handle_numeric_na v = Ret 0) /\
  (Validation.is_na_sentinel (VStr "") = true /\
   Validation.is_na_sentinel (VStr "NA") = true /\
   Validation.is_na_sentinel (VStr "N/A") = true /\
   Validation.is_na_sentinel VNone = true) /\
  (forall s e, PyFloat.of_string s = Raise e ->
               Validation.handle_numeric_na (VStr s) = Ret 0) /\
  (forall z, Z.abs z < 2 ^ 53 -> Validation.handle_numeric_na (VInt z) = Ret z) /\
  (forall v z, Validation.handle_numeric_na v = Ret z -> z < 0 ->
               Validation.check_numeric_na v = Validation.FErr Validation.greater_than_equal) /\
  (forall data r, Validation.validate data = Validation.Valid r ->
                  0 <= Validation.electric_range r /\ 0 <= Validation.base_msrp r).
Proof.
  split; [|split; [|split; [|split; [|split]]]].
  - intros v Hs. unfold Validation.handle_numeric_na. now rewrite Hs.
  - repeat split; reflexivity.
  - apply handle_numeric_na_unparsable.
  - apply handle_numeric_na_int.
  - intros v z Hh Hz. unfold Validation.check_numeric_na. rewrite Hh.
    cbn [Validation.check_int Validation.bindF]. unfold Validation.check_bounds.
    apply Z.ltb_lt in Hz. now rewrite Hz.
  - apply valid_ranges_nonneg.
Qed.

Lemma C2_numeric_coercion_witness :
  Validation.handle_numeric_na (VStr "NA") = Ret 0 /\
  Validation.handle_numeric_na (VStr "unknown") = Ret 0 /\
  Validation.check_numeric_na (VInt (-5)) = Validation.FErr Validation.greater_than_equal.
Proof.
  destruct C2_numeric_coercion as [H1 [_ [H3 [_ [H4 _]]]]].
  split; [|split].
  - apply H1. reflexivity.
  - apply (H3 _ ValueError). vm_compute. reflexivity.
  - apply (H4 _ (-5)); [vm_compute; reflexivity|lia].
Defined.

(** ** C3: the rates of the trends *)

(** Both rates are dropped exactly when they are zero. *)
Lemma round_if_truthy_none (x : spec_float) :
  Routes.round_if_truthy (Some x) = None <-> PyFloat.is_zero x = true.
Proof.
  unfold Routes.round_if_truthy, PyFloat.truthy.
  destruct (PyFloat.is_zero x); simpl; split; intros H; congruence.
Qed.

(** C3, on a store the claim covers: two model years, one vehicle each,
    both of range 100.  The year span is 1 and the first count is 1, the
    growth rate is computed as 0.0 and the improvement rate as 0.0, and
    the answer carries neither: a rate of zero is falsy in
    [round(x, 2) if x else None].  In general a computed rate is left out
    of the answer exactly when it is a zero. *)
Theorem C3_zero_rates_omitted :
  (exists r,
     Routes.get_trends (Mongo.Online flat_store) = Routes.Ok r /\
     map ApiModels.yt_model_year (ApiModels.trends r) = [2020; 2021] /\
     map ApiModels.vehicle_count (ApiModels.trends r) = [1; 1] /\
     Routes.growth_rates (ApiModels.trends r) = Ret (Some PyFloat.zero, Some PyFloat.zero) /\
     ApiModels.overall_growth_rate r = None /\
     ApiModels.range_improvement_rate r = None) /\
  (forall docs r,
     Routes.get_trends (Mongo.Online docs) = Routes.Ok r ->
     exists rates,
       Routes.growth_rates (ApiModels.trends r) = Ret rates /\
       (forall x, fst rates = Some x ->
                  (ApiModels.overall_growth_rate r = None <-> PyFloat.is_zero x = true)) /\
       (forall x, snd rates = Some x ->
                  (ApiModels.range_improvement_rate r = None <-> PyFloat.is_zero x = true))).
Proof.
  split.
  - eexists. repeat split; vm_compute; reflexivity.
  - intros docs r H. destruct (trends_ok _ _ H) as [_ [rates [Hr [Ho Hi]]]].
    exists rates. split; [exact Hr|]. split; intros x Hx.
    + rewrite Ho, Hx. apply round_if_truthy_none.
    + rewrite Hi, Hx. apply round_if_truthy_none.
Qed.

(** ** C4: canonicalization of [electric_vehicle_type] *)

(** C4.  For every input text, with [v] its trimmed, uppercased form: the
    check of [electric_vehicle_type] succeeds, and its result is [v] when
    [v] is one of the four accepted forms, else the BEV label when [v]
    contains "BEV", else the PHEV label when [v] contains "PHEV", else [v]
    unchanged; and the field is never among the errors of a record that
    carries the text. *)
Theorem C4_ev_type_canonicalization (s : string) :
  (let v := PyStr.upper (PyStr.strip s) in
   Validation.check_ev_type (VStr s) =
     Validation.FOk
       (if PyStr.mem v Validation.valid_types then v
        else if PyStr.contains "BEV" v then Validation.BEV_LABEL
        else if PyStr.contains "PHEV" v then Validation.PHEV_LABEL
        else v)) /\
  (forall data errs,
      lookup "electric_vehicle_type" data = Some (VStr s) ->
      Validation.validate data = Validation.Invalid errs ->
      ~ In "electric_vehicle_type" (map Validation.loc errs)).
Proof.
  split; [apply check_ev_type_text|].
  intros data errs Hl Hv Hin.
  destruct (invalid_errors _ _ _ Hv Hin) as [t Ht].
  cbn [status_at Validation.field_status String.eqb Ascii.eqb Bool.eqb] in Ht.
  unfold Validation.f_electric_vehicle_type, Validation.required in Ht.
  rewrite Hl, check_ev_type_text in Ht. discriminate Ht.
Qed.

(** ** C5: the empty-result condition *)

Lemma insert_sorted_not_nil {A} (le : A -> A -> bool) (x : A) (l : list A) :
  Mongo.insert_sorted le x l <> [].
Proof. destruct l as [|y t]; simpl; [discriminate|]. destruct (le x y); discriminate. Qed.

Lemma sort_nil_iff {A} (le : A -> A -> bool) (l : list A) :
  Mongo.sort le l = [] <-> l = [].
Proof.
  destruct l as [|x t]; simpl; [tauto|]. split; [|discriminate].
  intros H. now apply insert_sorted_not_nil in H.
Qed.

Lemma group_nil_iff {K A} (eqb : K -> K -> bool) (key : A -> K) (docs : list A) :
  Mongo.group eqb key docs = [] <-> docs = [].
Proof. destruct docs as [|d t]; simpl; [tauto|]. split; discriminate. Qed.

Lemma grouped_nil_iff {K A} (eqb : K -> K -> bool) (key : A -> K) (docs : list A) :
  Mongo.sort_count_desc (Mongo.group eqb key docs) = [] <-> docs = [].
Proof. unfold Mongo.sort_count_desc. now rewrite sort_nil_iff, group_nil_iff. Qed.

Lemma count_find_le (q : Routes.Query) (docs : list Mongo.Document) :
  Mongo.count (Routes.find q docs) <= Mongo.count docs.
Proof.
  unfold Mongo.count, Routes.find. pose proof (filter_length_le (Routes.matches q) docs). lia.
Qed.

Lemma count_zero_iff {A} (l : list A) : Mongo.count l = 0 <-> l = [].
Proof.
  unfold Mongo.count. destruct l; simpl; split; intros H; try reflexivity; try discriminate; lia.
Qed.

Lemma county_not_found (docs : list Mongo.Document) (county_name : string)
      (page page_size : Z) (model_year : option Z)
      (sort_by : Routes.SortField) (sort_order : Routes.SortOrder) :
  Mongo.count docs < 2 ^ 63 -> 1 <= page -> 1 <= page_size <= 100 ->
  not_found_iff_empty
    (Routes.get_vehicles_by_county (Mongo.Online docs) county_name page page_size
                                   model_year sort_by sort_order)
    (Routes.find (Routes.county_query county_name model_year) docs).
Proof.
  intros Hn Hp Hs. unfold Routes.get_vehicles_by_county.
  assert (Hv : (page <? 1) || (page_size <? 1) || (100 <? page_size) = false).
  { rewrite !orb_false_iff. repeat split; apply Z.ltb_ge; lia. }
  rewrite Hv.
  set (matched := Routes.find (Routes.county_query county_name model_year) docs).
  pose proof (count_find_le (Routes.county_query county_name model_year) docs) as Hle.
  fold matched in Hle.
  destruct (Mongo.count matched =? 0) eqn:E.
  - apply Z.eqb_eq, count_zero_iff in E. split.
    + intros _. eexists. reflexivity.
    + intros H. contradiction.
  - apply Z.eqb_neq in E. split.
    + intros H. apply count_zero_iff in H. contradiction.
    + intros _.
      assert (Hpos : 0 < Mongo.count matched) by (unfold Mongo.count in *; lia).
      destruct (ceil_truediv_returns (Mongo.count matched) page_size) as [z Hz].
      * split; [exact Hpos|]. eapply Z.le_lt_trans; [exact Hle|].
        eapply Z.lt_trans; [exact Hn|]. apply Z.pow_lt_mono_r; lia.
      * lia.
      * rewrite Hz. cbn [bindR Routes.guard]. eexists. reflexivity.
Qed.

Lemma make_not_found (docs : list Mongo.Document) (make_param : string) :
  not_found_iff_empty
    (Routes.get_models_by_make (Mongo.Online docs) make_param)
    (Routes.find [fun d => String.eqb (Validation.make d) (PyStr.upper make_param)] docs).
Proof.
  unfold Routes.get_models_by_make.
  set (matched := Routes.find _ docs).
  pose proof (grouped_nil_iff String.eqb Validation.model matched) as Hg.
  destruct (Mongo.sort_count_desc (Mongo.group String.eqb Validation.model matched)).
  - split; [intros _; eexists; reflexivity|]. intros H. now destruct H; apply Hg.
  - split; [|intros _; eexists; reflexivity].
    intros H. apply Hg in H. discriminate H.
Qed.

Lemma analyze_not_found (docs : list Mongo.Document) (request : ApiModels.AnalyzeRequest) :
  Routes.negative_min_range (ApiModels.filters request) = false ->
  not_found_iff_empty
    (Routes.analyze_vehicles (Mongo.Online docs) request)
    (Routes.find (Routes.match_stage (ApiModels.filters request)) docs).
Proof.
  intros Hv. unfold Routes.analyze_vehicles. rewrite Hv.
  set (matched := Routes.find _ docs).
  pose proof (grouped_nil_iff Routes.key_eqb
                (Routes.group_field (ApiModels.group_by request)) matched) as Hg.
  destruct (Mongo.sort_count_desc _).
  - split; [intros _; eexists; reflexivity|]. intros H. now destruct H; apply Hg.
  - split; [|intros _; eexists; reflexivity].
    intros H. apply Hg in H. discriminate H.
Qed.

(** C5.  With the store reachable, holding fewer than [2^63] documents,
    and the parameters within their declared bounds: the county listing,
    the make->models operation and the analyze operation each answer
    [NotFound] when no stored document matches the filter they build, and
    a computed result when some document matches.  [NotFound] is not the
    internal failure, which is what each answers when the store cannot be
    reached. *)
Theorem C5_not_found_exactly_when_empty (docs : list Mongo.Document) :
  Mongo.count docs < 2 ^ 63 ->
  (forall county_name page page_size model_year sort_by sort_order,
      1 <= page -> 1 <= page_size <= 100 ->
      not_found_iff_empty
        (Routes.get_vehicles_by_county (Mongo.Online docs) county_name page page_size
                                       model_year sort_by sort_order)
        (Routes.find (Routes.county_query county_name model_year) docs) /\
      Routes.get_vehicles_by_county Mongo.Offline county_name page page_size
                                    model_year sort_by sort_order =
        Routes.Fail Routes.InternalServerError) /\
  (forall make_param,
      not_found_iff_empty
        (Routes.get_models_by_make (Mongo.Online docs) make_param)
        (Routes.find [fun d => String.eqb (Validation.make d) (PyStr.upper make_param)] docs) /\
      Routes.get_models_by_make Mongo.Offline make_param =
        Routes.Fail Routes.InternalServerError) /\
  (forall request,
      Routes.negative_min_range (ApiModels.filters request) = false ->
      not_found_iff_empty
        (Routes.analyze_vehicles (Mongo.Online docs) request)
        (Routes.find (Routes.match_stage (ApiModels.filters request)) docs) /\
      Routes.analyze_vehicles Mongo.Offline request =
        Routes.Fail Routes.InternalServerError) /\
  (forall detail, Routes.NotFound detail <> Routes.InternalServerError).
Proof.
  intros Hn. split; [|split; [|split]].
  - intros county_name page page_size model_year sort_by sort_order Hp Hs. split.
    + now apply county_not_found.
    + unfold Routes.get_vehicles_by_county.
      assert (Hv : (page <? 1) || (page_size <? 1) || (100 <? page_size) = false).
      { rewrite !orb_false_iff. repeat split; apply Z.ltb_ge; lia. }
      now rewrite Hv.
  - intros make_param. split; [apply make_not_found|reflexivity].
  - intros request Hv. split; [now apply analyze_not_found|].
    unfold Routes.analyze_vehicles. now rewrite Hv.
  - intros detail. discriminate.
Qed.

Lemma C5_not_found_exactly_when_empty_witness :
  is_not_found (Routes.get_models_by_make (Mongo.Online small_store) "kia") /\
  is_result (Routes.get_models_by_make (Mongo.Online small_store) "tesla") /\
  is_not_found (Routes.get_vehicles_by_county (Mongo.Online small_store) "clark" 1 20 None
                                              Routes.sort_model_year Routes.desc) /\
  is_result (Routes.get_vehicles_by_county (Mongo.Online small_store) "king" 1 20 None
                                           Routes.sort_model_year Routes.desc).
Proof.
  assert (Hn : Mongo.count small_store < 2 ^ 63) by (vm_compute; reflexivity).
  destruct (C5_not_found_exactly_when_empty small_store Hn) as [Hc [Hm _]].
  split; [|split; [|split]].
  - apply (proj1 (proj1 (Hm "kia"))). vm_compute. reflexivity.
  - apply (proj2 (proj1 (Hm "tesla"))). vm_compute. discriminate.
  - apply (proj1 (proj1 (Hc "clark" 1 20 None Routes.sort_model_year Routes.desc
                            ltac:(lia) ltac:(lia)))).
    vm_compute. reflexivity.
  - apply (proj2 (proj1 (Hc "king" 1 20 None Routes.sort_model_year Routes.desc
                            ltac:(lia) ltac:(lia)))).
    vm_compute. discriminate.
Defined.

(** ** C6: the counts of the quality report *)

Lemma validate_record_raises (record : PyDict) (e : PyExn) :
  Etl.validate_record record = Raise e -> e = OverflowError.
Proof.
  unfold Etl.validate_record.
  destruct (validate_cases record) as [[e' [H He]]|[[_ [_ H]]|[_ [_ H]]]];
    rewrite H; try discriminate.
  intros Hr; inversion Hr; subst. reflexivity.
Qed.

Lemma loop_body_spec acc idx record :
  match Etl.loop_body acc idx record with
  | Ret acc' =>
      (List.length (fst acc') + List.length (snd acc') =
       S (List.length (fst acc) + List.length (snd acc)))%nat
  | Raise e => e = OverflowError
  end.
Proof.
  unfold Etl.loop_body. destruct acc as [valid errs].
  destruct (Etl.validate_record record) as [[[b o] msg]|e] eqn:E; simpl.
  - destruct b; [destruct o|]; simpl; rewrite ?length_app; simpl; lia.
  - now apply validate_record_raises in E.
Qed.

Lemma validation_loop_spec records : forall acc idx,
  match Etl.validation_loop acc idx records with
  | Ret out =>
      (List.length (fst out) + List.length (snd out) =
       List.length (fst acc) + List.length (snd acc) + List.length records)%nat
  | Raise e => e = OverflowError
  end.
Proof.
  induction records as [|record rest IH]; intros acc idx; simpl.
  - lia.
  - pose proof (loop_body_spec acc idx record) as Hb.
    destruct (Etl.loop_body acc idx record) as [acc'|e]; simpl; [|exact Hb].
    specialize (IH acc' (idx + 1)).
    destruct (Etl.validation_loop acc' (idx + 1) rest) as [out|e]; [lia|exact IH].
Qed.

Lemma validation_loop_returns (records : list PyDict) :
  (forall r, In r records -> forall e, Validation.validate r <> Validation.Raised e) ->
  forall acc idx, exists out, Etl.validation_loop acc idx records = Ret out.
Proof.
  induction records as [|record rest IH]; intros H acc idx; simpl; [eauto|].
  assert (Hr : exists acc', Etl.loop_body acc idx record = Ret acc').
  { unfold Etl.loop_body, Etl.validate_record. destruct acc as [valid errs].
    destruct (Validation.validate record) as [v|errors|e] eqn:E; simpl; eauto.
    exfalso. apply (H record (or_introl eq_refl) e). exact E. }
  destruct Hr as [acc' ->]. simpl. apply IH. intros r Hr. apply H. now right.
Qed.

(** A run in which no record lets an exception escape produces its
    report. *)
Lemma transform_returns (df : Etl.DataFrame) :
  (forall r, In r df ->
             forall e, Validation.validate (Etl.normalize_row r) <> Validation.Raised e) ->
  exists valid report, Etl.transform df = Ret (valid, report).
Proof.
  intros H. unfold Etl.transform.
  match goal with
  | |- context [Etl.validation_loop ?a ?i ?rs] =>
      destruct (validation_loop_returns rs) with (acc := a) (idx := i) as [[valid errs] Hout]
  end.
  - intros r Hr e. unfold Etl.normalize_column_names in Hr. rewrite !map_map in Hr.
    apply in_map_iff in Hr. destruct Hr as [r0 [<- Hr0]]. now apply H.
  - rewrite Hout. simpl. eauto.
Qed.

(** On the sample frame: three rows, one valid record, two rejected. *)
Lemma transform_sample_frame :
  exists valid report,
    Etl.transform sample_frame = Ret (valid, report) /\
    Validation.total_records report = 3 /\
    Validation.valid_records report = 1 /\
    Validation.invalid_records report = 2 /\
    map Validation.record_index (Validation.validation_errors report) = [1; 2].
Proof. do 2 eexists. repeat split; vm_compute; reflexivity. Qed.

(** C6.  For every input frame, [transform] either produces a quality
    report, and then [valid_records + invalid_records = total_records]
    with [total_records] the number of input rows and [valid_records] the
    number of records handed on, or is ended by an [OverflowError] of the
    numeric coercion and produces no report. *)
Theorem C6_report_counts (df : Etl.DataFrame) :
  match Etl.transform df with
  | Ret (valid, report) =>
      Validation.valid_records report + Validation.invalid_records report =
        Validation.total_records report /\
      Validation.total_records report = Etl.len df /\
      Validation.valid_records report = Etl.len valid
  | Raise e => e = OverflowError
  end.
Proof.
  unfold Etl.transform.
  match goal with
  | |- context [Etl.validation_loop ?a ?i ?rs] =>
      pose proof (validation_loop_spec rs a i) as H;
      destruct (Etl.validation_loop a i rs) as [[valid errs]|e]
  end; simpl; [|exact H].
  simpl in H. unfold Etl.len, Etl.normalize_column_names in *.
  rewrite !length_map in *. repeat split; lia.
Qed.

(** ** C7: rounding to two decimal places *)

(** C7, as stated, fails: eight vehicles of one model with ranges
    1, 0, ..., 0 have the mean range 1/8 = 0.125 exactly; half-up rounding
    gives 0.13, the operation reports 0.12. *)
Lemma C7_counterexample :
  mean_range eighth_store = S754_finite false 4503599627370496 (-55) /\
  PyFloat.round2_half_up (mean_range eighth_store) = PyFloat.of_hundredths false 13 /\
  (exists r,
      Routes.get_models_by_make (Mongo.Online eighth_store) "tesla" = Routes.Ok r /\
      map ApiModels.ms_average_electric_range (ApiModels.models r) =
        [PyFloat.of_hundredths false 12]) /\
  PyFloat.of_hundredths false 12 <> PyFloat.of_hundredths false 13.
Proof.
  split; [vm_compute; reflexivity|]. split; [vm_compute; reflexivity|]. split.
  - eexists. split; vm_compute; reflexivity.
  - vm_compute. discriminate.
Qed.

(** [round_half_even_div a b] is the integer nearest to [a / b], and the
    even one of the two when [a / b] lies halfway. *)
Lemma round_half_even_div_nearest (a b : Z) :
  0 < b ->
  let n := PyFloat.round_half_even_div a b in
  Z.abs (2 * a - 2 * n * b) <= b /\
  (Z.abs (2 * a - 2 * n * b) = b -> Z.even n = true).
Proof.
  intros Hb n. subst n. unfold PyFloat.round_half_even_div.
  pose proof (Z.div_mod a b ltac:(lia)) as Hdm.
  pose proof (Z.mod_pos_bound a b Hb) as Hr.
  set (q := a / b) in *. set (r := a mod b) in *.
  assert (Ha : 2 * a = 2 * (b * q) + 2 * r) by lia. clear Hdm.
  destruct (2 * r ?= b) eqn:E.
  - apply Z.compare_eq in E.
    destruct (Z.even q) eqn:Hq.
    + split; [|intros _; exact Hq].
      replace (2 * a - 2 * q * b) with (2 * r) by lia. lia.
    + split.
      * replace (2 * a - 2 * (q + 1) * b) with (2 * r - 2 * b) by lia. lia.
      * intros _. change (q + 1) with (Z.succ q).
        rewrite Z.even_succ, <- Z.negb_even, Hq. reflexivity.
  - change (2 * r < b) in E. split.
    + replace (2 * a - 2 * q * b) with (2 * r) by lia. lia.
    + replace (2 * a - 2 * q * b) with (2 * r) by lia. lia.
  - change (2 * r > b) in E. split.
    + replace (2 * a - 2 * (q + 1) * b) with (2 * r - 2 * b) by lia. lia.
    + replace (2 * a - 2 * (q + 1) * b) with (2 * r - 2 * b) by lia. lia.
Qed.

(** [round(x, 2)] of a float with a fractional part: the hundredth
    nearest to [x], ties to the even hundredth. *)
Lemma round2_nearest_even (s : bool) (m : positive) (e : Z) :
  e < 0 ->
  exists n,
    PyFloat.round2 (S754_finite s m e) = PyFloat.of_hundredths s n /\
    Z.abs (2 * (100 * Zpos m) - 2 * n * 2 ^ (- e)) <= 2 ^ (- e) /\
    (Z.abs (2 * (100 * Zpos m) - 2 * n * 2 ^ (- e)) = 2 ^ (- e) -> Z.even n = true).
Proof.
  intros He. exists (PyFloat.round_half_even_div (100 * Zpos m) (2 ^ (- e))).
  split.
  - unfold PyFloat.round2, PyFloat.round2_by, PyFloat.hundredths_by.
    destruct (0 <=? e) eqn:E; [apply Z.leb_le in E; lia|reflexivity].
  - apply round_half_even_div_nearest. apply Z.pow_pos_nonneg; lia.
Qed.

(** C7, amended.  Every average and every percentage the query
    operations produce is [round(x, 2)] of the unrounded value [x]: the
    hundredth nearest to [x], and the even one of the two when [x] lies
    halfway between two hundredths (not the upper one).  This holds for
    the summary's mean range (0.0 when no document qualifies), for the
    mean range of every model, group and year, for the BEV and PHEV
    percentages of every year, and for the two rates of the trends when
    they are reported; the county listing produces no such value. *)
Theorem C7_python_rounding :
  (forall s m e, e < 0 ->
     exists n,
       PyFloat.round2 (S754_finite s m e) = PyFloat.of_hundredths s n /\
       Z.abs (2 * (100 * Zpos m) - 2 * n * 2 ^ (- e)) <= 2 ^ (- e) /\
       (Z.abs (2 * (100 * Zpos m) - 2 * n * 2 ^ (- e)) = 2 ^ (- e) -> Z.even n = true)) /\
  (forall docs r,
     Routes.get_summary (Mongo.Online docs) = Routes.Ok r ->
     ApiModels.average_electric_range r =
       match Routes.find [fun d => 0 <? Validation.electric_range d] docs with
       | [] => PyFloat.zero
       | matched => PyFloat.round2 (mean_range matched)
       end) /\
  (forall docs make_param r,
     Routes.get_models_by_make (Mongo.Online docs) make_param = Routes.Ok r ->
     Forall2 (fun doc m =>
                ApiModels.ms_model m = fst doc /\
                ApiModels.ms_average_electric_range m = PyFloat.round2 (mean_range (snd doc)))
             (make_results docs make_param) (ApiModels.models r)) /\
  (forall docs request r,
     Routes.analyze_vehicles (Mongo.Online docs) request = Routes.Ok r ->
     Forall2 (fun doc g =>
                ApiModels.group_value g = Routes.key_str (fst doc) /\
                ApiModels.gs_average_electric_range g = PyFloat.round2 (mean_range (snd doc)))
             (analyze_results docs request) (ApiModels.groups r)) /\
  (forall docs r,
     Routes.get_trends (Mongo.Online docs) = Routes.Ok r ->
     Forall2 rounded_trend (trend_results docs) (ApiModels.trends r) /\
     exists rates,
       Routes.growth_rates (ApiModels.trends r) = Ret rates /\
       (forall g, ApiModels.overall_growth_rate r = Some g ->
                  exists x, fst rates = Some x /\ g = PyFloat.round2 x) /\
       (forall g, ApiModels.range_improvement_rate r = Some g ->
                  exists x, snd rates = Some x /\ g = PyFloat.round2 x)).
Proof.
  split; [exact round2_nearest_even|].
  split; [exact summary_ok|].
  split; [|split].
  - intros docs make_param r H. rewrite (make_models_ok _ _ _ H).
    apply Forall2_map_right. intros doc _. split; reflexivity.
  - intros docs request r H. rewrite (analyze_ok _ _ _ H).
    apply Forall2_map_right. intros doc _. split; reflexivity.
  - intros docs r H. destruct (trends_ok _ _ H) as [Hts [rates [Hr [Ho Hi]]]].
    split; [now apply year_trends_rounded|].
    exists rates. split; [exact Hr|]. split; intros g Hg.
    + rewrite Ho in Hg. now apply round_if_truthy_some.
    + rewrite Hi in Hg. now apply round_if_truthy_some.
Qed.

Lemma C7_python_rounding_witness :
  exists n,
    PyFloat.round2 (mean_range eighth_store) = PyFloat.of_hundredths false n /\
    Z.abs (2 * (100 * 4503599627370496) - 2 * n * 2 ^ 55) <= 2 ^ 55 /\
    (Z.abs (2 * (100 * 4503599627370496) - 2 * n * 2 ^ 55) = 2 ^ 55 -> Z.even n = true).
Proof.
  exact (proj1 C7_python_rounding false 4503599627370496%positive (-55) eq_refl).
Defined.

(** ** C8: normalizing twice *)

(** C8, as stated, fails: a missing DOL id becomes null in the first
    normalization and the text "None" in the second. *)
Lemma C8_counterexample :
  Etl.normalize_row missing_dol_id = [("dol_vehicle_id", VNone)] /\
  Etl.normalize_row (Etl.normalize_row missing_dol_id) = [("dol_vehicle_id", VStr "None")] /\
  Etl.normalize_row (Etl.normalize_row missing_dol_id) <> Etl.normalize_row missing_dol_id.
Proof. repeat split; try (vm_compute; reflexivity). vm_compute. discriminate. Qed.

Lemma normalize_row_cells (r : Etl.Row) : Etl.normalize_row r = map normalize_cell r.
Proof.
  unfold Etl.normalize_row, Etl.map_cells, Etl.rename_row.
  rewrite !map_map. apply map_ext. intros [c v]. reflexivity.
Qed.

Lemma rename_column_target (c c' : string) :
  Etl.assoc c Etl.column_mapping = Some c' -> Etl.assoc c' Etl.column_mapping = None.
Proof.
  unfold Etl.column_mapping. cbn [Etl.assoc].
  repeat match goal with
         | |- (if ?b then _ else _) = _ -> _ => destruct b
         end;
    intros H; inversion H; subst; reflexivity.
Qed.

Lemma rename_column_idempotent (c : string) :
  Etl.rename_column (Etl.rename_column c) = Etl.rename_column c.
Proof.
  unfold Etl.rename_column at 2 3.
  destruct (Etl.assoc c Etl.column_mapping) as [c'|] eqn:E.
  - unfold Etl.rename_column. now rewrite (rename_column_target _ _ E).
  - unfold Etl.rename_column. now rewrite E.
Qed.

Lemma to_text_cell_cases (v : PyVal) :
  Etl.to_text_cell v = VNone \/
  exists s, Etl.to_text_cell v = VStr s /\ String.eqb s "" = false /\ String.eqb s "nan" = false.
Proof.
  unfold Etl.to_text_cell, Etl.replace_cell.
  destruct (String.eqb (py_str v) "nan") eqn:E1.
  - left. reflexivity.
  - destruct (String.eqb (py_str v) "") eqn:E2.
    + left. reflexivity.
    + right. exists (py_str v). auto.
Qed.

Lemma to_text_cell_text (s : string) :
  String.eqb s "" = false -> String.eqb s "nan" = false ->
  Etl.to_text_cell (VStr s) = VStr s.
Proof.
  intros H1 H2. unfold Etl.to_text_cell, Etl.replace_cell. cbn [py_str].
  now rewrite H2, H1.
Qed.

Lemma fill_values_not_null (c : string) (d : PyVal) :
  lookup c Etl.fill_values = Some d -> Etl.isnull d = false.
Proof.
  unfold Etl.fill_values. cbn [lookup].
  repeat match goal with
         | |- (if ?b then _ else _) = _ -> _ => destruct b
         end;
    intros H; inversion H; subst; reflexivity.
Qed.

Lemma fillna_cell_not_null (c : string) (v : PyVal) :
  Etl.isnull v = false -> Etl.fillna_cell c v = v.
Proof. intros H. unfold Etl.fillna_cell. now rewrite H. Qed.

Lemma fillna_cell_cases (c : string) (v : PyVal) :
  Etl.fillna_cell c v = v \/ Etl.isnull (Etl.fillna_cell c v) = false.
Proof.
  unfold Etl.fillna_cell. destruct (Etl.isnull v) eqn:E; [|now left].
  destruct (lookup c Etl.fill_values) as [d|] eqn:L; [|now left].
  right. exact (fill_values_not_null _ _ L).
Qed.

Lemma fillna_cell_idempotent (c : string) (v : PyVal) :
  Etl.fillna_cell c (Etl.fillna_cell c v) = Etl.fillna_cell c v.
Proof.
  destruct (fillna_cell_cases c v) as [H|H].
  - rewrite H. exact H.
  - now apply fillna_cell_not_null.
Qed.

(** Renormalizing one cell of a text column. *)
Lemma text_cell_again (c : string) (v : PyVal) :
  PyStr.mem c Etl.string_fields = true ->
  (c = "dol_vehicle_id" -> Etl.to_text_cell v <> VNone) ->
  Etl.to_text_cell (Etl.fillna_cell c (Etl.to_text_cell v)) = Etl.to_text_cell v.
Proof.
  intros Hc Hdol.
  destruct (to_text_cell_cases v) as [Hn|[s [Hs [H1 H2]]]].
  - rewrite Hn in *. unfold PyStr.mem, Etl.string_fields in Hc. cbn [existsb] in Hc.
    repeat match type of Hc with
           | (String.eqb ?a ?b || _)%bool = true =>
               let E := fresh "E" in
               destruct (String.eqb a b) eqn:E;
                 [ apply String.eqb_eq in E; subst c; clear Hc;
                   first [ vm_compute; reflexivity | exfalso; now apply Hdol ]
                 | cbn [orb] in Hc ]
           end.
    discriminate Hc.
  - rewrite Hs. unfold Etl.fillna_cell. cbn [Etl.isnull]. now apply to_text_cell_text.
Qed.

Lemma normalize_cell_again (cv : string * PyVal) :
  (fst (normalize_cell cv) = "dol_vehicle_id" -> snd (normalize_cell cv) <> VNone) ->
  normalize_cell (normalize_cell cv) = normalize_cell cv.
Proof.
  destruct cv as [c v]. unfold normalize_cell. cbn [fst snd].
  rewrite rename_column_idempotent.
  set (c' := Etl.rename_column c). intros Hdol. f_equal.
  unfold Etl.stringify_cell in *.
  destruct (PyStr.mem c' Etl.string_fields) eqn:Hm.
  - now apply text_cell_again.
  - apply fillna_cell_idempotent.
Qed.

(** C8, amended.  Normalization is idempotent on every record whose
    normalized form has no null DOL id: renaming the headers, defaulting
    the optional fields and converting the identifier fields to text a
    second time leave such a record unchanged. *)
Theorem C8_normalize_idempotent (r : Etl.Row) :
  (forall v, In ("dol_vehicle_id", v) (Etl.normalize_row r) -> v <> VNone) ->
  Etl.normalize_row (Etl.normalize_row r) = Etl.normalize_row r.
Proof.
  rewrite !normalize_row_cells. intros H. rewrite map_map.
  apply map_ext_in. intros cv Hin. apply normalize_cell_again.
  intros Hc. apply H. rewrite <- Hc, <- surjective_pairing. now apply in_map.
Qed.

Lemma C8_normalize_idempotent_witness :
  Etl.normalize_row (Etl.normalize_row sample_row) = Etl.normalize_row sample_row.
Proof.
  apply C8_normalize_idempotent.
  intros v Hin. vm_compute in Hin.
  repeat (destruct Hin as [Hin|Hin]; [inversion Hin; subst; discriminate|]).
  destruct Hin.
Defined.

(** ** C9: the year filter of the county listing *)

(** C9.  In the county listing a [model_year] of 0 is the same query as no
    [model_year]: both build the same filter, and the answers are equal
    for every store, county, page, page size and ordering.  The records
    are not filtered to the year 0: on a store where no record has that
    year the query with 0 still lists the records of the county. *)
Theorem C9_year_zero_is_no_filter
        (collection : Mongo.Collection) (county_name : string) (page page_size : Z)
        (sort_by : Routes.SortField) (sort_order : Routes.SortOrder) :
  Routes.county_query county_name (Some 0) = Routes.county_query county_name None /\
  Routes.get_vehicles_by_county collection county_name page page_size (Some 0)
                                sort_by sort_order =
  Routes.get_vehicles_by_county collection county_name page page_size None
                                sort_by sort_order /\
  (filter (fun d => Validation.model_year d =? 0) small_store = [] /\
   exists r,
     Routes.get_vehicles_by_county (Mongo.Online small_store) "king" 1 20 (Some 0)
                                   Routes.sort_model_year Routes.desc = Routes.Ok r /\
     ApiModels.total_count r = 2).
Proof.
  split; [reflexivity|]. split; [reflexivity|]. split; [reflexivity|].
  eexists. split; vm_compute; reflexivity.
Qed.

(** ** C10: the most common vehicle of a group *)

(** C10, as stated, fails: the three vehicles of a county are three
    distinct pairs that occur once each, so the first of them, X Y, is the
    first most frequent pair; the code counts the rendered labels, two of
    which coincide, and reports that label. *)
Lemma C10_counterexample :
  map (fun d => (Validation.make d, Validation.model d)) colliding_store = colliding_members /\
  option_map Routes.vehicle_key (first_most_frequent_pair colliding_members) = Some "X Y" /\
  Routes.most_common (Routes.vehicle_counts colliding_members) = Some "A B C" /\
  (exists r,
      Routes.analyze_vehicles (Mongo.Online colliding_store) by_county_request = Routes.Ok r /\
      map ApiModels.most_common_vehicle (ApiModels.groups r) = [Some "A B C"]).
Proof.
  split; [reflexivity|]. split; [vm_compute; reflexivity|]. split; [vm_compute; reflexivity|].
  eexists. split; vm_compute; reflexivity.
Qed.

Lemma vehicle_counts_tally (members : list (string * string)) :
  Routes.vehicle_counts members = tally (map Routes.vehicle_key members).
Proof.
  unfold Routes.vehicle_counts, tally.
  generalize (@nil (string * Z)) as acc.
  induction members as [|v t IH]; intros acc; simpl; [reflexivity|apply IH].
Qed.

Lemma tally_snoc (labels : list string) (l : string) :
  tally (labels ++ [l]) = Routes.dict_incr l (tally labels).
Proof. unfold tally. now rewrite fold_left_app. Qed.

Lemma occ_snoc (x l : string) (labels : list string) :
  occ x (labels ++ [l]) = occ x labels + (if String.eqb x l then 1 else 0).
Proof.
  unfold occ, Mongo.count. rewrite filter_app, length_app. simpl.
  destruct (String.eqb x l); simpl; lia.
Qed.

Lemma occ_nonneg (x : string) (labels : list string) : 0 <= occ x labels.
Proof. unfold occ, Mongo.count. lia. Qed.

Lemma occ_pos (x : string) (labels : list string) : In x labels -> 0 < occ x labels.
Proof.
  intros H. unfold occ, Mongo.count.
  assert (Hin : In x (filter (String.eqb x) labels))
    by (apply filter_In; split; [exact H|apply String.eqb_refl]).
  destruct (filter (String.eqb x) labels); [destruct Hin|simpl; lia].
Qed.

Lemma occ_zero (x : string) (labels : list string) : ~ In x labels -> occ x labels = 0.
Proof.
  intros H. unfold occ, Mongo.count.
  destruct (filter (String.eqb x) labels) as [|y t] eqn:E; [reflexivity|].
  exfalso. apply H.
  assert (Hy : In y (filter (String.eqb x) labels)) by (rewrite E; now left).
  apply filter_In in Hy. destruct Hy as [Hy Hxy].
  apply String.eqb_eq in Hxy. now subst.
Qed.

(** [dict_incr] on a dictionary that maps each key [k] to [f k]. *)
Lemma dict_incr_present (f : string -> Z) (l : string) (ks : list string) :
  In l ks -> NoDup ks ->
  Routes.dict_incr l (map (fun k => (k, f k)) ks) =
  map (fun k => (k, f k + (if String.eqb k l then 1 else 0))) ks.
Proof.
  induction ks as [|k t IH]; simpl; [tauto|].
  intros Hin Hnd. inversion Hnd as [|? ? Hk Hnd']; subst.
  destruct (String.eqb k l) eqn:E.
  - apply String.eqb_eq in E; subst k. f_equal.
    apply map_ext_in. intros k Hkt.
    destruct (String.eqb k l) eqn:E'.
    + apply String.eqb_eq in E'; subst. contradiction.
    + f_equal. lia.
  - f_equal; [f_equal; lia|].
    destruct Hin as [->|Hin]; [now rewrite String.eqb_refl in E|]. now apply IH.
Qed.

Lemma dict_incr_absent (f : string -> Z) (l : string) (ks : list string) :
  ~ In l ks ->
  Routes.dict_incr l (map (fun k => (k, f k)) ks) =
  map (fun k => (k, f k + (if String.eqb k l then 1 else 0))) ks ++ [(l, 1)].
Proof.
  induction ks as [|k t IH]; simpl; [reflexivity|].
  intros Hnin. destruct (String.eqb k l) eqn:E.
  - apply String.eqb_eq in E; subst. tauto.
  - f_equal; [f_equal; lia|]. apply IH. tauto.
Qed.

Lemma tally_spec (labels : list string) :
  tally labels = map (fun k => (k, occ k labels)) (first_seen labels) /\
  NoDup (first_seen labels) /\
  (forall k, In k (first_seen labels) <-> In k labels).
Proof.
  induction labels as [|l labels IH] using rev_ind.
  - repeat split; simpl; try constructor; tauto.
  - destruct IH as [Ht [Hnd Hin]].
    unfold first_seen. rewrite tally_snoc, Ht.
    destruct (in_dec string_dec l (first_seen labels)) as [Hl|Hl].
    + rewrite (dict_incr_present _ _ _ Hl Hnd).
      assert (Hk : map fst (map (fun k => (k, occ k labels + (if String.eqb k l then 1 else 0)))
                                (first_seen labels)) = first_seen labels).
      { rewrite map_map. simpl. apply map_id. }
      rewrite Hk. split; [|split].
      * apply map_ext. intros k. now rewrite occ_snoc.
      * exact Hnd.
      * intros k. rewrite in_app_iff, Hin. simpl. split; [tauto|].
        intros [H|[<-|[]]]; [exact H|now apply Hin].
    + rewrite (dict_incr_absent _ _ _ Hl).
      rewrite map_app, map_map. simpl. rewrite map_id.
      split; [|split].
      * rewrite map_app. simpl. f_equal.
        -- apply map_ext. intros k. now rewrite occ_snoc.
        -- rewrite occ_snoc, String.eqb_refl, occ_zero; [reflexivity|].
           intros H. apply Hl. now apply Hin.
      * apply NoDup_app; [exact Hnd|repeat constructor; simpl; tauto|].
        intros x Hx [<-|[]]. contradiction.
      * intros k. rewrite !in_app_iff, Hin. simpl. tauto.
Qed.

Lemma first_seen_snoc (labels : list string) (l : string) :
  first_seen (labels ++ [l]) =
  first_seen labels ++ (if in_dec string_dec l labels then [] else [l]).
Proof.
  destruct (tally_spec labels) as [Ht [Hnd Hin]].
  unfold first_seen at 1. rewrite tally_snoc, Ht.
  destruct (in_dec string_dec l labels) as [Hl|Hl].
  - rewrite dict_incr_present; [|now apply Hin|exact Hnd].
    rewrite map_map. simpl. now rewrite map_id, app_nil_r.
  - rewrite dict_incr_absent; [|intros H; apply Hl; now apply Hin].
    rewrite map_app, map_map. simpl. now rewrite map_id.
Qed.

Lemma find_app_first {A} (p : A -> bool) (l1 l2 : list A) :
  List.find p (l1 ++ l2) =
  match List.find p l1 with
  | Some x => Some x
  | None => List.find p l2
  end.
Proof.
  induction l1 as [|x t IH]; simpl; [reflexivity|].
  destruct (p x); [reflexivity|exact IH].
Qed.

(** The first label that satisfies a test is the same in the order of
    first occurrence and in the order of collection. *)
Lemma find_first_seen (p : string -> bool) (labels : list string) :
  List.find p (first_seen labels) = List.find p labels.
Proof.
  induction labels as [|l labels IH] using rev_ind; [reflexivity|].
  rewrite first_seen_snoc, !find_app_first, IH.
  destruct (List.find p labels) as [x|] eqn:E; [reflexivity|].
  destruct (in_dec string_dec l labels) as [Hl|Hl]; [|reflexivity].
  simpl. now rewrite (find_none _ _ E _ Hl).
Qed.

Lemma find_pointwise {A} (p q : A -> bool) (l : list A) :
  (forall x, p x = q x) -> List.find p l = List.find q l.
Proof.
  intros H. induction l as [|x t IH]; simpl; [reflexivity|].
  rewrite H, IH. reflexivity.
Qed.

Lemma find_split {A} (p : A -> bool) (pre post : list A) (x : A) :
  p x = true -> (forall y, In y pre -> p y = false) ->
  List.find p (pre ++ x :: post) = Some x.
Proof.
  intros Hx Hpre. induction pre as [|y t IH]; simpl.
  - now rewrite Hx.
  - rewrite (Hpre y (or_introl eq_refl)). apply IH.
    intros z Hz. apply Hpre. now right.
Qed.

(** [max_from] returns the first item of greatest value. *)
Lemma max_from_split (items : list (string * Z)) : forall best,
  exists pre post,
    best :: items = pre ++ Routes.max_from best items :: post /\
    (forall y, In y pre -> snd y < snd (Routes.max_from best items)) /\
    (forall y, In y post -> snd y <= snd (Routes.max_from best items)).
Proof.
  induction items as [|x t IH]; intros best; simpl.
  - exists [], []. repeat split; simpl; tauto.
  - destruct (snd best <? snd x) eqn:E.
    + apply Z.ltb_lt in E.
      destruct (IH x) as [pre [post [Heq [Hpre Hpost]]]].
      exists (best :: pre), post. split; [simpl; now rewrite Heq|]. split; [|exact Hpost].
      intros y [<-|Hy]; [|now apply Hpre].
      assert (Hx : In x (pre ++ Routes.max_from x t :: post)) by (rewrite <- Heq; now left).
      apply in_app_iff in Hx. destruct Hx as [Hx|[Hx|Hx]].
      * specialize (Hpre _ Hx). lia.
      * rewrite Hx. exact E.
      * specialize (Hpost _ Hx). lia.
    + apply Z.ltb_ge in E.
      destruct (IH best) as [pre [post [Heq [Hpre Hpost]]]].
      destruct pre as [|p pre'].
      * simpl in Heq. injection Heq as Hb Ht.
        exists [], (x :: post). split; [simpl; congruence|].
        split; [simpl; tauto|].
        intros y [<-|Hy]; [rewrite <- Hb; exact E|now apply Hpost].
      * simpl in Heq. injection Heq as Hb Ht.
        exists (best :: x :: pre'), post. split; [simpl; do 2 f_equal; exact Ht|].
        split; [|exact Hpost].
        assert (Hbest : snd best < snd (Routes.max_from best t))
          by (apply Hpre; left; now rewrite Hb).
        intros y [<-|[<-|Hy]]; [exact Hbest|lia|apply Hpre; now right].
Qed.

Lemma forallb_same_elements {A} (p : A -> bool) (l1 l2 : list A) :
  (forall x, In x l1 <-> In x l2) -> forallb p l1 = forallb p l2.
Proof.
  intros H. apply eq_true_iff_eq. rewrite !forallb_forall.
  split; intros Hp x Hx; apply Hp; now apply H.
Qed.

(** On a dictionary that maps each of its distinct keys [k] to [f k],
    [most_common] is the first key of greatest value. *)
Lemma most_common_first_max (f : string -> Z) (ks : list string) :
  Routes.most_common (map (fun k => (k, f k)) ks) =
  List.find (fun k => forallb (fun k' => f k' <=? f k) ks) ks.
Proof.
  destruct ks as [|k0 ks']; [reflexivity|].
  set (ks := k0 :: ks'). set (g := fun k : string => (k, f k)).
  change (Routes.most_common (map g ks)) with
    (Some (fst (Routes.max_from (g k0) (map g ks')))).
  destruct (max_from_split (map g ks') (g k0)) as [pre [post [Heq [Hpre Hpost]]]].
  set (r := Routes.max_from (g k0) (map g ks')) in *.
  change (g k0 :: map g ks') with (map g ks) in Heq.
  assert (Hg : forall y, In y (map g ks) -> snd y = f (fst y)).
  { intros y Hy. apply in_map_iff in Hy. destruct Hy as [k [<- _]]. reflexivity. }
  assert (Hr : In r (map g ks)) by (rewrite Heq; apply in_app_iff; right; now left).
  assert (Hks : ks = map fst pre ++ fst r :: map fst post).
  { transitivity (map fst (map g ks)).
    - rewrite map_map. simpl. now rewrite map_id.
    - rewrite Heq, map_app. reflexivity. }
  set (P := fun k => forallb (fun k' => f k' <=? f k) ks).
  assert (Hfr : In (fst r) ks) by (rewrite Hks; apply in_app_iff; right; now left).
  rewrite Hks. symmetry. apply find_split; unfold P.
  - apply forallb_forall. intros k' Hk'. apply Z.leb_le.
    assert (Hk : In (g k') (map g ks)) by now apply in_map.
    rewrite <- (Hg r Hr). rewrite Heq in Hk. apply in_app_iff in Hk.
    destruct Hk as [Hk|[Hk|Hk]].
    + specialize (Hpre _ Hk). simpl in Hpre. lia.
    + rewrite Hk. simpl. lia.
    + specialize (Hpost _ Hk). simpl in Hpost. lia.
  - intros y Hy. apply in_map_iff in Hy. destruct Hy as [p [<- Hp]].
    apply not_true_is_false. intros Hall.
    rewrite forallb_forall in Hall.
    specialize (Hall _ Hfr). apply Z.leb_le in Hall.
    assert (Hpin : In p (map g ks)) by (rewrite Heq; apply in_app_iff; now left).
    rewrite <- (Hg p Hpin), <- (Hg r Hr) in Hall.
    specialize (Hpre _ Hp). lia.
Qed.

(** The code's choice is the specified one: the first label, in the order
    of collection, whose frequency no label exceeds. *)
Lemma most_common_is_first_most_frequent (members : list (string * string)) :
  Routes.most_common (Routes.vehicle_counts members) =
  first_most_frequent (map Routes.vehicle_key members).
Proof.
  rewrite vehicle_counts_tally.
  set (labels := map Routes.vehicle_key members).
  destruct (tally_spec labels) as [Ht [Hnd Hin]].
  rewrite Ht, most_common_first_max.
  unfold first_most_frequent.
  rewrite <- (find_first_seen
                (fun l => forallb (fun l' => occ l' labels <=? occ l labels) labels) labels).
  apply find_pointwise. intros k. now apply forallb_same_elements.
Qed.

(** C10, amended.  In every answer of the analyze operation the groups
    are the grouped documents in order, and the [most_common_vehicle] of
    each is the first label "MAKE MODEL", in the order the members of the
    group were collected, whose number of occurrences among the labels of
    the group no other label exceeds; frequency is counted on labels.
    The answer is a function of the stored documents, their order and the
    request. *)
Theorem C10_most_common_tie_break
        (docs : list Mongo.Document) (request : ApiModels.AnalyzeRequest)
        (r : ApiModels.AnalyzeResponse) :
  Routes.analyze_vehicles (Mongo.Online docs) request = Routes.Ok r ->
  Forall2 (fun doc g =>
             ApiModels.group_value g = Routes.key_str (fst doc) /\
             ApiModels.most_common_vehicle g = first_most_frequent (member_labels (snd doc)))
          (analyze_results docs request) (ApiModels.groups r) /\
  (forall r', Routes.analyze_vehicles (Mongo.Online docs) request = Routes.Ok r' ->
              map ApiModels.most_common_vehicle (ApiModels.groups r') =
              map ApiModels.most_common_vehicle (ApiModels.groups r)).
Proof.
  intros H. split.
  - rewrite (analyze_ok _ _ _ H). apply Forall2_map_right.
    intros doc _. split; [reflexivity|].
    unfold Routes.group_statistics. cbn [ApiModels.most_common_vehicle].
    rewrite most_common_is_first_most_frequent. unfold member_labels.
    now rewrite map_map.
  - intros r' H'. rewrite H in H'. now inversion H'.
Qed.

Lemma C10_most_common_tie_break_witness :
  Routes.analyze_vehicles (Mongo.Online tied_store) by_county_request = Routes.Ok tied_answer /\
  Forall2 (fun doc g =>
             ApiModels.group_value g = Routes.key_str (fst doc) /\
             ApiModels.most_common_vehicle g = first_most_frequent (member_labels (snd doc)))
          (analyze_results tied_store by_county_request) (ApiModels.groups tied_answer).
Proof.
  assert (H : Routes.analyze_vehicles (Mongo.Online tied_store) by_county_request =
              Routes.Ok tied_answer) by (vm_compute; reflexivity).
  exact (conj H (proj1 (C10_most_common_tie_break tied_store by_county_request tied_answer H))).
Defined.

(* ================================================================== *)
(** * Further properties of the code *)
(* ================================================================== *)

(** ** Text: trimming and upper case *)

Lemma is_space_upper_char (c : ascii) :
  PyStr.is_space (PyStr.upper_char c) = PyStr.is_space c.
Proof. destruct c as [[] [] [] [] [] [] [] []]; reflexivity. Qed.

Lemma lstrip_upper (s : string) : PyStr.lstrip (PyStr.upper s) = PyStr.upper (PyStr.lstrip s).
Proof.
  induction s as [|c t IH]; simpl; [reflexivity|].
  rewrite is_space_upper_char. destruct (PyStr.is_space c); [exact IH|reflexivity].
Qed.

Lemma rstrip_upper (s : string) : PyStr.rstrip (PyStr.upper s) = PyStr.upper (PyStr.rstrip s).
Proof.
  induction s as [|c t IH]; simpl; [reflexivity|].
  rewrite IH, is_space_upper_char.
  destruct (PyStr.rstrip t) as [|d t']; simpl; [|reflexivity].
  destruct (PyStr.is_space c); reflexivity.
Qed.

Lemma strip_upper (s : string) : PyStr.strip (PyStr.upper s) = PyStr.upper (PyStr.strip s).
Proof. unfold PyStr.strip. now rewrite lstrip_upper, rstrip_upper. Qed.

Lemma rstrip_idempotent (s : string) : PyStr.rstrip (PyStr.rstrip s) = PyStr.rstrip s.
Proof.
  induction s as [|c t IH]; simpl; [reflexivity|].
  destruct (PyStr.rstrip t) as [|d t'] eqn:E.
  - destruct (PyStr.is_space c) eqn:Ec; simpl; [reflexivity|]. now rewrite Ec.
  - cbn [PyStr.rstrip]. cbn [PyStr.rstrip] in IH. rewrite IH. reflexivity.
Qed.

(** A string that begins with a character other than white space keeps
    it when trimmed on the right. *)
Lemma rstrip_head (c : ascii) (t : string) :
  PyStr.is_space c = false -> exists t', PyStr.rstrip (String c t) = String c t'.
Proof.
  intros Hc. simpl. destruct (PyStr.rstrip t); [rewrite Hc|]; eauto.
Qed.

Lemma lstrip_head (s : string) :
  PyStr.lstrip s = "" \/ exists c t, PyStr.lstrip s = String c t /\ PyStr.is_space c = false.
Proof.
  induction s as [|c t IH]; simpl; [now left|].
  destruct (PyStr.is_space c) eqn:E; [exact IH|]. right. eauto.
Qed.

Lemma strip_idempotent (s : string) : PyStr.strip (PyStr.strip s) = PyStr.strip s.
Proof.
  unfold PyStr.strip.
  assert (H : PyStr.lstrip (PyStr.rstrip (PyStr.lstrip s)) = PyStr.rstrip (PyStr.lstrip s)).
  { destruct (lstrip_head s) as [->|[c [t [-> Hc]]]]; [reflexivity|].
    destruct (rstrip_head c t Hc) as [t' ->]. simpl. now rewrite Hc. }
  rewrite H. apply rstrip_idempotent.
Qed.

Lemma normalized_text_upper_strip (s : string) :
  normalized_text (PyStr.upper (PyStr.strip s)).
Proof.
  split; [apply upper_idempotent|].
  now rewrite strip_upper, strip_idempotent.
Qed.

Lemma check_normalized_fixed (s : string) :
  normalized_text s -> Validation.check_normalized (VStr s) = Validation.FOk s.
Proof.
  intros [Hu Hs]. unfold Validation.check_normalized. simpl. now rewrite Hs, Hu.
Qed.

(** X1.  [normalize_strings] is idempotent: applying it to its own result
    changes nothing, and the text it returns is in upper case with no
    white space at either end. *)
Theorem X1_normalize_strings_idempotent :
  (forall v, Validation.normalize_strings (Validation.normalize_strings v) =
             Validation.normalize_strings v) /\
  (forall s t, Validation.normalize_strings (VStr s) = VStr t ->
               PyStr.upper t = t /\ PyStr.strip t = t).
Proof.
  split.
  - intros [|z|f|s]; try reflexivity. simpl.
    destruct (normalized_text_upper_strip s) as [Hu Hs]. now rewrite Hs, Hu.
  - intros s t H. simpl in H. inversion H; subst. apply normalized_text_upper_strip.
Qed.

(** ** Validation: the fields of a valid record *)

Lemma validate_ev_type_cases (v : string) :
  (Validation.validate_ev_type v = v /\
   (PyStr.mem v Validation.valid_types = true \/
    (PyStr.contains "BEV" (PyStr.upper v) = false /\
     PyStr.contains "PHEV" (PyStr.upper v) = false))) \/
  Validation.validate_ev_type v = Validation.BEV_LABEL \/
  Validation.validate_ev_type v = Validation.PHEV_LABEL.
Proof.
  unfold Validation.validate_ev_type.
  destruct (PyStr.mem v Validation.valid_types); simpl; [auto|].
  destruct (PyStr.contains "BEV" (PyStr.upper v)); [auto|].
  destruct (PyStr.contains "PHEV" (PyStr.upper v)); auto.
Qed.

Lemma validate_ev_type_idempotent (v : string) :
  Validation.validate_ev_type (Validation.validate_ev_type v) = Validation.validate_ev_type v.
Proof.
  destruct (validate_ev_type_cases v) as [[H _]|[H|H]]; rewrite H; [exact H| |]; reflexivity.
Qed.

(** The result of the check of [electric_vehicle_type] on a text. *)
Lemma check_ev_type_result (s t : string) :
  Validation.check_ev_type (VStr s) = Validation.FOk t ->
  normalized_text t /\ settled_type t.
Proof.
  rewrite check_ev_type_text. cbv zeta.
  pose proof (normalized_text_upper_strip s) as Hn.
  set (v := PyStr.upper (PyStr.strip s)) in *.
  destruct (PyStr.mem v Validation.valid_types) eqn:Em.
  - intros H; inversion H; subst. split; [exact Hn|now left].
  - destruct (PyStr.contains "BEV" v) eqn:Eb.
    + intros H; inversion H; subst. split; [split; reflexivity|left; reflexivity].
    + destruct (PyStr.contains "PHEV" v) eqn:Ep.
      * intros H; inversion H; subst. split; [split; reflexivity|left; reflexivity].
      * intros H; inversion H; subst. split; [exact Hn|right; auto].
Qed.

Lemma check_ev_type_fixed (t : string) :
  normalized_text t -> settled_type t ->
  Validation.check_ev_type (VStr t) = Validation.FOk t.
Proof.
  intros [Hu Hs] Ht. rewrite check_ev_type_text. cbv zeta. rewrite Hs, Hu.
  destruct Ht as [Hm|[Hb Hp]].
  - now rewrite Hm.
  - rewrite Hb, Hp. now destruct (PyStr.mem t Validation.valid_types).
Qed.

Lemma check_bounds_inside (lo hi z : Z) :
  lo <= z <= hi -> Validation.check_bounds (Some lo) (Some hi) z = Validation.FOk z.
Proof.
  intros H. unfold Validation.check_bounds.
  assert (H1 : (z <? lo) = false) by (apply Z.ltb_ge; lia).
  assert (H2 : (hi <? z) = false) by (apply Z.ltb_ge; lia).
  now rewrite H1, H2.
Qed.

Lemma check_bounds_result (lo hi z z' : Z) :
  Validation.check_bounds (Some lo) (Some hi) z = Validation.FOk z' -> z' = z /\ lo <= z <= hi.
Proof.
  unfold Validation.check_bounds.
  destruct (z <? lo) eqn:E1; [discriminate|]. destruct (hi <? z) eqn:E2; [discriminate|].
  apply Z.ltb_ge in E1, E2. intros H; inversion H; subst. lia.
Qed.

Lemma check_model_year_result (v : PyVal) (y : Z) :
  Validation.check_model_year v = Validation.FOk y -> 1997 <= y <= 2026.
Proof.
  unfold Validation.check_model_year, Validation.bindF.
  destruct (Validation.check_int v) as [z|t|e]; try discriminate.
  intros H. apply check_bounds_result in H. lia.
Qed.

Lemma check_normalized_result (v : PyVal) (t : string) :
  Validation.check_normalized v = Validation.FOk t -> normalized_text t.
Proof.
  unfold Validation.check_normalized.
  destruct v as [|z|f|s]; simpl; try discriminate.
  intros H; inversion H; subst. apply normalized_text_upper_strip.
Qed.

Lemma check_ev_type_ok (v : PyVal) (t : string) :
  Validation.check_ev_type v = Validation.FOk t -> normalized_text t /\ settled_type t.
Proof.
  destruct v as [|z|f|s]; try (unfold Validation.check_ev_type; simpl; discriminate).
  apply check_ev_type_result.
Qed.

Lemma required_ok {A} (chk : PyVal -> Validation.FieldRes A) (n : string) (data : PyDict) (a : A) :
  Validation.required chk n data = Validation.FOk a ->
  exists v, lookup n data = Some v /\ chk v = Validation.FOk a.
Proof. unfold Validation.required. destruct (lookup n data); [eauto|discriminate]. Qed.

Lemma field_ok {A} (x : Validation.FieldRes A) (d : A) :
  (forall t, Validation.status x <> Validation.FErr t) ->
  (forall e, Validation.status x <> Validation.FRaise e) ->
  x = Validation.FOk (Validation.val d x).
Proof.
  destruct x as [a|t|e]; simpl; intros H1 H2.
  - reflexivity.
  - now destruct (H1 t).
  - now destruct (H2 e).
Qed.

Lemma valid_fields (data : PyDict) (r : Validation.VehicleRecord) :
  Validation.validate data = Validation.Valid r -> fields_ok data r.
Proof.
  intros Hv. destruct (valid_no_failed_field data r Hv) as [-> Hall].
  unfold fields_ok. cbn [Validation.build Validation.vin_1_10 Validation.county
    Validation.city Validation.state Validation.postal_code Validation.model_year
    Validation.make Validation.model Validation.electric_vehicle_type
    Validation.cafv_eligibility Validation.electric_range Validation.base_msrp
    Validation.legislative_district Validation.dol_vehicle_id Validation.vehicle_location
    Validation.electric_utility Validation.census_tract_2020].
  repeat match goal with
  | |- _ /\ _ => split
  end;
  match goal with
  | |- ?x = Validation.FOk (Validation.val ?d ?x) =>
      apply field_ok;
      match goal with
      | |- forall _, Validation.status ?y <> _ =>
          refine (_ (Hall _ (Validation.status y) _));
          [ intros [H1 H2]; first [exact H1|exact H2]
          | unfold Validation.field_status; cbn [In]; pick_member ]
      end
  end.
Qed.

Lemma fields_valid (data : PyDict) (r : Validation.VehicleRecord) :
  fields_ok data r -> Validation.validate data = Validation.Valid r.
Proof.
  unfold fields_ok.
  intros [H1 [H2 [H3 [H4 [H5 [H6 [H7 [H8 [H9 [H10 [H11 [H12 [H13 [H14 [H15 [H16 H17]]]]]]]]]]]]]]]].
  unfold Validation.validate, Validation.escaping, Validation.errors_of,
    Validation.field_status, Validation.build.
  rewrite H1, H2, H3, H4, H5, H6, H7, H8, H9, H10, H11, H12, H13, H14, H15, H16, H17.
  destruct r; reflexivity.
Qed.

(** X2.  [validate_ev_type] is idempotent, and the check of
    [electric_vehicle_type] settles the type: its result is in upper case
    without white space at either end, it is one of the four accepted
    forms or names neither BEV nor PHEV, and checking the result again
    returns it unchanged. *)
Theorem X2_ev_type_settled :
  (forall v, Validation.validate_ev_type (Validation.validate_ev_type v) =
             Validation.validate_ev_type v) /\
  (forall v t, Validation.check_ev_type v = Validation.FOk t ->
     (PyStr.upper t = t /\ PyStr.strip t = t) /\
     (PyStr.mem t Validation.valid_types = true \/
      (PyStr.contains "BEV" t = false /\ PyStr.contains "PHEV" t = false)) /\
     Validation.check_ev_type (VStr t) = Validation.FOk t).
Proof.
  split; [exact validate_ev_type_idempotent|].
  intros v t H. destruct (check_ev_type_ok v t H) as [Hn Hs].
  split; [exact Hn|]. split; [exact Hs|]. now apply check_ev_type_fixed.
Qed.

Lemma valid_record_shape (data : PyDict) (r : Validation.VehicleRecord) :
  Validation.validate data = Validation.Valid r ->
  1997 <= Validation.model_year r <= 2026 /\
  normalized_text (Validation.county r) /\
  normalized_text (Validation.city r) /\
  normalized_text (Validation.make r) /\
  normalized_text (Validation.model r) /\
  normalized_text (Validation.electric_vehicle_type r) /\
  settled_type (Validation.electric_vehicle_type r).
Proof.
  intros Hv. apply valid_fields in Hv. unfold fields_ok in Hv.
  destruct Hv as [_ [H2 [H3 [_ [_ [H6 [H7 [H8 [H9 _]]]]]]]]].
  apply required_ok in H2, H3, H6, H7, H8, H9.
  destruct H2 as [v2 [_ H2]], H3 as [v3 [_ H3]], H6 as [v6 [_ H6]],
           H7 as [v7 [_ H7]], H8 as [v8 [_ H8]], H9 as [v9 [_ H9]].
  apply check_normalized_result in H2, H3, H7, H8.
  apply check_model_year_result in H6. apply check_ev_type_ok in H9.
  tauto.
Qed.

(** X3.  In every record that passes validation the model year lies in
    1997..2026, and county, city, make, model and vehicle type are in
    upper case with no white space at either end. *)
Theorem X3_valid_record_shape (data : PyDict) (r : Validation.VehicleRecord) :
  Validation.validate data = Validation.Valid r ->
  1997 <= Validation.model_year r <= 2026 /\
  Forall (fun s => PyStr.upper s = s /\ PyStr.strip s = s)
         [Validation.county r; Validation.city r; Validation.make r; Validation.model r;
          Validation.electric_vehicle_type r].
Proof.
  intros Hv. destruct (valid_record_shape data r Hv) as [Hy [H1 [H2 [H3 [H4 [H5 _]]]]]].
  split; [exact Hy|]. repeat constructor; first [apply H1|apply H2|apply H3|apply H4|apply H5].
Qed.

Lemma X3_valid_record_shape_witness :
  1997 <= Validation.model_year (Validation.build king_record) <= 2026 /\
  Forall (fun s => PyStr.upper s = s /\ PyStr.strip s = s)
         [Validation.county (Validation.build king_record);
          Validation.city (Validation.build king_record);
          Validation.make (Validation.build king_record);
          Validation.model (Validation.build king_record);
          Validation.electric_vehicle_type (Validation.build king_record)].
Proof.
  apply (X3_valid_record_shape king_record). vm_compute. reflexivity.
Defined.

Lemma check_opt_str_fixed (o : option string) :
  Validation.check_opt_str (opt_text o) = Validation.FOk o.
Proof. destruct o; reflexivity. Qed.

Lemma check_numeric_na_fixed (z : Z) :
  0 <= z < 2 ^ 53 -> Validation.check_numeric_na (VInt z) = Validation.FOk z.
Proof.
  intros Hz. unfold Validation.check_numeric_na.
  rewrite handle_numeric_na_int by lia.
  cbn [Validation.check_int Validation.bindF]. unfold Validation.check_bounds.
  assert (H : (z <? 0) = false) by (apply Z.ltb_ge; lia). now rewrite H.
Qed.

Lemma dumped_fields_ok (r : Validation.VehicleRecord) :
  1997 <= Validation.model_year r <= 2026 ->
  normalized_text (Validation.county r) ->
  normalized_text (Validation.city r) ->
  normalized_text (Validation.make r) ->
  normalized_text (Validation.model r) ->
  normalized_text (Validation.electric_vehicle_type r) ->
  settled_type (Validation.electric_vehicle_type r) ->
  0 <= Validation.electric_range r < 2 ^ 53 ->
  0 <= Validation.base_msrp r < 2 ^ 53 ->
  fields_ok (model_dump r) r.
Proof.
  intros Hy Hc Hci Hma Hmo Het Hes Her Hbm.
  unfold fields_ok, model_dump,
    Validation.f_vin_1_10, Validation.f_county, Validation.f_city, Validation.f_state,
    Validation.f_postal_code, Validation.f_model_year, Validation.f_make, Validation.f_model,
    Validation.f_electric_vehicle_type, Validation.f_cafv_eligibility,
    Validation.f_electric_range, Validation.f_base_msrp, Validation.f_legislative_district,
    Validation.f_dol_vehicle_id, Validation.f_vehicle_location, Validation.f_electric_utility,
    Validation.f_census_tract_2020, Validation.required, Validation.with_default.
  cbn [lookup String.eqb Ascii.eqb Bool.eqb].
  repeat match goal with |- _ /\ _ => split end;
    first [ reflexivity
          | apply check_opt_str_fixed
          | now apply check_normalized_fixed
          | now apply check_ev_type_fixed
          | now apply check_numeric_na_fixed
          | idtac ].
  unfold Validation.check_model_year. cbn [Validation.check_int Validation.bindF].
  now apply check_bounds_inside.
Qed.

(** X4.  Validation is stable on its own output: a record that passed
    validation, written out with [model_dump] and validated again, gives
    the same record, as long as its electric range and base price are
    below [2^53] (the integers that [int(float(v))] returns unchanged). *)
Theorem X4_validate_model_dump (data : PyDict) (r : Validation.VehicleRecord) :
  Validation.validate data = Validation.Valid r ->
  Validation.electric_range r < 2 ^ 53 ->
  Validation.base_msrp r < 2 ^ 53 ->
  Validation.validate (model_dump r) = Validation.Valid r.
Proof.
  intros Hv Her Hbm. apply fields_valid.
  destruct (valid_record_shape data r Hv) as [Hy [H1 [H2 [H3 [H4 [H5 H6]]]]]].
  destruct (valid_ranges_nonneg data r Hv) as [H7 H8].
  apply dumped_fields_ok; auto; lia.
Qed.

Lemma X4_validate_model_dump_witness :
  Validation.validate (model_dump (Validation.build king_record)) =
    Validation.Valid (Validation.build king_record).
Proof.
  apply (X4_validate_model_dump king_record); vm_compute; reflexivity.
Defined.

(** ** The stages of the aggregation pipeline *)

Lemma sum_app (l1 l2 : list Z) : Mongo.sum (l1 ++ l2) = Mongo.sum l1 + Mongo.sum l2.
Proof. induction l1 as [|x t IH]; simpl; [reflexivity|]. rewrite IH. lia. Qed.

Lemma sum_nonneg (l : list Z) : Forall (fun z => 0 <= z) l -> 0 <= Mongo.sum l.
Proof. induction 1; simpl; lia. Qed.

Lemma count_nonneg {A} (l : list A) : 0 <= Mongo.count l.
Proof. unfold Mongo.count. lia. Qed.

Lemma count_cons {A} (x : A) (l : list A) : Mongo.count (x :: l) = 1 + Mongo.count l.
Proof. unfold Mongo.count. cbn [List.length]. lia. Qed.

Lemma count_app {A} (l1 l2 : list A) : Mongo.count (l1 ++ l2) = Mongo.count l1 + Mongo.count l2.
Proof. unfold Mongo.count. rewrite length_app. lia. Qed.

Lemma sum_map_zero {A} (f : A -> Z) (l : list A) :
  (forall x, f x = 0) -> Mongo.sum (map f l) = 0.
Proof. intros H. induction l as [|x t IH]; simpl; [reflexivity|]. rewrite H, IH. reflexivity. Qed.

Lemma sum_map_add {A} (f g : A -> Z) (l : list A) :
  Mongo.sum (map (fun x => f x + g x) l) = Mongo.sum (map f l) + Mongo.sum (map g l).
Proof. induction l as [|x t IH]; simpl; [reflexivity|]. rewrite IH. lia. Qed.

Section GroupFacts.
Context {K : Type} (eqb : K -> K -> bool).
Hypothesis eqb_eq : forall x y, eqb x y = true <-> x = y.

Lemma eqb_refl_K (x : K) : eqb x x = true.
Proof. now apply eqb_eq. Qed.

Lemma distinct_In (l : list K) (x : K) : In x (Mongo.distinct eqb l) <-> In x l.
Proof.
  induction l as [|y t IH]; simpl; [tauto|].
  rewrite filter_In, IH. split.
  - intros [H|[H _]]; auto.
  - intros [H|H]; [now left|].
    destruct (eqb y x) eqn:E; [left; now apply eqb_eq|right; auto].
Qed.

Lemma distinct_NoDup (l : list K) : NoDup (Mongo.distinct eqb l).
Proof.
  induction l as [|y t IH]; simpl; constructor.
  - rewrite filter_In. intros [_ H]. now rewrite eqb_refl_K in H.
  - now apply NoDup_filter.
Qed.

Lemma group_keys {A} (key : A -> K) (docs : list A) :
  map fst (Mongo.group eqb key docs) = Mongo.distinct eqb (map key docs).
Proof. unfold Mongo.group. rewrite map_map. simpl. apply map_id. Qed.

Lemma group_In {A} (key : A -> K) (docs : list A) (g : K * list A) :
  In g (Mongo.group eqb key docs) <->
  In (fst g) (map key docs) /\ snd g = filter (fun d => eqb (key d) (fst g)) docs.
Proof.
  unfold Mongo.group. rewrite in_map_iff. split.
  - intros [k [<- Hk]]. simpl. split; [now apply distinct_In|reflexivity].
  - intros [Hk Hs]. exists (fst g). split; [|now apply distinct_In].
    destruct g; simpl in *; now subst.
Qed.

(** Every group holds at least one document. *)
Lemma group_nonempty {A} (key : A -> K) (docs : list A) (g : K * list A) :
  In g (Mongo.group eqb key docs) -> 1 <= Mongo.count (snd g).
Proof.
  intros H. apply group_In in H. destruct H as [Hk ->].
  apply in_map_iff in Hk. destruct Hk as [d [Hd Hin]].
  assert (Hf : In d (filter (fun d => eqb (key d) (fst g)) docs)).
  { apply filter_In. split; [exact Hin|]. now apply eqb_eq. }
  unfold Mongo.count. destruct (filter _ docs); [destruct Hf|simpl; lia].
Qed.

Lemma indicator_absent (x : K) (ks : list K) :
  ~ In x ks -> Mongo.sum (map (fun k => if eqb x k then 1 else 0) ks) = 0.
Proof.
  induction ks as [|k t IH]; simpl; [reflexivity|]. intros H.
  destruct (eqb x k) eqn:E; [apply eqb_eq in E; subst; exfalso; apply H; now left|].
  rewrite IH; [reflexivity|]. intros Hin. apply H. now right.
Qed.

Lemma indicator_present (x : K) (ks : list K) :
  NoDup ks -> In x ks -> Mongo.sum (map (fun k => if eqb x k then 1 else 0) ks) = 1.
Proof.
  induction 1 as [|k t Hk Hnd IH]; simpl; [tauto|]. intros [->|Hin].
  - rewrite eqb_refl_K, indicator_absent by exact Hk. reflexivity.
  - destruct (eqb x k) eqn:E; [apply eqb_eq in E; subst; contradiction|]. now rewrite IH.
Qed.

Lemma filter_count_sum {A} (key : A -> K) (docs : list A) (ks : list K) :
  NoDup ks -> (forall d, In d docs -> In (key d) ks) ->
  Mongo.sum (map (fun k => Mongo.count (filter (fun d => eqb (key d) k) docs)) ks) =
    Mongo.count docs.
Proof.
  intros Hnd. induction docs as [|d t IH]; intros Hin.
  - apply sum_map_zero. reflexivity.
  - rewrite count_cons, <- IH by (intros d' Hd'; apply Hin; now right).
    rewrite <- (indicator_present (key d) ks Hnd) by (apply Hin; now left).
    rewrite <- sum_map_add. f_equal. apply map_ext. intros k. cbn [filter].
    destruct (eqb (key d) k); [rewrite count_cons|]; lia.
Qed.

(** The groups partition the documents: their sizes add up to the number
    of documents. *)
Lemma group_count_sum {A} (key : A -> K) (docs : list A) :
  Mongo.sum (map (fun g => Mongo.count (snd g)) (Mongo.group eqb key docs)) = Mongo.count docs.
Proof.
  unfold Mongo.group. rewrite map_map. simpl.
  apply filter_count_sum; [apply distinct_NoDup|].
  intros d Hd. apply distinct_In. now apply in_map.
Qed.

End GroupFacts.

Section SortFacts.
Context {A : Type} (le : A -> A -> bool).

Lemma insert_sorted_perm (x : A) (l : list A) :
  Permutation (x :: l) (Mongo.insert_sorted le x l).
Proof.
  induction l as [|y t IH]; simpl; [reflexivity|].
  destruct (le x y); [reflexivity|].
  rewrite perm_swap. now constructor.
Qed.

Lemma sort_perm (l : list A) : Permutation l (Mongo.sort le l).
Proof.
  induction l as [|x t IH]; simpl; [constructor|].
  rewrite <- insert_sorted_perm. now constructor.
Qed.

Hypothesis le_total : forall x y, le x y = true \/ le y x = true.
Hypothesis le_trans : forall x y z, le x y = true -> le y z = true -> le x z = true.

Lemma insert_sorted_sorted (x : A) (l : list A) :
  StronglySorted (fun a b => le a b = true) l ->
  StronglySorted (fun a b => le a b = true) (Mongo.insert_sorted le x l).
Proof.
  induction 1 as [|y t Hs IH Hy]; simpl.
  - constructor; constructor.
  - destruct (le x y) eqn:E.
    + constructor; [now constructor|].
      constructor; [exact E|]. rewrite Forall_forall in *. intros z Hz. eauto.
    + constructor; [exact IH|].
      assert (Hyx : le y x = true) by (destruct (le_total x y); congruence).
      rewrite Forall_forall in *. intros z Hz.
      apply (Permutation_in _ (Permutation_sym (insert_sorted_perm x t))) in Hz.
      destruct Hz as [<-|Hz]; auto.
Qed.

Lemma sort_sorted (l : list A) : StronglySorted (fun a b => le a b = true) (Mongo.sort le l).
Proof.
  induction l as [|x t IH]; simpl; [constructor|]. now apply insert_sorted_sorted.
Qed.

End SortFacts.

Lemma sum_map_perm {A} (f : A -> Z) (l1 l2 : list A) :
  Permutation l1 l2 -> Mongo.sum (map f l1) = Mongo.sum (map f l2).
Proof. induction 1; simpl; lia. Qed.

Lemma StronglySorted_map {A B} (R : B -> B -> Prop) (f : A -> B) (l : list A) :
  StronglySorted (fun a b => R (f a) (f b)) l -> StronglySorted R (map f l).
Proof.
  induction 1 as [|x t Hs IH Hx]; simpl; constructor; [exact IH|].
  rewrite Forall_forall in *. intros y Hy. apply in_map_iff in Hy.
  destruct Hy as [a [<- Ha]]. auto.
Qed.

Lemma In_firstn {A} (x : A) (n : nat) (l : list A) : In x (firstn n l) -> In x l.
Proof.
  revert l. induction n as [|n IH]; intros [|y t]; simpl; try tauto.
  intros [H|H]; auto.
Qed.

Lemma In_skipn {A} (x : A) (n : nat) (l : list A) : In x (skipn n l) -> In x l.
Proof.
  revert l. induction n as [|n IH]; intros [|y t]; simpl; try tauto.
  intros H. right. auto.
Qed.

Lemma StronglySorted_firstn {A} (R : A -> A -> Prop) (n : nat) (l : list A) :
  StronglySorted R l -> StronglySorted R (firstn n l).
Proof.
  intros H. revert n. induction H as [|x t Hs IH Hx]; intros [|n]; simpl; try constructor.
  - apply IH.
  - rewrite Forall_forall in *. intros y Hy. apply Hx. eapply In_firstn; eauto.
Qed.

Lemma StronglySorted_impl {A} (R S : A -> A -> Prop) (l : list A) :
  (forall a b, R a b -> S a b) -> StronglySorted R l -> StronglySorted S l.
Proof.
  intros HRS. induction 1 as [|x t Hs IH Hx]; constructor; [exact IH|].
  eapply Forall_impl; [|exact Hx]. intros; auto.
Qed.

(** The grouped documents in descending order of size. *)
Lemma sort_count_desc_sorted {K A} (l : list (K * list A)) :
  StronglySorted (fun a b => Mongo.count (snd b) <= Mongo.count (snd a))
                 (Mongo.sort_count_desc l).
Proof.
  unfold Mongo.sort_count_desc.
  eapply StronglySorted_impl; [|apply sort_sorted].
  - intros a b H. now apply Z.leb_le in H.
  - intros x y. destruct (Z.leb_spec (Mongo.count (snd y)) (Mongo.count (snd x))); auto.
    right. apply Z.leb_le. lia.
  - intros x y z H1 H2. apply Z.leb_le in H1, H2. apply Z.leb_le. lia.
Qed.

Lemma sort_count_desc_sum {K A} (l : list (K * list A)) :
  Mongo.sum (map (fun g => Mongo.count (snd g)) (Mongo.sort_count_desc l)) =
  Mongo.sum (map (fun g => Mongo.count (snd g)) l).
Proof. symmetry. apply sum_map_perm. apply sort_perm. Qed.

(** ** The answers of the query operations: totals and order *)

Lemma string_eqb_iff (x y : string) : String.eqb x y = true <-> x = y.
Proof. apply String.eqb_eq. Qed.

Lemma key_eqb_iff (a b : Routes.GroupKey) : Routes.key_eqb a b = true <-> a = b.
Proof.
  destruct a, b; simpl; split; intros H; try discriminate; try reflexivity.
  - apply String.eqb_eq in H. now subst.
  - inversion H. apply String.eqb_refl.
  - apply Z.eqb_eq in H. now subst.
  - inversion H. apply Z.eqb_refl.
Qed.

Lemma StronglySorted_app_inv {A} (R : A -> A -> Prop) (l1 l2 : list A) :
  StronglySorted R (l1 ++ l2) -> forall a b, In a l1 -> In b l2 -> R a b.
Proof.
  induction l1 as [|x t IH]; simpl; intros H a b Ha Hb; [destruct Ha|].
  apply StronglySorted_inv in H. destruct H as [Hs Hx].
  destruct Ha as [<-|Ha]; [|now apply IH].
  rewrite Forall_forall in Hx. apply Hx. apply in_or_app. now right.
Qed.

Lemma firstn_length_le {A} (n : nat) (l : list A) : (List.length (firstn n l) <= n)%nat.
Proof. rewrite length_firstn. lia. Qed.

Lemma sum_firstn_le (l : list Z) (n : nat) :
  Forall (fun z => 0 <= z) l -> Mongo.sum (firstn n l) <= Mongo.sum l.
Proof.
  intros H. rewrite <- (firstn_skipn n l) at 2. rewrite sum_app.
  assert (0 <= Mongo.sum (skipn n l)); [|lia].
  apply sum_nonneg. rewrite Forall_forall in *. intros z Hz. apply H.
  eapply In_skipn; eauto.
Qed.

Lemma sorted_groups_In {K A} (eqb : K -> K -> bool) (key : A -> K) (docs : list A)
      (g : K * list A) :
  In g (Mongo.sort_count_desc (Mongo.group eqb key docs)) <-> In g (Mongo.group eqb key docs).
Proof.
  unfold Mongo.sort_count_desc. split; intros H.
  - eapply Permutation_in; [apply Permutation_sym, sort_perm|exact H].
  - eapply Permutation_in; [apply sort_perm|exact H].
Qed.

Lemma summary_sum {K A} (eqb : K -> K -> bool) (key : A -> K) (docs : list A) :
  (forall x y, eqb x y = true <-> x = y) ->
  Mongo.sum (map (fun g => Mongo.count (snd g))
                 (Mongo.sort_count_desc (Mongo.group eqb key docs))) = Mongo.count docs.
Proof. intros H. rewrite sort_count_desc_sum. now apply group_count_sum. Qed.

(** X5.  The summary of a reachable store is always computed, an empty
    store included (all counts zero, no 404).  Its total is the number of
    documents; the counts by vehicle type add up to the total, and so do
    the counts by eligibility; [top_10_makes] holds at most ten makes in
    descending order of count, and no make left out of it has more
    vehicles than a make listed. *)
Theorem X5_summary_totals (docs : list Mongo.Document) :
  exists r,
    Routes.get_summary (Mongo.Online docs) = Routes.Ok r /\
    ApiModels.total_vehicles r = Mongo.count docs /\
    Mongo.sum (map ApiModels.vts_count (ApiModels.vehicles_by_type r)) = Mongo.count docs /\
    Mongo.sum (map ApiModels.els_count (ApiModels.eligibility_summary r)) = Mongo.count docs /\
    (List.length (ApiModels.top_10_makes r) <= 10)%nat /\
    StronglySorted (fun a b => ApiModels.mks_count b <= ApiModels.mks_count a)
                   (ApiModels.top_10_makes r) /\
    (forall k, In k (map Validation.make docs) ->
               ~ In k (map ApiModels.mks_make (ApiModels.top_10_makes r)) ->
               Forall (fun m => vehicles_of_make k docs <= ApiModels.mks_count m)
                      (ApiModels.top_10_makes r)) /\
    (docs = [] -> r = empty_summary).
Proof.
  eexists. split; [reflexivity|].
  cbn [ApiModels.total_vehicles ApiModels.vehicles_by_type ApiModels.eligibility_summary
       ApiModels.top_10_makes].
  split; [reflexivity|]. split; [|split; [|split; [|split; [|split]]]].
  - rewrite map_map. cbn [ApiModels.vts_count]. apply summary_sum, string_eqb_iff.
  - rewrite map_map. cbn [ApiModels.els_count]. apply summary_sum, string_eqb_iff.
  - rewrite length_map. apply firstn_length_le.
  - apply StronglySorted_map. cbn [ApiModels.mks_count].
    apply StronglySorted_firstn. apply sort_count_desc_sorted.
  - intros k Hk Hout. rewrite Forall_forall. intros m Hm.
    apply in_map_iff in Hm. destruct Hm as [a [<- Ha]]. cbn [ApiModels.mks_count].
    set (full := Mongo.sort_count_desc (Mongo.group String.eqb Validation.make docs)) in *.
    set (g := (k, filter (fun d => String.eqb (Validation.make d) k) docs)).
    assert (Hg : In g full).
    { apply sorted_groups_In. apply (group_In String.eqb string_eqb_iff). split; [exact Hk|reflexivity]. }
    rewrite <- (firstn_skipn 10 full) in Hg. apply in_app_or in Hg. destruct Hg as [Hg|Hg].
    + exfalso. apply Hout. rewrite map_map. cbn [ApiModels.mks_make].
      apply in_map_iff. exists g. split; [reflexivity|exact Hg].
    + pose proof (sort_count_desc_sorted (Mongo.group String.eqb Validation.make docs)) as Hs.
      fold full in Hs. rewrite <- (firstn_skipn 10 full) in Hs.
      exact (StronglySorted_app_inv _ _ _ Hs a g Ha Hg).
  - intros ->. reflexivity.
Qed.

Lemma analyze_total (docs : list Mongo.Document) (request : ApiModels.AnalyzeRequest)
      (r : ApiModels.AnalyzeResponse) :
  Routes.analyze_vehicles (Mongo.Online docs) request = Routes.Ok r ->
  ApiModels.total_matching_vehicles r =
    Mongo.sum (map (fun doc => Mongo.count (snd doc)) (analyze_results docs request)).
Proof.
  unfold Routes.analyze_vehicles. fold (analyze_results docs request).
  destruct (Routes.negative_min_range _); [discriminate|].
  destruct (analyze_results docs request); [discriminate|].
  intros H; inversion H; subst. reflexivity.
Qed.

(** X6.  In an analyze answer [total_matching_vehicles] is the number of
    stored documents that satisfy the filters, the group counts add up
    to it, every group holds at least one vehicle, and the groups come in
    descending order of count. *)
Theorem X6_analyze_totals (docs : list Mongo.Document) (request : ApiModels.AnalyzeRequest)
        (r : ApiModels.AnalyzeResponse) :
  Routes.analyze_vehicles (Mongo.Online docs) request = Routes.Ok r ->
  ApiModels.total_matching_vehicles r =
    Mongo.count (Routes.find (Routes.match_stage (ApiModels.filters request)) docs) /\
  Mongo.sum (map ApiModels.gs_count (ApiModels.groups r)) =
    ApiModels.total_matching_vehicles r /\
  Forall (fun g => 1 <= ApiModels.gs_count g) (ApiModels.groups r) /\
  StronglySorted (fun a b => ApiModels.gs_count b <= ApiModels.gs_count a) (ApiModels.groups r).
Proof.
  intros H. rewrite (analyze_ok _ _ _ H), (analyze_total _ _ _ H). unfold analyze_results.
  split; [apply summary_sum, key_eqb_iff|]. split; [|split].
  - rewrite map_map. cbn [Routes.group_statistics ApiModels.gs_count].
    now rewrite summary_sum by exact key_eqb_iff.
  - rewrite Forall_forall. intros g Hin. apply in_map_iff in Hin.
    destruct Hin as [a [<- Ha]]. cbn [Routes.group_statistics ApiModels.gs_count].
    apply sorted_groups_In in Ha. eapply (group_nonempty Routes.key_eqb key_eqb_iff); eauto.
  - apply StronglySorted_map. cbn [Routes.group_statistics ApiModels.gs_count].
    apply sort_count_desc_sorted.
Qed.

Lemma X6_analyze_totals_witness :
  ApiModels.total_matching_vehicles tied_answer =
    Mongo.count (Routes.find (Routes.match_stage (ApiModels.filters by_county_request)) tied_store) /\
  Mongo.sum (map ApiModels.gs_count (ApiModels.groups tied_answer)) =
    ApiModels.total_matching_vehicles tied_answer /\
  Forall (fun g => 1 <= ApiModels.gs_count g) (ApiModels.groups tied_answer) /\
  StronglySorted (fun a b => ApiModels.gs_count b <= ApiModels.gs_count a)
                 (ApiModels.groups tied_answer).
Proof.
  apply (X6_analyze_totals tied_store by_county_request). vm_compute. reflexivity.
Defined.

Lemma distinct_constant {K A} (eqb : K -> K -> bool) (k : K) (l : list A) :
  eqb k k = true -> l <> [] -> Mongo.distinct eqb (map (fun _ => k) l) = [k].
Proof.
  intros Hk. induction l as [|x t IH]; [congruence|]. intros _. simpl.
  destruct t as [|y t']; [reflexivity|].
  rewrite IH by discriminate. simpl. now rewrite Hk.
Qed.

Lemma filter_all {A} (f : A -> bool) (l : list A) :
  (forall x, f x = true) -> filter f l = l.
Proof. intros H. induction l as [|x t IH]; simpl; [reflexivity|]. now rewrite H, IH. Qed.

(** X7.  Grouping on [vehicle_type] does not group by vehicle type: the
    stored documents have no field of that name (theirs is
    [electric_vehicle_type]), so all matching vehicles fall into one
    group, whose [group_value] is the text "None". *)
Theorem X7_group_by_vehicle_type (docs : list Mongo.Document)
        (request : ApiModels.AnalyzeRequest) (r : ApiModels.AnalyzeResponse) :
  ApiModels.group_by request = ApiModels.by_vehicle_type ->
  Routes.analyze_vehicles (Mongo.Online docs) request = Routes.Ok r ->
  exists g,
    ApiModels.groups r = [g] /\
    ApiModels.group_value g = "None" /\
    ApiModels.gs_count g = ApiModels.total_matching_vehicles r /\
    ApiModels.gs_count g =
      Mongo.count (Routes.find (Routes.match_stage (ApiModels.filters request)) docs).
Proof.
  intros Hg H. pose proof (analyze_ok _ _ _ H) as Hr. pose proof (analyze_total _ _ _ H) as Ht.
  assert (Hm : Routes.find (Routes.match_stage (ApiModels.filters request)) docs <> []).
  { intros E. unfold Routes.analyze_vehicles in H.
    destruct (Routes.negative_min_range _); [discriminate|]. rewrite E in H. discriminate H. }
  unfold analyze_results in Hr, Ht. rewrite Hg in Hr, Ht.
  set (matched := Routes.find _ docs) in *.
  assert (E : Mongo.group Routes.key_eqb (Routes.group_field ApiModels.by_vehicle_type) matched =
              [(Routes.KNull, matched)]).
  { unfold Mongo.group.
    change (Routes.group_field ApiModels.by_vehicle_type)
      with (fun _ : Mongo.Document => Routes.KNull).
    rewrite (distinct_constant Routes.key_eqb Routes.KNull matched eq_refl Hm).
    cbn [map]. now rewrite filter_all. }
  rewrite E in Hr, Ht. cbn in Hr, Ht.
  eexists. split; [exact Hr|]. cbn. rewrite Ht. repeat split; lia.
Qed.

Lemma X7_group_by_vehicle_type_witness :
  exists r g,
    Routes.analyze_vehicles (Mongo.Online small_store) by_vehicle_type_request = Routes.Ok r /\
    ApiModels.groups r = [g] /\
    ApiModels.group_value g = "None" /\
    ApiModels.gs_count g = 3.
Proof.
  eexists.
  destruct (X7_group_by_vehicle_type small_store by_vehicle_type_request _ eq_refl eq_refl)
    as [g [Hg [Hv [_ Hc]]]].
  exists g. split; [reflexivity|]. split; [exact Hg|]. split; [exact Hv|].
  rewrite Hc. reflexivity.
Defined.

Lemma make_models_head (docs : list Mongo.Document) (make_param : string)
      (r : ApiModels.MakeModelsResponse) :
  Routes.get_models_by_make (Mongo.Online docs) make_param = Routes.Ok r ->
  exists g gs,
    make_results docs make_param = g :: gs /\
    ApiModels.mmr_make r = PyStr.upper make_param /\
    ApiModels.total_models r = Mongo.count (ApiModels.models r) /\
    ApiModels.most_popular_model r = fst g /\
    ApiModels.most_popular_count r = Mongo.count (snd g).
Proof.
  unfold Routes.get_models_by_make. fold (make_results docs make_param).
  destruct (make_results docs make_param) as [|g gs]; [discriminate|].
  intros H; inversion H; subst. exists g, gs. repeat split; reflexivity.
Qed.

(** X8.  In the answer for a make: the models listed are distinct and
    each has at least one vehicle; their counts add up to the number of
    stored vehicles of the make; [most_popular_model] is the first model
    listed and no model has a higher count; and the make is matched
    without regard to the case of the parameter. *)
Theorem X8_make_models (docs : list Mongo.Document) (make_param : string)
        (r : ApiModels.MakeModelsResponse) :
  Routes.get_models_by_make (Mongo.Online docs) make_param = Routes.Ok r ->
  NoDup (map ApiModels.ms_model (ApiModels.models r)) /\
  Mongo.sum (map ApiModels.ms_count (ApiModels.models r)) =
    vehicles_of_make (PyStr.upper make_param) docs /\
  ApiModels.total_models r = Mongo.count (ApiModels.models r) /\
  (exists m rest, ApiModels.models r = m :: rest /\
                  ApiModels.most_popular_model r = ApiModels.ms_model m /\
                  ApiModels.most_popular_count r = ApiModels.ms_count m) /\
  Forall (fun m => 1 <= ApiModels.ms_count m <= ApiModels.most_popular_count r)
         (ApiModels.models r) /\
  Routes.get_models_by_make (Mongo.Online docs) (PyStr.upper make_param) = Routes.Ok r.
Proof.
  intros H. pose proof (make_models_ok _ _ _ H) as Hm.
  destruct (make_models_head _ _ _ H) as [g [gs [E [Hmk [Htot [Hpm Hpc]]]]]].
  pose proof (sort_count_desc_sorted
                (Mongo.group String.eqb Validation.model
                   (Routes.find [fun d => String.eqb (Validation.make d) (PyStr.upper make_param)]
                                docs))) as Hs.
  fold (make_results docs make_param) in Hs.
  split; [|split; [|split; [|split; [|split]]]].
  - rewrite Hm, map_map. cbn [ApiModels.ms_model]. unfold make_results, Mongo.sort_count_desc.
    eapply Permutation_NoDup; [apply Permutation_map, sort_perm|].
    rewrite (group_keys String.eqb). apply (distinct_NoDup String.eqb string_eqb_iff).
  - rewrite Hm, map_map. cbn [ApiModels.ms_count]. unfold make_results.
    rewrite summary_sum by exact string_eqb_iff.
    unfold vehicles_of_make, Routes.find. f_equal. apply filter_ext. intros d.
    cbn [Routes.matches forallb]. apply andb_true_r.
  - exact Htot.
  - rewrite Hm, E. cbn [map]. do 2 eexists. split; [reflexivity|]. split; assumption.
  - rewrite Hm, Forall_forall. intros m Hin. apply in_map_iff in Hin.
    destruct Hin as [a [<- Ha]]. cbn [ApiModels.ms_count]. split.
    + unfold make_results in Ha. apply sorted_groups_In in Ha.
      eapply (group_nonempty String.eqb string_eqb_iff); eauto.
    + rewrite Hpc. rewrite E in Hs, Ha. apply StronglySorted_inv in Hs.
      destruct Hs as [_ Hall]. destruct Ha as [<-|Ha]; [lia|].
      rewrite Forall_forall in Hall. now apply Hall.
  - revert H. unfold Routes.get_models_by_make. rewrite upper_idempotent.
    destruct (Mongo.sort_count_desc _); [discriminate|]. exact (fun H => H).
Qed.

Lemma X8_make_models_witness :
  exists r,
    Routes.get_models_by_make (Mongo.Online small_store) "tesla" = Routes.Ok r /\
    Mongo.sum (map ApiModels.ms_count (ApiModels.models r)) = 2 /\
    Routes.get_models_by_make (Mongo.Online small_store) (PyStr.upper "tesla") = Routes.Ok r.
Proof.
  eexists.
  destruct (X8_make_models small_store "tesla" _ eq_refl) as [_ [Hs [_ [_ [_ Hu]]]]].
  split; [reflexivity|]. split; [rewrite Hs; reflexivity|exact Hu].
Defined.

(** ** The trends *)

Lemma year_trend_counted (doc : Z * list Mongo.Document) (t : ApiModels.YearTrend) :
  Routes.year_trend doc = Ret t -> counted_trend doc t.
Proof.
  unfold Routes.year_trend.
  destruct (Routes.percentage _ _) as [b|]; [|discriminate]. cbn [bindR].
  destruct (Routes.percentage _ _) as [p|]; [|discriminate]. cbn [bindR].
  intros H; inversion H; subst; clear H. unfold counted_trend; cbn. repeat split.
Qed.

Lemma year_trends_counted (results : list (Z * list Mongo.Document)) :
  forall ts, Routes.year_trends results = Ret ts -> Forall2 counted_trend results ts.
Proof.
  induction results as [|doc rest IH]; simpl; intros ts H.
  - inversion H. constructor.
  - destruct (Routes.year_trend doc) as [t|] eqn:Et; [|discriminate]. cbn [bindR] in H.
    destruct (Routes.year_trends rest) as [ts'|]; [|discriminate]. cbn [bindR] in H.
    inversion H; subst. constructor; [now apply year_trend_counted|now apply IH].
Qed.

Lemma Forall2_map_eq {A B C} (f : A -> C) (g : B -> C) (l1 : list A) (l2 : list B) :
  Forall2 (fun a b => g b = f a) l1 l2 -> map g l2 = map f l1.
Proof. induction 1; simpl; congruence. Qed.

Lemma Forall2_impl {A B} (P Q : A -> B -> Prop) (l1 : list A) (l2 : list B) :
  (forall a b, In a l1 -> P a b -> Q a b) -> Forall2 P l1 l2 -> Forall2 Q l1 l2.
Proof.
  intros H F. induction F as [|a b l1 l2 Hab F IH]; constructor.
  - apply H; [now left|exact Hab].
  - apply IH. intros a' b' Ha'. apply H. now right.
Qed.

Lemma Forall2_right {A B} (P : A -> B -> Prop) (Q : B -> Prop) (l1 : list A) (l2 : list B) :
  (forall a b, In a l1 -> P a b -> Q b) -> Forall2 P l1 l2 -> Forall Q l2.
Proof.
  intros H F. induction F as [|a b l1 l2 Hab F IH]; constructor.
  - eapply H; [now left|exact Hab].
  - apply IH. intros a' b' Ha'. apply H. now right.
Qed.

(** Sorted on distinct keys is strictly sorted. *)
Lemma sorted_distinct_strict (l : list Z) :
  StronglySorted Z.le l -> NoDup l -> StronglySorted Z.lt l.
Proof.
  induction 1 as [|x t Hs IH Hx]; intros Hnd; constructor; inversion Hnd; subst.
  - now apply IH.
  - rewrite Forall_forall in *. intros y Hy. specialize (Hx y Hy).
    assert (x <> y) by (intros ->; contradiction). lia.
Qed.

Lemma trend_results_years (docs : list Mongo.Document) :
  StronglySorted Z.lt (map fst (trend_results docs)).
Proof.
  unfold trend_results. apply sorted_distinct_strict.
  - apply StronglySorted_map.
    eapply StronglySorted_impl; [|apply sort_sorted].
    + intros a b H. now apply Z.leb_le in H.
    + intros x y. cbv beta. rewrite !Z.leb_le. lia.
    + intros x y z. cbv beta. rewrite !Z.leb_le. lia.
  - eapply Permutation_NoDup; [apply Permutation_map, sort_perm|].
    rewrite (group_keys Z.eqb). apply (distinct_NoDup Z.eqb Z.eqb_eq).
Qed.

Lemma trend_results_In (docs : list Mongo.Document) (g : Z * list Mongo.Document) :
  In g (trend_results docs) <-> In g (Mongo.group Z.eqb Validation.model_year docs).
Proof.
  unfold trend_results. split; intros H.
  - eapply Permutation_in; [apply Permutation_sym, sort_perm|exact H].
  - eapply Permutation_in; [apply sort_perm|exact H].
Qed.

Lemma trend_results_sum (docs : list Mongo.Document) :
  Mongo.sum (map (fun g => Mongo.count (snd g)) (trend_results docs)) = Mongo.count docs.
Proof.
  unfold trend_results. rewrite <- (sum_map_perm _ _ _ (sort_perm _ _)).
  apply (group_count_sum Z.eqb Z.eqb_eq).
Qed.

Lemma filter_count_le {A} (f : A -> bool) (l : list A) :
  0 <= Mongo.count (filter f l) <= Mongo.count l.
Proof. unfold Mongo.count. pose proof (filter_length_le f l). lia. Qed.

Lemma disjoint_filters_count {A} (f g : A -> bool) (l : list A) :
  Forall (fun x => f x && g x = false) l ->
  Mongo.count (filter f l) + Mongo.count (filter g l) <= Mongo.count l.
Proof.
  induction 1 as [|x t Hx Ht IH]; simpl; [unfold Mongo.count; simpl; lia|].
  rewrite count_cons.
  destruct (f x), (g x); try discriminate; rewrite ?count_cons; lia.
Qed.

(** A settled vehicle type is never matched by both patterns. *)
Lemma settled_type_one_pattern (t : string) :
  settled_type t ->
  Mongo.regex_match t "BEV" && Mongo.regex_match t "PHEV" = false.
Proof.
  unfold Mongo.regex_match. intros [Hm|[Hb Hp]].
  - unfold PyStr.mem, Validation.valid_types in Hm. cbn [existsb] in Hm.
    repeat (apply orb_true_iff in Hm; destruct Hm as [Hm|Hm]);
      try (apply String.eqb_eq in Hm; subst; reflexivity).
    discriminate Hm.
  - now rewrite Hb.
Qed.

(** X9.  In the answer of the trends operation the years are strictly
    increasing (one point per model year), every point counts at least
    one vehicle, the vehicle counts add up to the number of stored
    documents, and neither the BEV count nor the PHEV count of a point
    exceeds its vehicle count.  On a store of validated records no
    vehicle is counted both as BEV and as PHEV: the two counts together
    do not exceed the vehicle count. *)
Theorem X9_trends_counts (docs : list Mongo.Document) (r : ApiModels.TrendsResponse) :
  Routes.get_trends (Mongo.Online docs) = Routes.Ok r ->
  StronglySorted Z.lt (map ApiModels.yt_model_year (ApiModels.trends r)) /\
  Mongo.sum (map ApiModels.vehicle_count (ApiModels.trends r)) = Mongo.count docs /\
  Forall (fun t => 1 <= ApiModels.vehicle_count t /\
                   0 <= ApiModels.bev_count t <= ApiModels.vehicle_count t /\
                   0 <= ApiModels.phev_count t <= ApiModels.vehicle_count t)
         (ApiModels.trends r) /\
  (validated_store docs ->
   Forall (fun t => ApiModels.bev_count t + ApiModels.phev_count t <= ApiModels.vehicle_count t)
          (ApiModels.trends r)).
Proof.
  intros H. destruct (trends_ok _ _ H) as [Hts _].
  apply year_trends_counted in Hts.
  split; [|split; [|split]].
  - rewrite (Forall2_map_eq fst ApiModels.yt_model_year (trend_results docs)).
    + apply trend_results_years.
    + eapply Forall2_impl; [|exact Hts]. intros a b _ Hab. apply Hab.
  - rewrite (Forall2_map_eq (fun g => Mongo.count (snd g)) ApiModels.vehicle_count
                            (trend_results docs)).
    + apply trend_results_sum.
    + eapply Forall2_impl; [|exact Hts]. intros a b _ Hab. apply Hab.
  - eapply Forall2_right; [|exact Hts]. intros a b Ha [_ [Hc [Hb Hp]]].
    rewrite Hc, Hb, Hp. split; [|split; apply filter_count_le].
    apply trend_results_In in Ha.
    eapply (group_nonempty Z.eqb Z.eqb_eq); eauto.
  - intros Hv. eapply Forall2_right; [|exact Hts]. intros a b Ha [_ [Hc [Hb Hp]]].
    rewrite Hc, Hb, Hp. apply disjoint_filters_count.
    apply trend_results_In in Ha. apply (group_In Z.eqb Z.eqb_eq) in Ha.
    destruct Ha as [_ ->]. rewrite Forall_forall. intros d Hd.
    apply filter_In in Hd. destruct Hd as [Hd _].
    unfold validated_store in Hv. rewrite Forall_forall in Hv.
    apply settled_type_one_pattern. now apply Hv.
Qed.

Lemma X9_trends_counts_witness :
  exists r,
    Routes.get_trends (Mongo.Online small_store) = Routes.Ok r /\
    StronglySorted Z.lt (map ApiModels.yt_model_year (ApiModels.trends r)) /\
    Mongo.sum (map ApiModels.vehicle_count (ApiModels.trends r)) = 3.
Proof.
  eexists.
  destruct (X9_trends_counts small_store _ eq_refl) as [Hy [Hs _]].
  split; [reflexivity|]. split; [exact Hy|]. rewrite Hs. reflexivity.
Defined.

(** ** The trends operation returns *)

Lemma finite_or_zero_not_inf (f : spec_float) : finite_or_zero f -> PyFloat.is_inf f = false.
Proof. destruct f; simpl; tauto. Qed.

(** [a / b] on integers returns unless [b] is zero. *)
Lemma int_truediv_returns (a b : Z) :
  b <> 0 -> Z.abs a < 2 ^ 1023 -> exists f, PyFloat.int_truediv a b = Ret f.
Proof.
  intros Hb Ha. unfold PyFloat.int_truediv.
  destruct b as [|pb|pb]; [congruence| |]; (destruct a as [|pa|pa]; [eauto| |]);
    match goal with
    | |- context [PyFloat.of_ratio ?s ?x ?y] =>
        rewrite (finite_or_zero_not_inf (PyFloat.of_ratio s x y))
          by (apply of_ratio_finite; simpl in *; lia); eauto
    end.
Qed.

(** [float(n)] of a positive integer below [2^53] is a finite number
    other than zero. *)
Lemma of_int_small (n : Z) :
  0 < n < 2 ^ 53 -> exists m e, PyFloat.of_int n = Ret (S754_finite false m e).
Proof.
  intros Hn. destruct n as [|p|p]; try lia.
  unfold PyFloat.of_int, PyFloat.of_Z, binary_normalize.
  destruct (binary_round_small false p ltac:(lia)) as [m [e [-> _]]].
  cbn [PyFloat.is_inf]. eauto.
Qed.

Lemma truediv_int_returns (x : spec_float) (n : Z) :
  0 < n < 2 ^ 53 -> exists y, PyFloat.truediv_int x n = Ret y.
Proof.
  intros Hn. unfold PyFloat.truediv_int.
  destruct (of_int_small n Hn) as [m [e ->]]. cbn [bindR].
  unfold PyFloat.truediv. cbn [PyFloat.is_zero]. eauto.
Qed.

Lemma mul_int_100_returns (x : spec_float) : exists y, PyFloat.mul_int x 100 = Ret y.
Proof.
  unfold PyFloat.mul_int.
  destruct (of_int_small 100 ltac:(lia)) as [m [e ->]]. cbn [bindR]. eauto.
Qed.

Lemma percentage_returns (part total : Z) :
  0 <= part < 2 ^ 1023 -> exists f, Routes.percentage part total = Ret f.
Proof.
  intros Hp. unfold Routes.percentage. destruct (0 <? total) eqn:E; [|eauto].
  apply Z.ltb_lt in E.
  destruct (int_truediv_returns part total) as [q ->]; [lia|lia|]. cbn [bindR].
  apply mul_int_100_returns.
Qed.

Lemma year_trend_returns (doc : Z * list Mongo.Document) :
  Mongo.count (snd doc) < 2 ^ 1023 -> exists t, Routes.year_trend doc = Ret t.
Proof.
  intros Hc. unfold Routes.year_trend.
  match goal with
  | |- context [Routes.percentage ?p ?t] =>
      destruct (percentage_returns p t) as [b ->];
        [split; [apply filter_count_le|];
         eapply Z.le_lt_trans; [apply filter_count_le|exact Hc]|]
  end. cbn [bindR].
  match goal with
  | |- context [Routes.percentage ?p ?t] =>
      destruct (percentage_returns p t) as [c ->];
        [split; [apply filter_count_le|];
         eapply Z.le_lt_trans; [apply filter_count_le|exact Hc]|]
  end. cbn [bindR]. eauto.
Qed.

Lemma year_trends_returns (results : list (Z * list Mongo.Document)) :
  Forall (fun doc => Mongo.count (snd doc) < 2 ^ 1023) results ->
  exists ts, Routes.year_trends results = Ret ts.
Proof.
  induction 1 as [|doc rest Hd Hr IH]; simpl; [eauto|].
  destruct (year_trend_returns doc Hd) as [t ->]. destruct IH as [ts ->].
  cbn [bindR]. eauto.
Qed.

Lemma gt0_not_zero (x : spec_float) : PyFloat.gt0 x = true -> PyFloat.is_zero x = false.
Proof. destruct x as [[]|[]| |s m e]; simpl; intros H; try reflexivity; discriminate H. Qed.

Lemma last_In {A} (x : A) (l : list A) (d : A) : In (last (x :: l) d) (x :: l).
Proof.
  revert x. induction l as [|y t IH]; intros x; [now left|].
  right. change (last (x :: y :: t) d) with (last (y :: t) d). apply IH.
Qed.

Lemma growth_rates_returns (ts : list ApiModels.YearTrend) :
  StronglySorted Z.lt (map ApiModels.yt_model_year ts) ->
  Forall (fun t => 1997 <= ApiModels.yt_model_year t <= 2026 /\
                   1 <= ApiModels.vehicle_count t < 2 ^ 63) ts ->
  exists rates, Routes.growth_rates ts = Ret rates.
Proof.
  intros Hs Hall. unfold Routes.growth_rates.
  destruct ts as [|first [|second rest]]; [eauto|eauto|].
  set (final := last (first :: second :: rest) first).
  assert (Hfin : In final (second :: rest)).
  { unfold final. change (last (first :: second :: rest) first) with (last (second :: rest) first).
    apply last_In. }
  rewrite Forall_forall in Hall.
  destruct (Hall first ltac:(now left)) as [Hy1 Hc1].
  destruct (Hall final ltac:(now right)) as [Hy2 Hc2].
  assert (Hd : 0 < ApiModels.yt_model_year final - ApiModels.yt_model_year first < 2 ^ 53).
  { cbn [map] in Hs. apply StronglySorted_inv in Hs. destruct Hs as [_ Hlt].
    rewrite Forall_forall in Hlt.
    specialize (Hlt (ApiModels.yt_model_year final) (in_map _ _ _ Hfin)). lia. }
  assert (Ho : exists o,
    (if (0 <? ApiModels.yt_model_year final - ApiModels.yt_model_year first) &&
        (0 <? ApiModels.vehicle_count first)
     then r <- Routes.count_rate (ApiModels.vehicle_count first) (ApiModels.vehicle_count final)
                 (ApiModels.yt_model_year final - ApiModels.yt_model_year first) ;;
          Ret (Some r)
     else Ret None) = Ret o).
  { destruct (_ && _); [|eauto]. unfold Routes.count_rate.
    destruct (int_truediv_returns
                (ApiModels.vehicle_count final - ApiModels.vehicle_count first)
                (ApiModels.vehicle_count first)) as [q ->]; [lia|lia|]. cbn [bindR].
    destruct (truediv_int_returns q _ Hd) as [x ->]. cbn [bindR].
    destruct (mul_int_100_returns x) as [y ->]. cbn [bindR]. eauto. }
  destruct Ho as [o ->]. cbn [bindR].
  destruct (PyFloat.gt0 (ApiModels.yt_average_electric_range first)) eqn:Eg; [|cbn [bindR]; eauto].
  unfold Routes.range_rate, PyFloat.truediv. rewrite (gt0_not_zero _ Eg). cbn [bindR].
  destruct (truediv_int_returns
              (PyFloat.div (PyFloat.sub (ApiModels.yt_average_electric_range final)
                                        (ApiModels.yt_average_electric_range first))
                           (ApiModels.yt_average_electric_range first)) _ Hd) as [x ->].
  cbn [bindR]. destruct (mul_int_100_returns x) as [y ->]. cbn [bindR]. eauto.
Qed.

Lemma group_count_le {K A} (eqb : K -> K -> bool) (key : A -> K) (docs : list A)
      (g : K * list A) :
  (forall x y, eqb x y = true <-> x = y) ->
  In g (Mongo.group eqb key docs) -> Mongo.count (snd g) <= Mongo.count docs.
Proof.
  intros He H. apply (group_In eqb He) in H. destruct H as [_ ->]. apply filter_count_le.
Qed.

(** X10.  On a reachable store that is not empty, holds fewer than
    [2^63] documents, and whose model years lie within the bounds that
    validation enforces, the trends operation always returns a result:
    no division in it can fail.  In particular the division by the year
    span in the range improvement rate, which the source does not guard,
    never divides by zero, because the points are one per distinct year
    in ascending order. *)
Theorem X10_trends_returns (docs : list Mongo.Document) :
  docs <> [] ->
  Mongo.count docs < 2 ^ 63 ->
  Forall (fun d => 1997 <= Validation.model_year d <= 2026) docs ->
  exists r, Routes.get_trends (Mongo.Online docs) = Routes.Ok r.
Proof.
  intros Hne Hn Hy. unfold Routes.get_trends. fold (trend_results docs).
  assert (Hres : trend_results docs <> []).
  { unfold trend_results. rewrite sort_nil_iff, group_nil_iff. exact Hne. }
  assert (Hcount : Forall (fun doc => 1 <= Mongo.count (snd doc) < 2 ^ 63 /\
                                      1997 <= fst doc <= 2026) (trend_results docs)).
  { rewrite Forall_forall. intros g Hg. apply trend_results_In in Hg.
    pose proof (group_nonempty Z.eqb Z.eqb_eq _ _ _ Hg).
    pose proof (group_count_le Z.eqb _ _ _ Z.eqb_eq Hg).
    apply (group_In Z.eqb Z.eqb_eq) in Hg. destruct Hg as [Hk _].
    apply in_map_iff in Hk. destruct Hk as [d [<- Hd]].
    rewrite Forall_forall in Hy. specialize (Hy d Hd). lia. }
  destruct (year_trends_returns (trend_results docs)) as [ts Hts].
  { eapply Forall_impl; [|exact Hcount]. intros g [[_ H] _].
    eapply Z.lt_trans; [exact H|]. apply Z.pow_lt_mono_r; lia. }
  pose proof (year_trends_counted _ _ Hts) as Hc.
  destruct (growth_rates_returns ts) as [rates Hr].
  { rewrite (Forall2_map_eq fst ApiModels.yt_model_year (trend_results docs)).
    - apply trend_results_years.
    - eapply Forall2_impl; [|exact Hc]. intros a b _ Hab. apply Hab. }
  { eapply Forall2_right; [|exact Hc]. intros a b Ha [Hyr [Hcn _]].
    rewrite Forall_forall in Hcount. specialize (Hcount a Ha). rewrite Hyr, Hcn. lia. }
  destruct (trend_results docs) as [|g gs]; [congruence|].
  rewrite Hts. cbn [bindR]. rewrite Hr. cbn [bindR Routes.guard]. eauto.
Qed.

Lemma X10_trends_returns_witness :
  exists r, Routes.get_trends (Mongo.Online small_store) = Routes.Ok r.
Proof.
  apply (X10_trends_returns small_store).
  - discriminate.
  - vm_compute. reflexivity.
  - repeat constructor; vm_compute; discriminate.
Defined.

(** ** The county listing *)

Lemma ascii_compare_trans_lt (a b c : ascii) :
  Ascii.compare a b = Lt -> Ascii.compare b c = Lt -> Ascii.compare a c = Lt.
Proof.
  unfold Ascii.compare. rewrite !N.compare_lt_iff. lia.
Qed.

Lemma string_leb_trans (x y z : string) :
  String.leb x y = true -> String.leb y z = true -> String.leb x z = true.
Proof.
  assert (H : forall x y z, String.compare x y <> Gt -> String.compare y z <> Gt ->
                            String.compare x z <> Gt).
  { clear. induction x as [|a x IH]; intros [|b y] [|c z]; simpl; try congruence.
    destruct (Ascii.compare a b) eqn:Eab; try congruence.
    - apply Ascii.compare_eq_iff in Eab. subst b.
      destruct (Ascii.compare a c); try congruence. apply IH.
    - intros _. destruct (Ascii.compare b c) eqn:Ebc; try congruence.
      + apply Ascii.compare_eq_iff in Ebc. subst c. rewrite Eab. congruence.
      + rewrite (ascii_compare_trans_lt _ _ _ Eab Ebc). congruence. }
  unfold String.leb. intros Hxy Hyz. specialize (H x y z).
  destruct (String.compare x y); try discriminate;
    destruct (String.compare y z); try discriminate;
    destruct (String.compare x z); try reflexivity; exfalso; apply H; congruence.
Qed.

Lemma field_le_total (sort_by : Routes.SortField) (x y : Mongo.Document) :
  Routes.field_le sort_by x y = true \/ Routes.field_le sort_by y x = true.
Proof.
  destruct sort_by; simpl; try apply String.leb_total.
  rewrite !Z.leb_le. lia.
Qed.

Lemma field_le_trans (sort_by : Routes.SortField) (x y z : Mongo.Document) :
  Routes.field_le sort_by x y = true -> Routes.field_le sort_by y z = true ->
  Routes.field_le sort_by x z = true.
Proof.
  destruct sort_by; simpl; try apply string_leb_trans.
  rewrite !Z.leb_le. lia.
Qed.

Lemma cursor_sort_in_order (sort_by : Routes.SortField) (sort_order : Routes.SortOrder)
      (docs : list Mongo.Document) :
  StronglySorted (in_order sort_by sort_order) (Routes.cursor_sort sort_by sort_order docs).
Proof.
  unfold Routes.cursor_sort, in_order. destruct sort_order.
  - apply sort_sorted; [apply field_le_total|apply field_le_trans].
  - apply (sort_sorted (fun x y => Routes.field_le sort_by y x)).
    + intros x y. destruct (field_le_total sort_by x y); auto.
    + intros x y z H1 H2. eapply field_le_trans; eauto.
Qed.

Lemma cursor_sort_perm (sort_by : Routes.SortField) (sort_order : Routes.SortOrder)
      (docs : list Mongo.Document) :
  Permutation docs (Routes.cursor_sort sort_by sort_order docs).
Proof. unfold Routes.cursor_sort. destruct sort_order; apply sort_perm. Qed.

Lemma StronglySorted_skipn {A} (R : A -> A -> Prop) (n : nat) (l : list A) :
  StronglySorted R l -> StronglySorted R (skipn n l).
Proof.
  intros H. revert n. induction H as [|x t Hs IH Hx]; intros [|n]; simpl; try constructor; auto.
Qed.

(** What a successful county listing holds. *)
Lemma county_ok (docs : list Mongo.Document) (county_name : string)
      (page page_size : Z) (model_year : option Z)
      (sort_by : Routes.SortField) (sort_order : Routes.SortOrder)
      (r : ApiModels.CountyVehiclesResponse) :
  Routes.get_vehicles_by_county (Mongo.Online docs) county_name page page_size
                                model_year sort_by sort_order = Routes.Ok r ->
  let matched := Routes.find (Routes.county_query county_name model_year) docs in
  (1 <= page /\ 1 <= page_size <= 100) /\
  matched <> [] /\
  ApiModels.cvr_county r = PyStr.upper county_name /\
  ApiModels.total_count r = Mongo.count matched /\
  ApiModels.page r = page /\
  ApiModels.page_size r = page_size /\
  (q <- PyFloat.int_truediv (Mongo.count matched) page_size ;; PyFloat.ceil q) =
    Ret (ApiModels.total_pages r) /\
  ApiModels.vehicles r =
    firstn (Z.to_nat page_size)
           (skipn (Z.to_nat ((page - 1) * page_size))
                  (Routes.cursor_sort sort_by sort_order matched)).
Proof.
  intros H matched. unfold Routes.get_vehicles_by_county in H. fold matched in H.
  destruct ((page <? 1) || (page_size <? 1) || (100 <? page_size)) eqn:Ev; [discriminate|].
  rewrite !orb_false_iff, !Z.ltb_ge in Ev.
  destruct (Mongo.count matched =? 0) eqn:E0; [discriminate|].
  destruct (q <- PyFloat.int_truediv (Mongo.count matched) page_size ;; PyFloat.ceil q)
    as [pages|e]; [|discriminate].
  cbn [bindR Routes.guard] in H. inversion H; subst r; clear H. cbn.
  repeat split; try lia.
  intros Hm. rewrite Hm in E0. discriminate E0.
Qed.

Lemma county_query_matches (county_name : string) (model_year : option Z) (d : Mongo.Document) :
  Routes.matches (Routes.county_query county_name model_year) d = true ->
  Validation.county d = PyStr.upper county_name /\
  (forall y, model_year = Some y -> y <> 0 -> Validation.model_year d = y).
Proof.
  unfold Routes.county_query, Routes.matches. cbn [forallb].
  rewrite andb_true_iff. intros [Hc Hy]. split; [now apply String.eqb_eq|].
  intros y -> Hy0. apply Z.eqb_neq in Hy0. rewrite Hy0 in Hy. cbn [forallb] in Hy.
  rewrite andb_true_r in Hy. now apply Z.eqb_eq.
Qed.

(** X11.  A county listing that succeeds reports as [total_count] the
    number of stored vehicles registered in the county (compared in upper
    case) and, when a model year other than 0 is given, of that year;
    the page holds at most [page_size] vehicles, every one of them a
    stored vehicle of that county (and year), in the order asked for. *)
Theorem X11_county_page (docs : list Mongo.Document) (county_name : string)
        (page page_size : Z) (model_year : option Z)
        (sort_by : Routes.SortField) (sort_order : Routes.SortOrder)
        (r : ApiModels.CountyVehiclesResponse) :
  Routes.get_vehicles_by_county (Mongo.Online docs) county_name page page_size
                                model_year sort_by sort_order = Routes.Ok r ->
  ApiModels.cvr_county r = PyStr.upper county_name /\
  ApiModels.total_count r =
    Mongo.count (Routes.find (Routes.county_query county_name model_year) docs) /\
  1 <= ApiModels.total_count r /\
  Mongo.count (ApiModels.vehicles r) <= page_size /\
  Forall (fun v => In v docs /\
                   Validation.county v = PyStr.upper county_name /\
                   (forall y, model_year = Some y -> y <> 0 -> Validation.model_year v = y))
         (ApiModels.vehicles r) /\
  StronglySorted (in_order sort_by sort_order) (ApiModels.vehicles r).
Proof.
  intros H. destruct (county_ok _ _ _ _ _ _ _ _ H) as [[Hp Hs] [Hne [Hc [Ht [_ [_ [_ Hv]]]]]]].
  split; [exact Hc|]. split; [exact Ht|]. split; [|split; [|split]].
  - rewrite Ht. destruct (Routes.find _ docs); [congruence|rewrite count_cons].
    pose proof (count_nonneg l). lia.
  - rewrite Hv. unfold Mongo.count. rewrite length_firstn. lia.
  - rewrite Hv, Forall_forall. intros v Hin.
    apply In_firstn, In_skipn in Hin.
    apply (Permutation_in _ (Permutation_sym (cursor_sort_perm _ _ _))) in Hin.
    unfold Routes.find in Hin. apply filter_In in Hin. destruct Hin as [Hd Hm].
    split; [exact Hd|]. now apply county_query_matches.
  - rewrite Hv. apply StronglySorted_firstn, StronglySorted_skipn, cursor_sort_in_order.
Qed.

Lemma X11_county_page_witness :
  exists r,
    Routes.get_vehicles_by_county (Mongo.Online small_store) "king" 1 20 None
                                  Routes.sort_model_year Routes.desc = Routes.Ok r /\
    ApiModels.cvr_county r = "KING" /\
    ApiModels.total_count r = 2 /\
    StronglySorted (in_order Routes.sort_model_year Routes.desc) (ApiModels.vehicles r).
Proof.
  eexists.
  destruct (X11_county_page small_store "king" 1 20 None Routes.sort_model_year Routes.desc
                            _ eq_refl) as [Hc [Ht [_ [_ [_ Hs]]]]].
  split; [reflexivity|]. split; [exact Hc|]. split; [rewrite Ht; reflexivity|exact Hs].
Defined.

(** ** Consecutive slices of a list *)

Lemma firstn_plus {A} (a b : nat) (l : list A) :
  firstn (a + b) l = firstn a l ++ firstn b (skipn a l).
Proof.
  revert l. induction a as [|a IH]; intros l; [reflexivity|].
  destruct l as [|x t]; simpl; [now rewrite firstn_nil|]. now rewrite IH.
Qed.

(** The slices of length [n] taken at [0], [n], [2n], ... put end to end
    are the list itself, up to the end of the last slice. *)
Lemma chunks_concat {A} (n N : nat) (l : list A) :
  flat_map (fun k => firstn n (skipn (k * n) l)) (seq 0 N) = firstn (N * n) l.
Proof.
  induction N as [|N IH]; [reflexivity|].
  rewrite seq_S, flat_map_app, IH. cbn [flat_map]. rewrite app_nil_r.
  cbn [Nat.mul]. rewrite (Nat.add_comm n (N * n)). symmetry. apply firstn_plus.
Qed.



Lemma pages_needed_enough (total page_size : Z) :
  0 <= total -> 0 < page_size -> total <= pages_needed total page_size * page_size.
Proof.
  intros Ht Hp. unfold pages_needed.
  pose proof (Z.div_mod (total + page_size - 1) page_size ltac:(lia)).
  pose proof (Z.mod_pos_bound (total + page_size - 1) page_size Hp). nia.
Qed.

Lemma pages_needed_nonneg (total page_size : Z) :
  0 <= total -> 0 < page_size -> 0 <= pages_needed total page_size.
Proof. intros Ht Hp. unfold pages_needed. apply Z.div_pos; lia. Qed.






(** ** Binary64 facts: the ceiling of a quotient is exact *)

Lemma digits2_pos_lt (p : positive) : Zpos p < 2 ^ Zpos (digits2_pos p).
Proof.
  induction p as [p IH|p IH|]; cbn [digits2_pos]; [| |reflexivity];
    rewrite Pos2Z.inj_succ, Z.pow_succ_r by lia; lia.
Qed.

Lemma digits2_pos_ge (p : positive) : 2 ^ (Zpos (digits2_pos p) - 1) <= Zpos p.
Proof.
  induction p as [p IH|p IH|]; cbn [digits2_pos]; [| |simpl; lia];
    rewrite Pos2Z.inj_succ;
    replace (Z.succ (Zpos (digits2_pos p)) - 1) with (Z.succ (Zpos (digits2_pos p) - 1)) by lia;
    rewrite Z.pow_succ_r by lia; lia.
Qed.

Lemma digits2_pos_exact (p : positive) (k : Z) :
  2 ^ (k - 1) <= Zpos p < 2 ^ k -> Zpos (digits2_pos p) = k.
Proof.
  intros [Hlo Hhi].
  assert (Hk : 0 <= k).
  { destruct (Z.lt_ge_cases k 0) as [Hneg|]; [|assumption].
    rewrite (Z.pow_neg_r 2 k Hneg) in Hhi. lia. }
  pose proof (digits2_bound p k Hk Hhi) as Hle.
  pose proof (digits2_pos_lt p) as Hlt.
  destruct (Z.eq_dec (Zpos (digits2_pos p)) k) as [|Hne]; [assumption|].
  assert (Hpow : 2 ^ Zpos (digits2_pos p) <= 2 ^ (k - 1)) by (apply Z.pow_le_mono_r; lia).
  lia.
Qed.

Lemma loc_of_shr_record_of_loc (m : Z) (l : location) :
  loc_of_shr_record (shr_record_of_loc m l) = l.
Proof. destruct l as [|[]]; reflexivity. Qed.

Lemma shr_1_loc (m : Z) (l : location) :
  0 < m -> loc_of_shr_record (shr_1 (shr_record_of_loc m l)) = loc_shift m l.
Proof.
  intros Hm. destruct m as [|[p|p|]|p]; try lia; destruct l as [|[]]; reflexivity.
Qed.

Lemma shr_fexp_shift1 (m e : Z) (l : location) :
  fexp PyFloat.prec PyFloat.emax (Zdigits2 m + e) - e = 1 ->
  shr_fexp PyFloat.prec PyFloat.emax m e l = (shr_1 (shr_record_of_loc m l), e + 1).
Proof. intros H. unfold shr_fexp, shr. rewrite H. reflexivity. Qed.

Lemma round_nearest_even_range (m : Z) (l : location) :
  m <= round_nearest_even m l <= m + 1.
Proof. unfold round_nearest_even. destruct l as [|[]]; try destruct (Z.even m); lia. Qed.

Lemma fexp_normal (x : Z) : -1021 <= x -> fexp PyFloat.prec PyFloat.emax x = x - 53.
Proof. unfold fexp, emin, PyFloat.prec, PyFloat.emax. lia. Qed.

(** The second stage of the rounding: a mantissa of 53 bits is kept, the
    mantissa [2^53] is renormalized. *)
Lemma round_stage2 (m1 e1 : Z) :
  2 ^ 52 <= m1 <= 2 ^ 53 -> -1000 <= e1 <= 1 ->
  exists m e2,
    (let '(mrs, e) := shr_fexp PyFloat.prec PyFloat.emax m1 e1 loc_Exact in
     match shr_m mrs with
     | Z0 => S754_zero false
     | Zpos m => if e <=? PyFloat.emax - PyFloat.prec
                 then S754_finite false m e else S754_infinity false
     | Zneg _ => S754_nan
     end) = S754_finite false m e2 /\
    e1 <= e2 /\ Zpos m * 2 ^ (e2 - e1) = m1.
Proof.
  intros Hm He. replace (PyFloat.emax - PyFloat.prec) with 971 by reflexivity.
  destruct m1 as [|p|p]; try lia.
  destruct (Z.eq_dec (Zpos p) (2 ^ 53)) as [Heq|Hne].
  - assert (Hd : Zpos (digits2_pos p) = 54) by (apply digits2_pos_exact; lia).
    rewrite shr_fexp_shift1
      by (cbn [Zdigits2]; rewrite Hd, fexp_normal by lia; lia).
    injection Heq as ->. cbn [shr_record_of_loc shr_1 shr_m].
    assert (H971 : (e1 + 1 <=? 971) = true) by (apply Z.leb_le; lia). rewrite H971.
    do 2 eexists. split; [reflexivity|]. split; [lia|].
    replace (e1 + 1 - e1) with 1 by lia. reflexivity.
  - assert (Hd : Zpos (digits2_pos p) = 53) by (apply digits2_pos_exact; lia).
    rewrite shr_fexp_no_shift
      by (cbn [Zdigits2]; rewrite Hd, fexp_normal by lia; lia).
    cbn [shr_record_of_loc shr_m].
    assert (H971 : (e1 <=? 971) = true) by (apply Z.leb_le; lia). rewrite H971.
    do 2 eexists. split; [reflexivity|]. split; [lia|].
    rewrite Z.sub_diag. simpl. lia.
Qed.

(** Rounding a quotient mantissa of 53 or 54 bits. *)
Lemma binary_round_aux_53 (q e : Z) (l : location) :
  2 ^ 52 <= q < 2 ^ 54 -> -1000 <= e <= 0 ->
  exists m e2,
    binary_round_aux PyFloat.prec PyFloat.emax false q e l = S754_finite false m e2 /\
    e <= e2 /\ Zpos m * 2 ^ (e2 - e) = rounded53 q l.
Proof.
  intros Hq He. unfold binary_round_aux, rounded53.
  destruct q as [|p|p]; try lia.
  destruct (Zpos p <? 2 ^ 53) eqn:E.
  - apply Z.ltb_lt in E.
    assert (Hd : Zpos (digits2_pos p) = 53) by (apply digits2_pos_exact; lia).
    rewrite shr_fexp_no_shift
      by (cbn [Zdigits2]; rewrite Hd, fexp_normal by lia; lia).
    rewrite shr_record_of_loc_m, loc_of_shr_record_of_loc.
    pose proof (round_nearest_even_range (Zpos p) l) as Hr.
    destruct (round_stage2 (round_nearest_even (Zpos p) l) e) as [m [e2 [-> [H1 H2]]]];
      [lia|lia|].
    exists m, e2. auto.
  - apply Z.ltb_ge in E.
    assert (Hd : Zpos (digits2_pos p) = 54) by (apply digits2_pos_exact; lia).
    rewrite shr_fexp_shift1
      by (cbn [Zdigits2]; rewrite Hd, fexp_normal by lia; lia).
    rewrite shr_1_loc by lia.
    rewrite shr_1_m by (rewrite shr_record_of_loc_m; lia).
    rewrite shr_record_of_loc_m.
    pose proof (round_nearest_even_range (Zpos p / 2) (loc_shift (Zpos p) l)) as Hr.
    assert (Hh : 2 ^ 52 <= Zpos p / 2 < 2 ^ 53).
    { split; [apply Z.div_le_lower_bound; lia|apply Z.div_lt_upper_bound; lia]. }
    destruct (round_stage2 (round_nearest_even (Zpos p / 2) (loc_shift (Zpos p) l)) (e + 1))
      as [m [e2 [-> [H1 H2]]]]; [lia|lia|].
    exists m, e2. split; [reflexivity|]. split; [lia|].
    replace (e2 - e) with (Z.succ (e2 - (e + 1))) by lia.
    rewrite Z.pow_succ_r by lia. lia.
Qed.

Lemma new_location_exact_iff (b r : Z) :
  new_location b r = loc_Exact <-> r = 0.
Proof.
  unfold new_location, new_location_even, new_location_odd.
  destruct (Z.even b); cbv beta; destruct (Z.eqb_spec r 0) as [E|E];
    (split; intros H; [try assumption; try discriminate H|try reflexivity; try contradiction]).
Qed.

(** The quotient stage of the division of two integers below [2^53]:
    [a * 2^s = b * q + r] with [q] of 53 or 54 bits. *)
Lemma div_core_small (a b : positive) :
  Zpos a < 2 ^ 53 -> Zpos b < 2 ^ 53 ->
  exists s q r,
    SFdiv_core_binary PyFloat.prec PyFloat.emax (Zpos a) 0 (Zpos b) 0 =
      (q, - s, new_location (Zpos b) r) /\
    1 <= s <= 105 /\ Zpos b < 2 ^ s /\
    Zpos a * 2 ^ s = Zpos b * q + r /\ 0 <= r < Zpos b /\
    2 ^ 52 <= q < 2 ^ 54.
Proof.
  intros Ha Hb.
  pose proof (digits2_bound a 53 ltac:(lia) Ha) as Hd1.
  pose proof (digits2_bound b 53 ltac:(lia) Hb) as Hd2.
  pose proof (digits2_pos_lt a) as Ha1. pose proof (digits2_pos_ge a) as Ha2.
  pose proof (digits2_pos_lt b) as Hb1. pose proof (digits2_pos_ge b) as Hb2.
  set (d1 := Zpos (digits2_pos a)) in *. set (d2 := Zpos (digits2_pos b)) in *.
  assert (Hd1p : 1 <= d1) by (unfold d1; lia).
  assert (Hd2p : 1 <= d2) by (unfold d2; lia).
  set (s := 53 + d2 - d1).
  exists s, (Zpos a * 2 ^ s / Zpos b), ((Zpos a * 2 ^ s) mod Zpos b).
  assert (Hs : 1 <= s <= 105) by (unfold s; lia).
  assert (Hpow : 0 < 2 ^ s) by (apply Z.pow_pos_nonneg; lia).
  pose proof (Z.div_mod (Zpos a * 2 ^ s) (Zpos b) ltac:(lia)) as Hdm.
  pose proof (Z.mod_pos_bound (Zpos a * 2 ^ s) (Zpos b) ltac:(lia)) as Hr.
  split; [|split; [exact Hs|split; [|split; [exact Hdm|split; [exact Hr|]]]]].
  - unfold SFdiv_core_binary. cbn [Zdigits2]. fold d1 d2.
    replace (Z.min (fexp PyFloat.prec PyFloat.emax (d1 + 0 - (d2 + 0))) (0 - 0)) with (- s)
      by (unfold fexp, emin, PyFloat.prec, PyFloat.emax, s; lia).
    replace (0 - 0 - - s) with s by lia.
    destruct s as [|ps|ps] eqn:Es; try lia.
    rewrite Z.shiftl_mul_pow2 by lia.
    unfold Z.div, Z.modulo.
    destruct (Z.div_eucl (Zpos a * 2 ^ Zpos ps) (Zpos b)) as [q r]. reflexivity.
  - eapply Z.lt_le_trans; [exact Hb1|]. apply Z.pow_le_mono_r; unfold s; lia.
  - set (q := Zpos a * 2 ^ s / Zpos b) in *. set (r := (Zpos a * 2 ^ s) mod Zpos b) in *.
    assert (Hlo : 2 ^ 52 * Zpos b < Zpos a * 2 ^ s).
    { apply Z.lt_le_trans with (2 ^ 52 * 2 ^ d2).
      - apply Z.mul_lt_mono_pos_l; lia.
      - replace (2 ^ 52 * 2 ^ d2) with (2 ^ (d1 - 1) * 2 ^ s).
        + apply Z.mul_le_mono_nonneg_r; lia.
        + rewrite <- !Z.pow_add_r by lia. f_equal. unfold s. lia. }
    assert (Hhi : Zpos a * 2 ^ s < 2 ^ 54 * Zpos b).
    { apply Z.lt_le_trans with (2 ^ d1 * 2 ^ s).
      - apply Z.mul_lt_mono_pos_r; lia.
      - replace (2 ^ d1 * 2 ^ s) with (2 ^ 54 * 2 ^ (d2 - 1)).
        + apply Z.mul_le_mono_nonneg_l; lia.
        + rewrite <- !Z.pow_add_r by lia. f_equal. unfold s. lia. }
    split; nia.
Qed.

(** The rounded mantissa lies in the same unit interval as the exact
    quotient: strictly above [(N - 1) * 2^s] and at most [N * 2^s], when
    [a / b] lies strictly above [N - 1] and is at most [N]. *)
Lemma rounded53_bracket (a b s q r N : Z) (l : location) :
  0 < b -> 1 <= s -> b < 2 ^ s ->
  a * 2 ^ s = b * q + r -> 0 <= r < b -> 0 <= q ->
  (l = loc_Exact <-> r = 0) ->
  (N - 1) * b < a <= N * b ->
  (N - 1) * 2 ^ s < rounded53 q l <= N * 2 ^ s.
Proof.
  intros Hb Hs Hbs Hdiv Hr Hq0 Hl HN.
  assert (HP : exists P', 2 ^ s = 2 * P' /\ 0 < P').
  { exists (2 ^ (s - 1)). split; [|apply Z.pow_pos_nonneg; lia].
    replace s with (Z.succ (s - 1)) at 1 by lia. now rewrite Z.pow_succ_r by lia. }
  destruct HP as [P' [HP HP']]. set (P := 2 ^ s) in *.
  (* the quotient against the two bounds *)
  assert (Hup : q <= N * P) by nia.
  assert (Hup' : 0 < r -> q < N * P) by (intros; nia).
  assert (Hlo : (N - 1) * P + 1 <= q) by nia.
  assert (Hlo' : q = (N - 1) * P + 1 -> 0 < r) by (intros; nia).
  unfold rounded53. destruct (q <? 2 ^ 53).
  - pose proof (round_nearest_even_range q l) as Hrange.
    destruct (Z.eq_dec r 0) as [Hr0|Hr0].
    + apply Hl in Hr0. subst l. cbn [round_nearest_even]. lia.
    + specialize (Hup' ltac:(lia)). lia.
  - pose proof (Z.div_mod q 2 ltac:(lia)) as Hdm.
    pose proof (Z.mod_pos_bound q 2 ltac:(lia)) as Hmod.
    pose proof (round_nearest_even_range (q / 2) (loc_shift q l)) as Hrange.
    unfold loc_shift in *. rewrite Zeven_mod in *.
    destruct (q mod 2 =? 0) eqn:E.
    + apply Z.eqb_eq in E.
      assert (Hrne : round_nearest_even (q / 2)
                       match l with loc_Exact => loc_Exact | _ => loc_Inexact Lt end = q / 2)
        by (destruct l as [|[]]; reflexivity).
      rewrite Hrne. lia.
    + apply Z.eqb_neq in E.
      destruct (Z.eq_dec r 0) as [Hr0|Hr0].
      * specialize (Hlo' : _). lia.
      * assert (Hl' : l <> loc_Exact) by (intros Hx; apply Hl in Hx; contradiction).
        assert (Hrne : round_nearest_even (q / 2)
                         match l with loc_Exact => loc_Inexact Eq | _ => loc_Inexact Gt end =
                       q / 2 + 1)
          by (destruct l as [|[]]; [contradiction| | |]; reflexivity).
        rewrite Hrne. specialize (Hup' ltac:(lia)). lia.
Qed.

Lemma ceil_div_unique (m D N : Z) :
  0 < D -> (N - 1) * D < m <= N * D -> - ((- m) / D) = N.
Proof.
  intros HD Hm. assert (H : - N = (- m) / D); [|lia].
  apply Z.div_unique with (r := N * D - m); [left; lia|ring].
Qed.

Lemma ceil_of_finite (m : positive) (e s N : Z) :
  0 <= s -> - s <= e ->
  (N - 1) * 2 ^ s < Zpos m * 2 ^ (e + s) <= N * 2 ^ s ->
  PyFloat.ceil (S754_finite false m e) = Ret N.
Proof.
  intros Hs He Hb. unfold PyFloat.ceil.
  destruct (0 <=? e) eqn:E.
  - apply Z.leb_le in E. cbn [cond_Zopp]. f_equal.
    rewrite Z.pow_add_r in Hb by lia.
    assert (0 < 2 ^ s) by (apply Z.pow_pos_nonneg; lia). nia.
  - apply Z.leb_gt in E. f_equal. apply ceil_div_unique; [apply Z.pow_pos_nonneg; lia|].
    replace (2 ^ s) with (2 ^ (- e) * 2 ^ (e + s)) in Hb
      by (rewrite <- Z.pow_add_r by lia; f_equal; lia).
    assert (0 < 2 ^ (e + s)) by (apply Z.pow_pos_nonneg; lia). nia.
Qed.

Lemma ceil_quotient_bounds (a b : Z) :
  0 < b -> ((a + b - 1) / b - 1) * b < a <= (a + b - 1) / b * b.
Proof.
  intros Hb.
  pose proof (Z.div_mod (a + b - 1) b ltac:(lia)).
  pose proof (Z.mod_pos_bound (a + b - 1) b Hb). nia.
Qed.

(** [math.ceil(a / b)] for positive integers below [2^53] is the ceiling
    of the exact quotient: the rounding of the division to a double never
    reaches the integer below. *)
Lemma ceil_truediv_exact (a b : Z) :
  0 < a < 2 ^ 53 -> 0 < b < 2 ^ 53 ->
  (q <- PyFloat.int_truediv a b ;; PyFloat.ceil q) = Ret ((a + b - 1) / b).
Proof.
  intros Ha Hb. destruct a as [|pa|pa]; try lia. destruct b as [|pb|pb]; try lia.
  unfold PyFloat.int_truediv. cbn [Z.abs Z.to_pos Z.ltb Z.compare xorb].
  unfold PyFloat.of_ratio, PyFloat.div, SFdiv.
  destruct (div_core_small pa pb) as [s [q [r [-> [Hs [Hbs [Hdiv [Hr Hq]]]]]]]]; [lia|lia|].
  cbn [xorb].
  destruct (binary_round_aux_53 q (- s) (new_location (Zpos pb) r)) as [m [e2 [-> [He2 Hm]]]];
    [lia|lia|].
  cbn [PyFloat.is_inf bindR].
  apply ceil_of_finite with (s := s); [lia|lia|].
  replace (e2 + s) with (e2 - - s) by lia. rewrite Hm.
  apply rounded53_bracket with (a := Zpos pa) (b := Zpos pb) (r := r); try lia.
  - apply new_location_exact_iff.
  - apply ceil_quotient_bounds. lia.
Qed.

(** X13.  [total_pages] is the exact ceiling of [total_count / page_size]
    whenever the store holds fewer than [2^53] documents: the quotient is
    formed in floating point, and its rounding never changes the
    ceiling.  So the last page is not empty and the pages before it are
    full. *)
Theorem X13_total_pages_exact (docs : list Mongo.Document) (county_name : string)
        (page page_size : Z) (model_year : option Z)
        (sort_by : Routes.SortField) (sort_order : Routes.SortOrder)
        (r : ApiModels.CountyVehiclesResponse) :
  Mongo.count docs < 2 ^ 53 ->
  Routes.get_vehicles_by_county (Mongo.Online docs) county_name page page_size
                                model_year sort_by sort_order = Routes.Ok r ->
  ApiModels.total_pages r = pages_needed (ApiModels.total_count r) (ApiModels.page_size r) /\
  (ApiModels.total_pages r - 1) * ApiModels.page_size r < ApiModels.total_count r /\
  ApiModels.total_count r <= ApiModels.total_pages r * ApiModels.page_size r.
Proof.
  intros Hn H.
  destruct (county_ok _ _ _ _ _ _ _ _ H) as [[Hp Hs] [Hne [_ [Ht [_ [Hps [Hceil _]]]]]]].
  pose proof (count_find_le (Routes.county_query county_name model_year) docs) as Hle.
  assert (Hpos : 0 < Mongo.count (Routes.find (Routes.county_query county_name model_year) docs)).
  { destruct (Routes.find _ docs); [congruence|rewrite count_cons].
    pose proof (count_nonneg l). lia. }
  rewrite ceil_truediv_exact in Hceil by lia.
  injection Hceil as Hpages. rewrite Ht, Hps, <- Hpages. fold (pages_needed
    (Mongo.count (Routes.find (Routes.county_query county_name model_year) docs)) page_size).
  split; [reflexivity|]. unfold pages_needed.
  pose proof (ceil_quotient_bounds
                (Mongo.count (Routes.find (Routes.county_query county_name model_year) docs))
                page_size ltac:(lia)). lia.
Qed.

Lemma X13_total_pages_exact_witness :
  ApiModels.total_pages king_first_page =
    pages_needed (ApiModels.total_count king_first_page) (ApiModels.page_size king_first_page) /\
  (ApiModels.total_pages king_first_page - 1) * ApiModels.page_size king_first_page <
    ApiModels.total_count king_first_page /\
  ApiModels.total_count king_first_page <=
    ApiModels.total_pages king_first_page * ApiModels.page_size king_first_page.
Proof.
  apply (X13_total_pages_exact small_store "king" 1 1 None Routes.sort_model_year Routes.desc);
    vm_compute; reflexivity.
Defined.

(** ** The filters of the analyze operation *)

Lemma in_upper_drop_empty (field : Mongo.Document -> string) (o : option (list string)) :
  Routes.in_upper field (drop_empty o) = Routes.in_upper field o.
Proof. destruct o as [[|v vs]|]; reflexivity. Qed.

Lemma in_upper_upper (field : Mongo.Document -> string) (o : option (list string)) :
  Routes.in_upper field (option_map (map PyStr.upper) o) = Routes.in_upper field o.
Proof.
  destruct o as [[|v vs]|]; try reflexivity. cbn [option_map map Routes.in_upper].
  rewrite upper_idempotent, map_map.
  rewrite (map_ext (fun x => PyStr.upper (PyStr.upper x)) PyStr.upper)
    by (intros; apply upper_idempotent).
  reflexivity.
Qed.

Lemma match_stage_drop_falsy (f : ApiModels.AnalyzeFilters) :
  Routes.match_stage (drop_falsy f) = Routes.match_stage f.
Proof.
  unfold Routes.match_stage, drop_falsy.
  cbn [ApiModels.makes ApiModels.model_years ApiModels.min_electric_range ApiModels.counties
       ApiModels.vehicle_types].
  rewrite !in_upper_drop_empty. f_equal. f_equal; [|f_equal].
  - destruct (ApiModels.model_years f) as [[|kv rest]|]; reflexivity.
  - destruct (ApiModels.min_electric_range f) as [[|p|p]|]; reflexivity.
Qed.

Lemma match_stage_upper_filters (f : ApiModels.AnalyzeFilters) :
  Routes.match_stage (upper_filters f) = Routes.match_stage f.
Proof.
  unfold Routes.match_stage, upper_filters.
  cbn [ApiModels.makes ApiModels.model_years ApiModels.min_electric_range ApiModels.counties
       ApiModels.vehicle_types].
  now rewrite !in_upper_upper.
Qed.

Lemma negative_min_range_drop_falsy (f : ApiModels.AnalyzeFilters) :
  Routes.negative_min_range (drop_falsy f) = Routes.negative_min_range f.
Proof.
  unfold Routes.negative_min_range, drop_falsy. cbn [ApiModels.min_electric_range].
  destruct (ApiModels.min_electric_range f) as [[|p|p]|]; reflexivity.
Qed.

Lemma find_nothing (q : Routes.Query) (docs : list Mongo.Document) :
  (forall d, Routes.matches q d = false) -> Routes.find q docs = [].
Proof.
  intros H. unfold Routes.find. induction docs as [|d t IH]; simpl; [reflexivity|].
  now rewrite H.
Qed.

(** X14.  The filters of an analyze request: a filter that is present but
    falsy (an empty list, an empty year dictionary, a minimum range of 0)
    has the effect of an absent one; makes, counties and vehicle types
    are compared in upper case, so their case in the request does not
    matter; and a year range whose start lies after its end matches
    nothing, which is answered with the 404 of an empty result. *)
Theorem X14_analyze_filters :
  (forall collection f g,
     Routes.analyze_vehicles collection
       {| ApiModels.filters := drop_falsy f; ApiModels.group_by := g |} =
     Routes.analyze_vehicles collection {| ApiModels.filters := f; ApiModels.group_by := g |}) /\
  (forall collection f g,
     Routes.analyze_vehicles collection
       {| ApiModels.filters := upper_filters f; ApiModels.group_by := g |} =
     Routes.analyze_vehicles collection {| ApiModels.filters := f; ApiModels.group_by := g |}) /\
  (forall docs f g years start stop,
     ApiModels.model_years f = Some years ->
     Routes.dict_get "start" years = Some start ->
     Routes.dict_get "end" years = Some stop ->
     stop < start ->
     Routes.negative_min_range f = false ->
     Routes.analyze_vehicles (Mongo.Online docs)
       {| ApiModels.filters := f; ApiModels.group_by := g |} =
     Routes.Fail (Routes.NotFound "No vehicles match the specified filters")).
Proof.
  split; [|split].
  - intros collection f g. unfold Routes.analyze_vehicles. cbn [ApiModels.filters ApiModels.group_by].
    now rewrite negative_min_range_drop_falsy, match_stage_drop_falsy.
  - intros collection f g. unfold Routes.analyze_vehicles. cbn [ApiModels.filters ApiModels.group_by].
    now rewrite match_stage_upper_filters.
  - intros docs f g years start stop Hy Hs He Hlt Hneg.
    unfold Routes.analyze_vehicles. cbn [ApiModels.filters ApiModels.group_by]. rewrite Hneg.
    rewrite find_nothing; [reflexivity|].
    intros d. unfold Routes.match_stage, Routes.matches. rewrite !forallb_app.
    assert (Hyf : forallb (fun cond => cond d) (Routes.year_filter (ApiModels.model_years f)) = false).
    { rewrite Hy. unfold Routes.year_filter. destruct years as [|kv rest]; [discriminate Hs|].
      rewrite Hs, He. cbn [app forallb].
      destruct (start <=? Validation.model_year d) eqn:E1; [|reflexivity].
      destruct (Validation.model_year d <=? stop) eqn:E2; [|reflexivity].
      apply Z.leb_le in E1, E2. lia. }
    rewrite Hyf. now rewrite andb_false_r.
Qed.

Lemma X14_analyze_filters_witness :
  Routes.analyze_vehicles (Mongo.Online small_store)
    {| ApiModels.filters := backwards_years; ApiModels.group_by := ApiModels.by_make |} =
  Routes.Fail (Routes.NotFound "No vehicles match the specified filters").
Proof.
  destruct X14_analyze_filters as [_ [_ H]].
  apply (H small_store backwards_years ApiModels.by_make
           [("start", 2025); ("end", 2020)] 2025 2020);
    reflexivity.
Defined.

(** ** The results of [transform] *)

Lemma transform_records (df : Etl.DataFrame) :
  map (Etl.map_cells Etl.stringify_cell)
      (map (Etl.map_cells Etl.fillna_cell) (Etl.normalize_column_names df)) =
  map Etl.normalize_row df.
Proof. unfold Etl.normalize_column_names. rewrite !map_map. reflexivity. Qed.

Lemma loop_body_result (acc : list Validation.VehicleRecord * list Validation.ValidationErrorEntry)
      (idx : Z) (r : Etl.Row) :
  match Validation.validate (Etl.normalize_row r) with
  | Validation.Raised e => Etl.loop_body acc idx (Etl.normalize_row r) = Raise e
  | _ => Etl.loop_body acc idx (Etl.normalize_row r) =
           Ret (fst acc ++ valid_of r, snd acc ++ error_of idx r)
  end.
Proof.
  unfold Etl.loop_body, Etl.validate_record, valid_of, error_of. destruct acc as [valid errs].
  destruct (Validation.validate (Etl.normalize_row r)); cbn; rewrite ?app_nil_r; reflexivity.
Qed.

Lemma validation_loop_result (df : Etl.DataFrame) :
  forall acc idx out,
    Etl.validation_loop acc idx (map Etl.normalize_row df) = Ret out ->
    out = (fst acc ++ flat_map valid_of df, snd acc ++ errors_from idx df).
Proof.
  induction df as [|r t IH]; intros acc idx out; cbn [map Etl.validation_loop flat_map errors_from].
  - intros H. inversion H. rewrite !app_nil_r. now destruct out.
  - pose proof (loop_body_result acc idx r) as Hb.
    destruct (Validation.validate (Etl.normalize_row r)); rewrite Hb; cbn [bindR];
      try discriminate; intros H; apply IH in H; rewrite H; cbn [fst snd];
      now rewrite <- !app_assoc.
Qed.

Lemma transform_result (df : Etl.DataFrame) (valid : list Validation.VehicleRecord)
      (report : Validation.DataQualityReport) :
  Etl.transform df = Ret (valid, report) ->
  valid = flat_map valid_of df /\
  report =
    {| Validation.total_records := Etl.len df;
       Validation.valid_records := Etl.len (flat_map valid_of df);
       Validation.invalid_records := Etl.len (errors_from 0 df);
       Validation.missing_values :=
         Etl.analyze_missing_values (Etl.normalize_column_names df);
       Validation.validation_errors := firstn 100 (errors_from 0 df) |}.
Proof.
  unfold Etl.transform. rewrite transform_records.
  destruct (Etl.validation_loop ([], []) 0 (map Etl.normalize_row df)) as [[v e]|] eqn:E;
    [|discriminate].
  apply validation_loop_result in E. cbn [fst snd app] in E. inversion E; subst v e.
  cbn [bindR]. intros H. inversion H; subst. split; [reflexivity|].
  f_equal. unfold Etl.len. now rewrite length_map.
Qed.

Lemma valid_of_In (r : Etl.Row) (v : Validation.VehicleRecord) :
  In v (valid_of r) <-> Validation.validate (Etl.normalize_row r) = Validation.Valid v.
Proof.
  unfold valid_of. destruct (Validation.validate (Etl.normalize_row r)); simpl; split;
    intros H; try tauto; try discriminate.
  - destruct H as [->|[]]. reflexivity.
  - inversion H. now left.
Qed.

(** X15.  When [transform] returns, the records it hands on are exactly
    the records built from the rows whose normalized form passes
    validation, one per such row and in row order; a rejected row
    contributes nothing. *)
Theorem X15_transform_valid_records (df : Etl.DataFrame)
        (valid : list Validation.VehicleRecord) (report : Validation.DataQualityReport) :
  Etl.transform df = Ret (valid, report) ->
  valid = flat_map valid_of df /\
  (forall v, In v valid <->
             exists r, In r df /\
                       Validation.validate (Etl.normalize_row r) = Validation.Valid v).
Proof.
  intros H. destruct (transform_result _ _ _ H) as [-> _]. split; [reflexivity|].
  intros v. rewrite in_flat_map. split; intros [r [Hr Hv]]; exists r; split; try exact Hr;
    now apply valid_of_In.
Qed.

Lemma X15_transform_valid_records_witness :
  exists valid report,
    Etl.transform sample_frame = Ret (valid, report) /\
    valid = flat_map valid_of sample_frame /\
    map Validation.dol_vehicle_id valid = ["12345"].
Proof.
  do 2 eexists. split; [vm_compute; reflexivity|].
  split; [|vm_compute; reflexivity].
  refine (proj1 (X15_transform_valid_records sample_frame _ _ _)).
  vm_compute. reflexivity.
Defined.

Lemma errors_from_index (df : Etl.DataFrame) :
  forall idx e, In e (errors_from idx df) ->
    idx <= Validation.record_index e < idx + Etl.len df /\
    exists row,
      nth_error df (Z.to_nat (Validation.record_index e - idx)) = Some row /\
      Validation.validate (Etl.normalize_row row) = Validation.Invalid (Validation.error e) /\
      Validation.vin e = Etl.get_vin (Etl.normalize_row row).
Proof.
  induction df as [|r t IH]; intros idx e; cbn [errors_from]; [intros []|].
  rewrite in_app_iff. unfold Etl.len in *. cbn [List.length]. intros [H|H].
  - unfold error_of in H.
    destruct (Validation.validate (Etl.normalize_row r)) eqn:E; try destruct H as [<-|[]];
      try destruct H.
    cbn. split; [lia|]. exists r. rewrite Z.sub_diag. cbn. auto.
  - apply IH in H. destruct H as [Hi [row [Hn Hv]]]. split; [lia|].
    exists row. split; [|exact Hv].
    replace (Z.to_nat (Validation.record_index e - idx))
      with (S (Z.to_nat (Validation.record_index e - (idx + 1)))) by lia.
    exact Hn.
Qed.

Lemma errors_from_sorted (df : Etl.DataFrame) :
  forall idx, StronglySorted Z.lt (map Validation.record_index (errors_from idx df)).
Proof.
  induction df as [|r t IH]; intros idx; cbn [errors_from]; [constructor|].
  unfold error_of. destruct (Validation.validate (Etl.normalize_row r)); cbn [app map];
    try apply IH.
  constructor; [apply IH|]. rewrite Forall_forall. intros i Hi.
  apply in_map_iff in Hi. destruct Hi as [e [<- He]].
  apply errors_from_index in He. cbn. lia.
Qed.

(** X16.  The error list of the quality report holds the entries of the
    first 100 rejected rows only, while [invalid_records] counts every
    rejected row.  The entries come in row order, and each carries the
    0-based position of its row in the input, the errors of that row and
    its VIN cell. *)
Theorem X16_report_errors (df : Etl.DataFrame)
        (valid : list Validation.VehicleRecord) (report : Validation.DataQualityReport) :
  Etl.transform df = Ret (valid, report) ->
  Validation.validation_errors report = firstn 100 (errors_from 0 df) /\
  Validation.invalid_records report = Etl.len (errors_from 0 df) /\
  Etl.len (Validation.validation_errors report) =
    Z.min 100 (Validation.invalid_records report) /\
  StronglySorted Z.lt (map Validation.record_index (Validation.validation_errors report)) /\
  (forall e, In e (Validation.validation_errors report) ->
     0 <= Validation.record_index e < Validation.total_records report /\
     exists row,
       nth_error df (Z.to_nat (Validation.record_index e)) = Some row /\
       Validation.validate (Etl.normalize_row row) = Validation.Invalid (Validation.error e) /\
       Validation.vin e = Etl.get_vin (Etl.normalize_row row)).
Proof.
  intros H. destruct (transform_result _ _ _ H) as [_ ->].
  cbn [Validation.validation_errors Validation.invalid_records Validation.total_records].
  split; [reflexivity|]. split; [reflexivity|]. split; [|split].
  - unfold Etl.len. rewrite length_firstn. lia.
  - rewrite <- firstn_map. apply StronglySorted_firstn, errors_from_sorted.
  - intros e He. apply In_firstn in He. apply errors_from_index in He.
    rewrite Z.sub_0_r in He. exact He.
Qed.

Lemma X16_report_errors_witness :
  exists valid report,
    Etl.transform sample_frame = Ret (valid, report) /\
    Validation.invalid_records report = 2 /\
    StronglySorted Z.lt (map Validation.record_index (Validation.validation_errors report)).
Proof.
  do 2 eexists. split; [vm_compute; reflexivity|].
  match goal with
  | |- _ /\ StronglySorted _ (map _ (Validation.validation_errors ?r)) =>
      destruct (X16_report_errors sample_frame _ r ltac:(vm_compute; reflexivity))
        as [_ [Hi [_ [Hs _]]]]
  end.
  split; [vm_compute; reflexivity|exact Hs].
Defined.

(** ** When [transform] is ended by an exception *)

Lemma to_int_overflow (f : spec_float) :
  PyFloat.to_int f = Raise OverflowError <-> PyFloat.is_inf f = true.
Proof. destruct f; simpl; split; intros H; try discriminate; reflexivity. Qed.

Lemma handle_numeric_na_overflow (v : PyVal) :
  Validation.handle_numeric_na v = Raise OverflowError <-> overflows v.
Proof.
  unfold Validation.handle_numeric_na.
  destruct v as [|z|f|s]; cbn [Validation.is_na_sentinel py_float overflows].
  - split; [discriminate|tauto].
  - unfold PyFloat.of_int. destruct (PyFloat.is_inf (PyFloat.of_Z z)) eqn:E; cbn [bindR].
    + tauto.
    + split; [|discriminate].
      destruct (PyFloat.to_int (PyFloat.of_Z z)) as [n|[]] eqn:Et; try discriminate.
      apply to_int_overflow in Et. congruence.
  - cbn [bindR]. rewrite <- to_int_overflow.
    destruct (PyFloat.to_int f) as [n|[]]; split; intros H; try discriminate; reflexivity.
  - destruct (PyStr.mem s [""; "NA"; "N/A"]) eqn:Em.
    + split; [discriminate|]. intros [sign Hs]. exfalso.
      unfold PyStr.mem in Em. cbn [existsb] in Em.
      repeat (apply orb_true_iff in Em; destruct Em as [Em|Em]);
        try (apply String.eqb_eq in Em; subst s; vm_compute in Hs; discriminate Hs).
      discriminate Em.
    + destruct (PyFloat.of_string s) as [f|e] eqn:Ef; cbn [bindR].
      * split.
        -- intros H. destruct (PyFloat.to_int f) as [n|[]] eqn:Et; try discriminate.
           apply to_int_overflow in Et. destruct f; try discriminate. eauto.
        -- intros [sign Hs]. inversion Hs; subst. reflexivity.
      * pose proof (of_string_raises _ _ Ef) as ->.
        split; [discriminate|]. intros [sign Hs]. discriminate Hs.
Qed.

Lemma check_numeric_na_overflow (v : PyVal) (e : PyExn) :
  Validation.check_numeric_na v = Validation.FRaise e <-> (e = OverflowError /\ overflows v).
Proof.
  split.
  - intros H. pose proof (check_numeric_na_raises _ _ H) as ->. split; [reflexivity|].
    apply handle_numeric_na_overflow. unfold Validation.check_numeric_na in H.
    destruct (Validation.handle_numeric_na v) as [z|e'].
    + cbn [Validation.check_int Validation.bindF] in H.
      now apply check_bounds_no_raise in H.
    + congruence.
  - intros [-> H]. apply handle_numeric_na_overflow in H.
    unfold Validation.check_numeric_na. now rewrite H.
Qed.

Lemma numeric_field_raises (n : string) (data : PyDict) (e : PyExn) :
  Validation.with_default Validation.check_numeric_na 0 n data = Validation.FRaise e <->
  (e = OverflowError /\ exists v, lookup n data = Some v /\ overflows v).
Proof.
  unfold Validation.with_default. destruct (lookup n data) as [v|].
  - rewrite check_numeric_na_overflow. split.
    + intros [He Hv]. eauto.
    + intros [He [v' [Hv' Ho]]]. inversion Hv'; subst. auto.
  - split; [discriminate|]. intros [_ [v [Hv _]]]. discriminate Hv.
Qed.

(** The construction of a record is ended by an exception exactly when
    one of its two numeric fields overflows. *)
Lemma validate_raised_iff (data : PyDict) :
  (exists e, Validation.validate data = Validation.Raised e) <-> numeric_overflow data.
Proof.
  split.
  - intros [e H]. unfold Validation.validate in H.
    destruct (Validation.escaping data) as [|e' t] eqn:E.
    + destruct (Validation.errors_of data); discriminate H.
    + assert (Hin : In e' (Validation.escaping data)) by (rewrite E; now left).
      apply In_escaping in Hin. destruct Hin as [n Hin].
      unfold Validation.field_status in Hin. cbn [In] in Hin.
      repeat (destruct Hin as [Hin|Hin];
        [ inversion Hin as [[Hn Hs]]; clear Hin; apply status_FRaise in Hs;
          first [ apply numeric_field_raises in Hs; destruct Hs as [_ [v [Hv Ho]]];
                  exists v; split; [auto|exact Ho]
                | exfalso;
                  first [ apply required_raises in Hs | apply with_default_raises in Hs ];
                  destruct Hs as [v Hv]; revert Hv;
                  first [ apply check_str_no_raise | apply check_opt_str_no_raise
                        | apply check_model_year_no_raise | apply check_normalized_no_raise
                        | apply check_ev_type_no_raise ] ]
        | ]).
      destruct Hin.
  - intros [v [Hl Ho]].
    assert (Hin : In OverflowError (Validation.escaping data)).
    { apply In_escaping. destruct Hl as [Hl|Hl].
      - exists "electric_range". unfold Validation.field_status. cbn [In].
        do 10 right. left. f_equal.
        unfold Validation.f_electric_range.
        rewrite (proj2 (numeric_field_raises "electric_range" data OverflowError)); [reflexivity|].
        eauto.
      - exists "base_msrp". unfold Validation.field_status. cbn [In].
        do 11 right. left. f_equal.
        unfold Validation.f_base_msrp.
        rewrite (proj2 (numeric_field_raises "base_msrp" data OverflowError)); [reflexivity|].
        eauto. }
    unfold Validation.validate. destruct (Validation.escaping data); [destruct Hin|eauto].
Qed.

Lemma validation_loop_raises_iff (df : Etl.DataFrame) :
  forall acc idx,
    (exists e, Etl.validation_loop acc idx (map Etl.normalize_row df) = Raise e) <->
    (exists r, In r df /\ numeric_overflow (Etl.normalize_row r)).
Proof.
  induction df as [|r t IH]; intros acc idx; cbn [map Etl.validation_loop].
  - split; [intros [e H]; discriminate H|intros [r [[] _]]].
  - pose proof (loop_body_result acc idx r) as Hb.
    pose proof (validate_raised_iff (Etl.normalize_row r)) as Hv.
    destruct (Validation.validate (Etl.normalize_row r)) as [v|errs|e] eqn:E;
      rewrite Hb; cbn [bindR].
    + rewrite IH. split.
      * intros [r' [Hr' Ho]]. exists r'. split; [now right|exact Ho].
      * intros [r' [[<-|Hr'] Ho]]; [|eauto].
        apply Hv in Ho. destruct Ho as [e Ho]. discriminate Ho.
    + rewrite IH. split.
      * intros [r' [Hr' Ho]]. exists r'. split; [now right|exact Ho].
      * intros [r' [[<-|Hr'] Ho]]; [|eauto].
        apply Hv in Ho. destruct Ho as [e Ho]. discriminate Ho.
    + split; [|eauto]. intros _. exists r. split; [now left|]. apply Hv. eauto.
Qed.

(** X17.  [transform] is ended by an exception, and produces no report
    at all, exactly when some row holds an infinite value in
    [electric_range] or [base_msrp] (an infinite float, text such as
    "inf", or an integer past the range of a double); the exception is
    [OverflowError], which [validate_record] does not catch.  One such
    row among any number of good ones is enough. *)
Theorem X17_transform_overflow (df : Etl.DataFrame) :
  (Etl.transform df = Raise OverflowError <->
   exists r, In r df /\ numeric_overflow (Etl.normalize_row r)) /\
  (forall e, Etl.transform df = Raise e -> e = OverflowError).
Proof.
  assert (He : forall e, Etl.transform df = Raise e -> e = OverflowError).
  { intros e H.
    pose proof (validation_loop_spec (map Etl.normalize_row df) ([], []) 0) as Hs.
    unfold Etl.transform in H. rewrite transform_records in H.
    destruct (Etl.validation_loop ([], []) 0 (map Etl.normalize_row df)) as [[v er]|e'];
      cbn [bindR] in H; [discriminate H|]. congruence. }
  split; [|exact He].
  rewrite <- (validation_loop_raises_iff df ([], []) 0). split.
  - intros H. exists OverflowError. unfold Etl.transform in H. rewrite transform_records in H.
    destruct (Etl.validation_loop ([], []) 0 (map Etl.normalize_row df)) as [[v er]|e'];
      cbn [bindR] in H; [discriminate H|inversion H; reflexivity].
  - intros [e H].
    assert (Ht : Etl.transform df = Raise e).
    { unfold Etl.transform. rewrite transform_records, H. reflexivity. }
    now rewrite (He e Ht) in Ht.
Qed.

Lemma X17_transform_overflow_witness :
  Etl.transform (sample_frame ++ [infinite_range_row]) = Raise OverflowError.
Proof.
  apply (proj1 (X17_transform_overflow (sample_frame ++ [infinite_range_row]))).
  exists infinite_range_row. split; [apply in_or_app; right; now left|].
  exists (VStr "inf"). split; [left; reflexivity|]. exists false. vm_compute. reflexivity.
Defined.

(** ** Column names and missing values *)

Lemma rename_row_idempotent (r : Etl.Row) : Etl.rename_row (Etl.rename_row r) = Etl.rename_row r.
Proof.
  unfold Etl.rename_row. rewrite map_map. apply map_ext. intros [c v]. cbn [fst snd].
  now rewrite rename_column_idempotent.
Qed.

(** X18.  [normalize_column_names] renames and does nothing else: the
    cells are untouched, a header that is not one of the seventeen known
    ones is kept as it is, and renaming twice is renaming once.  The
    seventeen names it produces are exactly the declared fields of
    [VehicleRecord], in declaration order. *)
Theorem X18_column_names :
  (forall df, Etl.normalize_column_names (Etl.normalize_column_names df) =
              Etl.normalize_column_names df) /\
  (forall df, map (map snd) (Etl.normalize_column_names df) = map (map snd) df) /\
  (forall c, Etl.assoc c Etl.column_mapping = None -> Etl.rename_column c = c) /\
  (forall data, map snd Etl.column_mapping = map fst (Validation.field_status data)) /\
  NoDup (map fst Etl.column_mapping).
Proof.
  split; [|split; [|split; [|split]]].
  - intros df. unfold Etl.normalize_column_names. rewrite map_map.
    apply map_ext. intros r. apply rename_row_idempotent.
  - intros df. unfold Etl.normalize_column_names, Etl.rename_row. rewrite map_map.
    apply map_ext. intros r. rewrite map_map. reflexivity.
  - intros c H. unfold Etl.rename_column. now rewrite H.
  - intros data. reflexivity.
  - unfold Etl.column_mapping. cbn [map fst].
    repeat (constructor;
            [cbn [In]; intros H; repeat (destruct H as [H|H]; [discriminate H|]); exact H|]).
    constructor.
Qed.

Lemma count_null_bounds (c : string) (df : Etl.DataFrame) :
  0 <= Etl.count_null c df <= Etl.len df.
Proof.
  unfold Etl.count_null, Etl.len. split; [lia|].
  apply Nat2Z.inj_le. apply filter_length_le.
Qed.

Lemma count_null_positive (c : string) (df : Etl.DataFrame) :
  0 < Etl.count_null c df <->
  exists r v, In r df /\ lookup c r = Some v /\ Etl.isnull v = true.
Proof.
  unfold Etl.count_null.
  match goal with |- context [filter ?g df] => set (f := g) end.
  split.
  - intros H. destruct (filter f df) as [|r t] eqn:E; [simpl in H; lia|].
    assert (Hin : In r (filter f df)) by (rewrite E; now left).
    apply filter_In in Hin. destruct Hin as [Hr Hf]. unfold f in Hf.
    destruct (lookup c r) as [v|] eqn:L; [|discriminate]. eauto.
  - intros [r [v [Hr [L Hn]]]].
    assert (Hin : In r (filter f df)).
    { apply filter_In. split; [exact Hr|]. unfold f. now rewrite L. }
    destruct (filter f df); [destruct Hin|simpl; lia].
Qed.

(** X19.  The missing-value summary lists a column exactly when the
    column has a null cell, with the number of rows in which it is null:
    every count is at least 1 and at most the number of rows, and a
    column without null cells does not appear.  In the quality report
    the summary is taken after the headers are renamed and before the
    defaults are filled in, so the defaulted columns are reported too. *)
Theorem X19_missing_values (df : Etl.DataFrame) :
  (forall c n, In (c, n) (Etl.analyze_missing_values df) ->
     n = Etl.count_null c df /\ 1 <= n <= Etl.len df /\
     exists r v, In r df /\ lookup c r = Some v /\ Etl.isnull v = true) /\
  (forall r0 rest c, df = r0 :: rest -> In c (keys r0) ->
     (exists r v, In r df /\ lookup c r = Some v /\ Etl.isnull v = true) ->
     In (c, Etl.count_null c df) (Etl.analyze_missing_values df)) /\
  (forall valid report, Etl.transform df = Ret (valid, report) ->
     Validation.missing_values report =
       Etl.analyze_missing_values (Etl.normalize_column_names df)).
Proof.
  split; [|split].
  - intros c n H. unfold Etl.analyze_missing_values in H.
    destruct df as [|r0 rest]; [destruct H|].
    apply filter_In in H. destruct H as [Hin Hpos]. cbn [snd] in Hpos.
    apply in_map_iff in Hin. destruct Hin as [c' [Heq _]]. inversion Heq; subst c' n.
    apply Z.ltb_lt in Hpos. split; [reflexivity|].
    pose proof (count_null_bounds c (r0 :: rest)). split; [lia|].
    now apply count_null_positive.
  - intros r0 rest c -> Hc Hnull. unfold Etl.analyze_missing_values.
    apply filter_In. split.
    + apply in_map_iff. exists c. auto.
    + cbn [snd]. apply Z.ltb_lt. now apply count_null_positive.
  - intros valid report H. now destruct (transform_result _ _ _ H) as [_ ->].
Qed.

Lemma X19_missing_values_witness :
  exists valid report,
    Etl.transform sample_frame = Ret (valid, report) /\
    Validation.missing_values report = [("county", 1); ("dol_vehicle_id", 1)].
Proof.
  do 2 eexists. split; [vm_compute; reflexivity|].
  erewrite (proj2 (proj2 (X19_missing_values sample_frame))); [|vm_compute; reflexivity].
  vm_compute. reflexivity.
Defined.

(** ** Loading in batches *)

Lemma after_nil (s : Pipeline.State) : after s [] = s.
Proof. unfold after. rewrite app_nil_r. now destruct s. Qed.

Lemma after_after (s : Pipeline.State) (l1 l2 : list Pipeline.Effect) :
  after (after s l1) l2 = after s (l1 ++ l2).
Proof. unfold after. cbn. now rewrite app_assoc. Qed.

Lemma perform_ok (w : Pipeline.World) (ef : Pipeline.Effect) (s : Pipeline.State) :
  Pipeline.perform ef None s = (Pipeline.Done tt, after s [ef]).
Proof. reflexivity. Qed.

Lemma perform_fails (ef : Pipeline.Effect) (e : Pipeline.Exn) (s : Pipeline.State) :
  Pipeline.perform ef (Some e) s = (Pipeline.Failed e, after s [ef]).
Proof. reflexivity. Qed.

Lemma create_each_ok (w : Pipeline.World) (names : list string) :
  (forall n, Pipeline.index_error w n = None) ->
  forall s, Pipeline.create_each w names s = (Pipeline.Done tt, after s (map Pipeline.CreateIndex names)).
Proof.
  intros Hok. induction names as [|n rest IH]; intros s; cbn [Pipeline.create_each map].
  - unfold Pipeline.ret. now rewrite after_nil.
  - unfold Pipeline.bind. rewrite Hok, perform_ok by exact w. rewrite IH, after_after. reflexivity.
Qed.

Lemma get_collection_connected (w : Pipeline.World) (s : Pipeline.State) :
  Pipeline.db (Pipeline.manager s) = true ->
  Pipeline.get_collection w s = (Pipeline.Done tt, s).
Proof.
  intros H. unfold Pipeline.get_collection, Pipeline.bind, Pipeline.get_manager.
  now rewrite H.
Qed.

Lemma create_indexes_ok (w : Pipeline.World) (s : Pipeline.State) :
  Pipeline.db (Pipeline.manager s) = true ->
  (forall n, Pipeline.index_error w n = None) ->
  Pipeline.create_indexes w s =
    (Pipeline.Done tt, after s (map Pipeline.CreateIndex Pipeline.index_names)).
Proof.
  intros Hdb Hok. unfold Pipeline.create_indexes, Pipeline.bind.
  rewrite get_collection_connected by exact Hdb. now apply create_each_ok.
Qed.

Lemma insert_batches_ok (w : Pipeline.World) (records : list Validation.VehicleRecord)
      (batch_size : Z) (starts : list Z) :
  (forall b, Pipeline.insert_error w b = None) ->
  (forall i, In i starts -> PySeq.slice records i (i + batch_size) <> []) ->
  forall s,
    Pipeline.insert_batches w records batch_size starts s =
      (Pipeline.Done tt,
       after s (map (fun i => Pipeline.InsertMany (PySeq.slice records i (i + batch_size)))
                    starts)).
Proof.
  intros Hok. induction starts as [|i rest IH]; intros Hne s;
    cbn [Pipeline.insert_batches map].
  - unfold Pipeline.ret. now rewrite after_nil.
  - unfold Pipeline.bind, Pipeline.insert_many.
    destruct (PySeq.slice records i (i + batch_size)) as [|x t] eqn:E.
    + exfalso. apply (Hne i); [now left|exact E].
    + rewrite Hok, perform_ok by exact w.
      rewrite IH by (intros j Hj; apply Hne; now right).
      rewrite after_after. reflexivity.
Qed.

(** The slice that starts at a multiple of the batch size. *)
Lemma slice_batch {A} (l : list A) (k : nat) (batch_size : Z) :
  0 < batch_size -> (k * Z.to_nat batch_size < List.length l)%nat ->
  PySeq.slice l (0 + Z.of_nat k * batch_size) (0 + Z.of_nat k * batch_size + batch_size) =
    firstn (Z.to_nat batch_size) (skipn (k * Z.to_nat batch_size) l).
Proof.
  intros Hb Hk. unfold PySeq.slice, PySeq.clamp.
  set (n := Z.of_nat (List.length l)).
  assert (Hlo : (0 + Z.of_nat k * batch_size <? 0) = false) by (apply Z.ltb_ge; nia).
  assert (Hhi : (0 + Z.of_nat k * batch_size + batch_size <? 0) = false) by (apply Z.ltb_ge; nia).
  rewrite Hlo, Hhi.
  assert (Hin : 0 + Z.of_nat k * batch_size < n) by (unfold n; nia).
  rewrite (Z.min_l (0 + Z.of_nat k * batch_size) n) by lia.
  replace (Z.to_nat (0 + Z.of_nat k * batch_size)) with (k * Z.to_nat batch_size)%nat by nia.
  destruct (Z.le_gt_cases (0 + Z.of_nat k * batch_size + batch_size) n) as [Hle|Hgt].
  - rewrite Z.min_l by lia. f_equal. lia.
  - rewrite Z.min_r by lia.
    rewrite !firstn_all2; [reflexivity| |]; rewrite length_skipn; unfold n in *; nia.
Qed.

Lemma range_length_ceiling (n batch_size : Z) :
  0 <= n -> 0 < batch_size ->
  PySeq.range_length 0 n batch_size = pages_needed n batch_size.
Proof.
  intros Hn Hb. unfold PySeq.range_length, pages_needed.
  assert (H : (0 <? batch_size) = true) by (apply Z.ltb_lt; lia). rewrite H.
  destruct (0 <? n) eqn:E.
  - apply Z.ltb_lt in E.
    replace (n + batch_size - 1) with (n - 1 - 0 + 1 * batch_size) by lia.
    rewrite Z.div_add by lia. lia.
  - apply Z.ltb_ge in E. symmetry. apply Z.div_small. lia.
Qed.

Lemma pages_needed_tight (total page_size : Z) :
  0 < total -> 0 < page_size -> (pages_needed total page_size - 1) * page_size < total.
Proof.
  intros Ht Hp. pose proof (ceil_quotient_bounds total page_size Hp) as H.
  unfold pages_needed. lia.
Qed.

Lemma concat_map_flat_map {A B} (f : A -> list B) (l : list A) :
  List.concat (map f l) = flat_map f l.
Proof. induction l as [|x t IH]; simpl; [reflexivity|]. now rewrite IH. Qed.

Lemma map_pointwise {A B} (f g : A -> B) (l : list A) :
  (forall x, In x l -> f x = g x) -> map f l = map g l.
Proof.
  induction l as [|x t IH]; simpl; intros H; [reflexivity|].
  rewrite H by now left. rewrite IH; [reflexivity|]. intros y Hy. apply H. now right.
Qed.

(** The batches of a load: the slices the loop takes. *)
Lemma load_batches_shape (records : list Validation.VehicleRecord) (batch_size : Z) :
  0 < batch_size ->
  let N := Z.to_nat (pages_needed (Etl.len records) batch_size) in
  let batches :=
    map (fun k => firstn (Z.to_nat batch_size) (skipn (k * Z.to_nat batch_size) records))
        (seq 0 N) in
  map (fun i => PySeq.slice records i (i + batch_size))
      (map (fun k => 0 + Z.of_nat k * batch_size) (seq 0 N)) = batches /\
  List.concat batches = records /\
  Forall (fun b => 1 <= Etl.len b <= batch_size) batches /\
  Forall (fun b => Etl.len b = batch_size) (removelast batches) /\
  Etl.len batches = pages_needed (Etl.len records) batch_size.
Proof.
  intros Hb. cbv zeta.
  remember (Z.to_nat (pages_needed (Etl.len records) batch_size)) as N eqn:EN.
  set (batches :=
         map (fun k => firstn (Z.to_nat batch_size) (skipn (k * Z.to_nat batch_size) records))
             (seq 0 N)).
  assert (Hlen : 0 <= Etl.len records) by (unfold Etl.len; lia).
  pose proof (pages_needed_nonneg _ _ Hlen Hb) as HN0.
  pose proof (pages_needed_enough _ _ Hlen Hb) as HN1.
  assert (Hk : forall k, In k (seq 0 N) -> (k * Z.to_nat batch_size < List.length records)%nat).
  { intros k Hin. apply in_seq in Hin.
    assert (Hpos : 0 < Etl.len records).
    { destruct (Z.eq_dec (Etl.len records) 0) as [H0|]; [|lia].
      exfalso. rewrite EN, H0 in Hin.
      replace (pages_needed 0 batch_size) with 0 in Hin
        by (symmetry; apply Z.div_small; lia). simpl in Hin. lia. }
    pose proof (pages_needed_tight _ _ Hpos Hb). unfold Etl.len in *. nia. }
  split; [|split; [|split; [|split]]].
  - rewrite map_map. apply map_pointwise. intros k Hin.
    apply slice_batch; [exact Hb|now apply Hk].
  - unfold batches. rewrite concat_map_flat_map, chunks_concat.
    apply firstn_all2. unfold Etl.len in *. nia.
  - unfold batches. rewrite Forall_forall. intros b Hin. apply in_map_iff in Hin.
    destruct Hin as [k [<- Hin]]. specialize (Hk k Hin).
    unfold Etl.len. rewrite length_firstn, length_skipn. lia.
  - unfold batches. rewrite Forall_forall. intros b Hin.
    destruct N as [|N']; [destruct Hin|].
    rewrite seq_S, map_app in Hin. cbn [map] in Hin. rewrite removelast_last in Hin.
    apply in_map_iff in Hin. destruct Hin as [k [<- Hin]]. apply in_seq in Hin.
    assert (HkS : (S k * Z.to_nat batch_size < List.length records)%nat).
    { apply Hk. apply in_seq. lia. }
    cbn [Nat.mul] in HkS.
    unfold Etl.len. rewrite length_firstn, length_skipn. lia.
  - unfold batches. unfold Etl.len at 1. rewrite length_map, length_seq, EN. lia.
Qed.

(** The calls of a load that meets no failure. *)
Lemma load_result (w : Pipeline.World) (records : list Validation.VehicleRecord)
        (batch_size : Z) (s : Pipeline.State) :
  0 < batch_size ->
  Pipeline.db (Pipeline.manager s) = true ->
  (forall b, Pipeline.insert_error w b = None) ->
  (forall n, Pipeline.index_error w n = None) ->
  exists batches,
    Pipeline.load w records batch_size s =
      (Pipeline.Done tt,
       after s (map Pipeline.InsertMany batches ++
                map Pipeline.CreateIndex Pipeline.index_names)) /\
    List.concat batches = records /\
    Forall (fun b => 1 <= Etl.len b <= batch_size) batches /\
    Forall (fun b => Etl.len b = batch_size) (removelast batches) /\
    Etl.len batches = pages_needed (Etl.len records) batch_size.
Proof.
  intros Hb Hdb Hins Hidx.
  destruct (load_batches_shape records batch_size Hb) as [Hsl [Hcat [Hsz [Hfull Hnum]]]].
  cbv zeta in *.
  set (N := Z.to_nat (pages_needed (Etl.len records) batch_size)) in *.
  set (batches := map (fun k => firstn (Z.to_nat batch_size)
                                       (skipn (k * Z.to_nat batch_size) records))
                      (seq 0 N)) in *.
  exists batches. split; [|repeat split; assumption].
  unfold Pipeline.load, Pipeline.bind. rewrite get_collection_connected by exact Hdb.
  unfold PySeq.range.
  assert (Hz : (batch_size =? 0) = false) by (apply Z.eqb_neq; lia). rewrite Hz.
  cbn [Pipeline.lift]. unfold Pipeline.ret at 1.
  rewrite range_length_ceiling by (unfold Etl.len; lia). fold N.
  rewrite insert_batches_ok.
  - rewrite create_indexes_ok by assumption. rewrite after_after.
    rewrite <- (map_map (fun i => PySeq.slice records i (i + batch_size)) Pipeline.InsertMany).
    now rewrite Hsl.
  - exact Hins.
  - intros i Hin.
    assert (Hb' : In (PySeq.slice records i (i + batch_size)) batches).
    { rewrite <- Hsl.
      exact (in_map (fun j => PySeq.slice records j (j + batch_size)) _ _ Hin). }
    rewrite Forall_forall in Hsz. specialize (Hsz _ Hb').
    intros E. rewrite E in Hsz. unfold Etl.len in Hsz. simpl in Hsz. lia.
Qed.

(** X20.  With a positive batch size, a connected manager and a server
    that accepts every call, [load] inserts the records in consecutive
    batches and then creates the eight indexes: the batches put end to
    end are exactly the records, in order; no batch is empty, none is
    longer than [batch_size], every batch but the last is full, and
    their number is [ceil(len(records) / batch_size)]. *)
Theorem X20_load_batches (w : Pipeline.World) (records : list Validation.VehicleRecord)
        (batch_size : Z) (s : Pipeline.State) :
  0 < batch_size ->
  Pipeline.db (Pipeline.manager s) = true ->
  (forall b, Pipeline.insert_error w b = None) ->
  (forall n, Pipeline.index_error w n = None) ->
  exists batches,
    Pipeline.load w records batch_size s =
      (Pipeline.Done tt,
       after s (map Pipeline.InsertMany batches ++
                map Pipeline.CreateIndex Pipeline.index_names)) /\
    List.concat batches = records /\
    Forall (fun b => 1 <= Etl.len b <= batch_size) batches /\
    Forall (fun b => Etl.len b = batch_size) (removelast batches) /\
    Etl.len batches = pages_needed (Etl.len records) batch_size.
Proof. apply load_result. Qed.

Lemma X20_load_batches_witness :
  exists batches,
    Pipeline.load (calm_world "" []) small_store 2 connected =
      (Pipeline.Done tt,
       after connected (map Pipeline.InsertMany batches ++
                        map Pipeline.CreateIndex Pipeline.index_names)) /\
    List.concat batches = small_store /\
    Etl.len batches = 2.
Proof.
  destruct (X20_load_batches (calm_world "" []) small_store 2 connected)
    as [batches [Hl [Hc [_ [_ Hn]]]]]; try reflexivity.
  exists batches. split; [exact Hl|]. split; [exact Hc|]. rewrite Hn. reflexivity.
Defined.

Lemma create_each_no_insert (w : Pipeline.World) (names : list string) :
  forall s res s',
    Pipeline.create_each w names s = (res, s') ->
    exists calls, s' = after s calls /\ existsb is_insert calls = false.
Proof.
  induction names as [|n rest IH]; intros s res s'; cbn [Pipeline.create_each].
  - unfold Pipeline.ret. intros H; inversion H; subst. exists []. now rewrite after_nil.
  - unfold Pipeline.bind, Pipeline.perform, Pipeline.call.
    destruct (Pipeline.index_error w n) as [e|].
    + intros H; inversion H; subst. exists [Pipeline.CreateIndex n]. split; reflexivity.
    + intros H. apply IH in H. destruct H as [calls [-> Hc]].
      exists (Pipeline.CreateIndex n :: calls). split; [|exact Hc].
      unfold after. cbn. now rewrite <- app_assoc.
Qed.

(** X21.  The edge cases of [load].  A batch size of 0 ends the call with
    a [ValueError] before anything is inserted.  A negative batch size
    inserts nothing and still returns normally, after creating the
    indexes: the records are silently not loaded.  An empty list of
    records leads to no insert at all. *)
Theorem X21_load_edge_cases (w : Pipeline.World) (records : list Validation.VehicleRecord)
        (s : Pipeline.State) :
  Pipeline.db (Pipeline.manager s) = true ->
  Pipeline.load w records 0 s = (Pipeline.Failed (Pipeline.Builtin ValueError), s) /\
  (forall batch_size, batch_size < 0 ->
     Pipeline.load w records batch_size s = Pipeline.create_indexes w s) /\
  (forall batch_size, Pipeline.load w [] batch_size s =
     if batch_size =? 0 then (Pipeline.Failed (Pipeline.Builtin ValueError), s)
     else Pipeline.create_indexes w s) /\
  (forall res s', Pipeline.create_indexes w s = (res, s') ->
     exists calls, s' = after s calls /\ existsb is_insert calls = false).
Proof.
  intros Hdb.
  assert (Hload : forall rs bs, bs <> 0 -> PySeq.range_length 0 (Etl.len rs) bs = 0 ->
            Pipeline.load w rs bs s = Pipeline.create_indexes w s).
  { intros rs bs Hbs Hlen. unfold Pipeline.load, Pipeline.bind.
    rewrite get_collection_connected by exact Hdb. unfold PySeq.range.
    apply Z.eqb_neq in Hbs. rewrite Hbs, Hlen. reflexivity. }
  split; [|split; [|split]].
  - unfold Pipeline.load, Pipeline.bind. now rewrite get_collection_connected by exact Hdb.
  - intros bs Hbs. apply Hload; [lia|]. unfold PySeq.range_length.
    assert (H1 : (0 <? bs) = false) by (apply Z.ltb_ge; lia).
    assert (H2 : (Etl.len records <? 0) = false) by (apply Z.ltb_ge; unfold Etl.len; lia).
    now rewrite H1, H2.
  - intros bs. destruct (bs =? 0) eqn:E.
    + apply Z.eqb_eq in E. subst bs.
      unfold Pipeline.load, Pipeline.bind. now rewrite get_collection_connected by exact Hdb.
    + apply Z.eqb_neq in E. apply Hload; [exact E|]. unfold PySeq.range_length.
      destruct (0 <? bs); reflexivity.
  - intros res s'. unfold Pipeline.create_indexes, Pipeline.bind.
    rewrite get_collection_connected by exact Hdb. apply create_each_no_insert.
Qed.

Lemma X21_load_edge_cases_witness :
  Pipeline.load (calm_world "" []) small_store 0 connected =
    (Pipeline.Failed (Pipeline.Builtin ValueError), connected) /\
  Pipeline.load (calm_world "" []) small_store (-1) connected =
    (Pipeline.Done tt, after connected (map Pipeline.CreateIndex Pipeline.index_names)).
Proof.
  destruct (X21_load_edge_cases (calm_world "" []) small_store connected eq_refl)
    as [H0 [Hneg _]].
  split; [exact H0|]. rewrite Hneg by lia. reflexivity.
Defined.

(** ** Running the pipeline *)

Lemma connect_ok (w : Pipeline.World) (s : Pipeline.State) :
  Pipeline.ping_error w = None ->
  Pipeline.connect w s = (Pipeline.Done tt, ran s [Pipeline.Ping]).
Proof.
  intros H. unfold Pipeline.connect, Pipeline.bind, Pipeline.set_client. cbn.
  rewrite H. reflexivity.
Qed.

Lemma connect_fails (w : Pipeline.World) (s : Pipeline.State) (e : Pipeline.Exn) :
  Pipeline.ping_error w = Some e ->
  Pipeline.connect w s =
    (Pipeline.Failed e,
     {| Pipeline.manager := {| Pipeline.client := true;
                               Pipeline.db := Pipeline.db (Pipeline.manager s) |};
        Pipeline.effects := Pipeline.effects s ++ [Pipeline.Ping] |}).
Proof.
  intros H. unfold Pipeline.connect, Pipeline.bind, Pipeline.set_client. cbn.
  rewrite H. reflexivity.
Qed.

Lemma ran_after (s : Pipeline.State) (l1 l2 : list Pipeline.Effect) :
  after (ran s l1) l2 = ran s (l1 ++ l2).
Proof. unfold after, ran. cbn. now rewrite app_assoc. Qed.

Lemma disconnect_ran (s : Pipeline.State) (calls : list Pipeline.Effect) :
  Pipeline.disconnect (ran s calls) = (Pipeline.Done tt, ran s (calls ++ [Pipeline.CloseClient])).
Proof.
  unfold Pipeline.disconnect, Pipeline.bind, Pipeline.get_manager. cbn.
  unfold Pipeline.perform, Pipeline.call, ran. cbn. now rewrite app_assoc.
Qed.

(** X22.  A run of the pipeline in which no call fails: the server is
    pinged, the collection is dropped if asked, the CSV file is read, its
    rows are transformed, the valid records are inserted in batches of at
    most 10000 that together are exactly the valid records, the indexes
    are created, and the client is closed; the run returns the quality
    report of the transformation. *)
Theorem X22_run_pipeline (w : Pipeline.World) (path : string) (drop_existing : bool)
        (df : Etl.DataFrame) (valid : list Validation.VehicleRecord)
        (report : Validation.DataQualityReport) (s : Pipeline.State) :
  Pipeline.ping_error w = None ->
  Pipeline.drop_error w = None ->
  (forall b, Pipeline.insert_error w b = None) ->
  (forall n, Pipeline.index_error w n = None) ->
  Pipeline.local_file w path = Some (Pipeline.Done df) ->
  Etl.transform df = Ret (valid, report) ->
  exists batches,
    Pipeline.run_pipeline w (local_settings path) drop_existing s =
      (Pipeline.Done report,
       ran s ([Pipeline.Ping] ++
              (if drop_existing then [Pipeline.DropCollection "vehicles"] else []) ++
              [Pipeline.ReadLocal path] ++
              map Pipeline.InsertMany batches ++
              map Pipeline.CreateIndex Pipeline.index_names ++
              [Pipeline.CloseClient])) /\
    List.concat batches = valid /\
    Forall (fun b => 1 <= Etl.len b <= 10000) batches.
Proof.
  intros Hping Hdrop Hins Hidx Hfile Ht.
  set (calls0 := [Pipeline.Ping] ++
                 (if drop_existing then [Pipeline.DropCollection "vehicles"] else []) ++
                 [Pipeline.ReadLocal path]).
  destruct (load_result w valid 10000 (ran s calls0) ltac:(lia) eq_refl Hins Hidx)
    as [batches [Hl [Hc [Hs _]]]].
  exists batches. split; [|split; assumption].
  unfold Pipeline.run_pipeline, Pipeline.finally, Pipeline.bind.
  rewrite connect_ok by exact Hping.
  assert (Hd : (if drop_existing then Pipeline.drop_collection w "vehicles" else Pipeline.ret tt)
                 (ran s [Pipeline.Ping]) =
               (Pipeline.Done tt,
                ran s ([Pipeline.Ping] ++
                       (if drop_existing then [Pipeline.DropCollection "vehicles"] else [])))).
  { destruct drop_existing.
    - unfold Pipeline.drop_collection, Pipeline.bind, Pipeline.get_manager. cbn.
      rewrite Hdrop. unfold Pipeline.perform, Pipeline.call, ran. cbn.
      now rewrite <- app_assoc.
    - reflexivity. }
  rewrite Hd.
  unfold Pipeline.extract, local_settings. cbn [Pipeline.csv_source Pipeline.csv_local_path].
  cbn [String.eqb Ascii.eqb Bool.eqb]. unfold Pipeline.extract_from_local. rewrite Hfile.
  unfold Pipeline.call. cbn [Pipeline.manager Pipeline.effects ran].
  rewrite Ht. cbn [Pipeline.lift Pipeline.ret fst snd].
  match goal with
  | |- context [Pipeline.load w valid 10000 ?st] =>
      replace st with (ran s calls0)
        by (unfold ran, calls0; cbn; now rewrite <- !app_assoc)
  end.
  rewrite Hl. unfold Pipeline.ret. rewrite ran_after, disconnect_ran.
  f_equal. f_equal. unfold calls0. destruct drop_existing; cbn [app]; rewrite <- !app_assoc;
    reflexivity.
Qed.

Lemma X22_run_pipeline_witness :
  exists valid report batches,
    Etl.transform sample_frame = Ret (valid, report) /\
    Pipeline.run_pipeline (calm_world "ev.csv" sample_frame) (local_settings "ev.csv")
                          true fresh =
      (Pipeline.Done report,
       ran fresh ([Pipeline.Ping] ++ [Pipeline.DropCollection "vehicles"] ++
                  [Pipeline.ReadLocal "ev.csv"] ++
                  map Pipeline.InsertMany batches ++
                  map Pipeline.CreateIndex Pipeline.index_names ++
                  [Pipeline.CloseClient])) /\
    List.concat batches = valid.
Proof.
  assert (Ht : exists valid report, Etl.transform sample_frame = Ret (valid, report))
    by (do 2 eexists; vm_compute; reflexivity).
  destruct Ht as [valid [report Ht]].
  destruct (X22_run_pipeline (calm_world "ev.csv" sample_frame) "ev.csv" true sample_frame
                             valid report fresh eq_refl eq_refl (fun _ => eq_refl)
                             (fun _ => eq_refl) eq_refl Ht) as [batches [Hr [Hc _]]].
  exists valid, report, batches. auto.
Defined.

Lemma follows_refl (s : Pipeline.State) : follows s s [].
Proof. unfold follows. rewrite app_nil_r. auto. Qed.

Lemma follows_trans (s1 s2 s3 : Pipeline.State) (l1 l2 : list Pipeline.Effect) :
  follows s1 s2 l1 -> follows s2 s3 l2 -> follows s1 s3 (l1 ++ l2).
Proof.
  unfold follows. intros [H1 [H2 H3]] [H4 [H5 H6]].
  split; [rewrite H4, H1; now rewrite app_assoc|]. split; auto.
Qed.

Lemma grows_ret {A} (a : A) : grows (Pipeline.ret a).
Proof. intros s res s' H. inversion H; subst. exists []. apply follows_refl. Qed.

Lemma grows_raise {A} (e : Pipeline.Exn) : grows (@Pipeline.raise A e).
Proof. intros s res s' H. inversion H; subst. exists []. apply follows_refl. Qed.

Lemma grows_bind {A B} (m : Pipeline.M A) (k : A -> Pipeline.M B) :
  grows m -> (forall a, grows (k a)) -> grows (Pipeline.bind m k).
Proof.
  intros Hm Hk s res s'. unfold Pipeline.bind.
  destruct (m s) as [[a|e] s1] eqn:E; intros H.
  - destruct (Hm _ _ _ E) as [l1 H1]. destruct (Hk a _ _ _ H) as [l2 H2].
    exists (l1 ++ l2). eapply follows_trans; eauto.
  - inversion H; subst. eapply Hm; eauto.
Qed.

Lemma grows_call {A} (ef : Pipeline.Effect) (answer : Pipeline.Result A) :
  grows (Pipeline.call ef answer).
Proof.
  intros s res s' H. inversion H; subst. exists [ef]. unfold follows. cbn. auto.
Qed.

Lemma grows_lift {A} (m : PyRes A) : grows (Pipeline.lift m).
Proof. destruct m; [apply grows_ret|apply grows_raise]. Qed.

Lemma grows_connect (w : Pipeline.World) : grows (Pipeline.connect w).
Proof.
  unfold Pipeline.connect. apply grows_bind; [|intros _; apply grows_bind].
  - intros s res s' H. inversion H; subst. exists []. unfold follows. cbn.
    rewrite app_nil_r. auto.
  - apply grows_call.
  - intros _ s res s' H. inversion H; subst. exists []. unfold follows. cbn.
    rewrite app_nil_r. auto.
Qed.

Lemma grows_get_manager : grows Pipeline.get_manager.
Proof. intros s res s' H. inversion H; subst. exists []. apply follows_refl. Qed.

Lemma grows_get_collection (w : Pipeline.World) : grows (Pipeline.get_collection w).
Proof.
  unfold Pipeline.get_collection. apply grows_bind; [apply grows_get_manager|].
  intros m. destruct (Pipeline.db m); [apply grows_ret|apply grows_connect].
Qed.

Lemma grows_create_each (w : Pipeline.World) (names : list string) :
  grows (Pipeline.create_each w names).
Proof.
  induction names as [|n rest IH]; cbn [Pipeline.create_each]; [apply grows_ret|].
  apply grows_bind; [apply grows_call|intros _; exact IH].
Qed.

Lemma grows_create_indexes (w : Pipeline.World) : grows (Pipeline.create_indexes w).
Proof.
  unfold Pipeline.create_indexes.
  apply grows_bind; [apply grows_get_collection|intros _; apply grows_create_each].
Qed.

Lemma grows_drop_collection (w : Pipeline.World) (name : string) :
  grows (Pipeline.drop_collection w name).
Proof.
  unfold Pipeline.drop_collection. apply grows_bind; [apply grows_get_manager|].
  intros m. destruct (Pipeline.db m); [apply grows_call|apply grows_raise].
Qed.

Lemma grows_extract (w : Pipeline.World) (settings : Pipeline.Settings) :
  grows (Pipeline.extract w settings).
Proof.
  unfold Pipeline.extract, Pipeline.extract_from_local, Pipeline.extract_from_s3.
  destruct (String.eqb _ "local").
  - destruct (Pipeline.local_file w _); [apply grows_call|apply grows_raise].
  - destruct (String.eqb _ "s3"); [apply grows_call|apply grows_raise].
Qed.

Lemma grows_insert_batches (w : Pipeline.World) (records : list Validation.VehicleRecord)
      (batch_size : Z) (starts : list Z) :
  grows (Pipeline.insert_batches w records batch_size starts).
Proof.
  induction starts as [|i rest IH]; cbn [Pipeline.insert_batches]; [apply grows_ret|].
  apply grows_bind; [|intros _; exact IH].
  unfold Pipeline.insert_many. destruct (PySeq.slice _ _ _); [apply grows_raise|apply grows_call].
Qed.

Lemma grows_load (w : Pipeline.World) (records : list Validation.VehicleRecord)
      (batch_size : Z) :
  grows (Pipeline.load w records batch_size).
Proof.
  unfold Pipeline.load.
  apply grows_bind; [apply grows_get_collection|intros _].
  apply grows_bind; [apply grows_lift|intros starts].
  apply grows_bind; [apply grows_insert_batches|intros _; apply grows_create_indexes].
Qed.

(** The first steps of [connect], whatever the ping answers. *)
Lemma connect_pings (w : Pipeline.World) (s : Pipeline.State) :
  exists res s', Pipeline.connect w s = (res, s') /\
                 follows s s' [Pipeline.Ping] /\
                 Pipeline.client (Pipeline.manager s') = true /\
                 (forall e, res = Pipeline.Failed e -> Pipeline.ping_error w = Some e).
Proof.
  destruct (Pipeline.ping_error w) as [e|] eqn:E.
  - rewrite (connect_fails w s e E). do 2 eexists. split; [reflexivity|].
    unfold follows. cbn. repeat split; auto. intros e' H. now inversion H.
  - rewrite (connect_ok w s E). do 2 eexists. split; [reflexivity|].
    unfold follows, ran. cbn. repeat split; auto. intros e' H. discriminate H.
Qed.

(** X23.  Whatever happens in a run of the pipeline (an unreachable
    server, a missing file, a row that ends the transformation, a failed
    insert), its first call on the outside world is the ping of [connect]
    and its last one closes the client: the [finally] clause always
    disconnects, and nothing is called after it. *)
Theorem X23_run_pipeline_disconnects (w : Pipeline.World) (settings : Pipeline.Settings)
        (drop_existing : bool) (s : Pipeline.State) :
  exists res s' calls,
    Pipeline.run_pipeline w settings drop_existing s = (res, s') /\
    Pipeline.effects s' =
      Pipeline.effects s ++ [Pipeline.Ping] ++ calls ++ [Pipeline.CloseClient] /\
    Pipeline.client (Pipeline.manager s') = true.
Proof.
  unfold Pipeline.run_pipeline, Pipeline.finally.
  set (rest := Pipeline.bind
                 (if drop_existing then Pipeline.drop_collection w "vehicles"
                  else Pipeline.ret tt)
                 (fun _ => Pipeline.bind (Pipeline.extract w settings)
                   (fun df => Pipeline.bind (Pipeline.lift (Etl.transform df))
                     (fun out => Pipeline.bind (Pipeline.load w (fst out) 10000)
                       (fun _ => Pipeline.ret (snd out)))))).
  assert (Hrest : grows rest).
  { unfold rest. apply grows_bind.
    - destruct drop_existing; [apply grows_drop_collection|apply grows_ret].
    - intros _. apply grows_bind; [apply grows_extract|intros df].
      apply grows_bind; [apply grows_lift|intros out].
      apply grows_bind; [apply grows_load|intros _; apply grows_ret]. }
  change (Pipeline.bind (Pipeline.connect w) (fun _ => rest))
    with (fun s0 => match Pipeline.connect w s0 with
                    | (Pipeline.Done a, s1) => rest s1
                    | (Pipeline.Failed e, s1) => (Pipeline.Failed e, s1)
                    end).
  cbv beta.
  destruct (connect_pings w s) as [r0 [s0 [-> [[He0 [Hc0 _]] [Hcl0 _]]]]].
  assert (Hbody : exists res s1 calls,
            match r0 with
            | Pipeline.Done _ => rest s0
            | Pipeline.Failed e => (Pipeline.Failed e, s0)
            end = (res, s1) /\
            Pipeline.effects s1 = Pipeline.effects s ++ [Pipeline.Ping] ++ calls /\
            Pipeline.client (Pipeline.manager s1) = true).
  { destruct r0 as [a|e].
    - destruct (rest s0) as [res s1] eqn:E. destruct (Hrest _ _ _ E) as [calls [H1 [H2 _]]].
      exists res, s1, calls. split; [reflexivity|]. split; [|auto].
      rewrite H1, He0. now rewrite <- app_assoc.
    - exists (Pipeline.Failed e), s0, []. split; [reflexivity|]. split; [|exact Hcl0].
      rewrite He0. reflexivity. }
  destruct Hbody as [res [s1 [calls [-> [He1 Hcl1]]]]].
  unfold Pipeline.disconnect, Pipeline.bind, Pipeline.get_manager. rewrite Hcl1.
  unfold Pipeline.perform, Pipeline.call.
  exists res. eexists. exists calls. split; [reflexivity|]. cbn. split; [|exact Hcl1].
  rewrite He1. now rewrite <- !app_assoc.
Qed.

(** X24.  How a run of the pipeline fails.  When the server cannot be
    reached, nothing else is attempted: the run ends with the exception
    of the ping.  When the run is asked to drop the existing data, the
    collection is dropped before the file is looked at: if the file does
    not exist, or if a row ends the transformation with an exception,
    the run fails with the collection already dropped and nothing
    inserted. *)
Theorem X24_run_pipeline_failures (w : Pipeline.World) (path : string) (s : Pipeline.State) :
  (forall settings drop_existing e,
     Pipeline.ping_error w = Some e ->
     Pipeline.run_pipeline w settings drop_existing s =
       (Pipeline.Failed e,
        {| Pipeline.manager := {| Pipeline.client := true;
                                  Pipeline.db := Pipeline.db (Pipeline.manager s) |};
           Pipeline.effects :=
             Pipeline.effects s ++ [Pipeline.Ping; Pipeline.CloseClient] |})) /\
  (Pipeline.ping_error w = None -> Pipeline.drop_error w = None ->
   Pipeline.local_file w path = None ->
   Pipeline.run_pipeline w (local_settings path) true s =
     (Pipeline.Failed (Pipeline.External "FileNotFoundError"),
      ran s [Pipeline.Ping; Pipeline.DropCollection "vehicles"; Pipeline.CloseClient])) /\
  (forall df e,
     Pipeline.ping_error w = None -> Pipeline.drop_error w = None ->
     Pipeline.local_file w path = Some (Pipeline.Done df) ->
     Etl.transform df = Raise e ->
     Pipeline.run_pipeline w (local_settings path) true s =
       (Pipeline.Failed (Pipeline.Builtin e),
        ran s [Pipeline.Ping; Pipeline.DropCollection "vehicles"; Pipeline.ReadLocal path;
               Pipeline.CloseClient])).
Proof.
  split; [|split].
  - intros settings drop_existing e Hp.
    unfold Pipeline.run_pipeline, Pipeline.finally, Pipeline.bind.
    rewrite (connect_fails w s e Hp).
    unfold Pipeline.disconnect, Pipeline.bind, Pipeline.get_manager. cbn.
    now rewrite <- app_assoc.
  - intros Hp Hd Hf.
    unfold Pipeline.run_pipeline, Pipeline.finally, Pipeline.bind.
    rewrite (connect_ok w s Hp).
    unfold Pipeline.drop_collection, Pipeline.bind, Pipeline.get_manager. cbn.
    rewrite Hd. cbn.
    unfold Pipeline.extract, Pipeline.extract_from_local. cbn. rewrite Hf. cbn.
    unfold ran. cbn. now rewrite <- !app_assoc.
  - intros df e Hp Hd Hf Ht.
    unfold Pipeline.run_pipeline, Pipeline.finally, Pipeline.bind.
    rewrite (connect_ok w s Hp).
    unfold Pipeline.drop_collection, Pipeline.bind, Pipeline.get_manager. cbn.
    rewrite Hd. cbn.
    unfold Pipeline.extract, Pipeline.extract_from_local. cbn. rewrite Hf. cbn.
    rewrite Ht. cbn. unfold ran. cbn. now rewrite <- !app_assoc.
Qed.

Lemma X24_run_pipeline_failures_witness :
  Pipeline.run_pipeline empty_disk (local_settings "ev.csv") true fresh =
    (Pipeline.Failed (Pipeline.External "FileNotFoundError"),
     ran fresh [Pipeline.Ping; Pipeline.DropCollection "vehicles"; Pipeline.CloseClient]) /\
  Pipeline.run_pipeline (calm_world "ev.csv" [infinite_range_row]) (local_settings "ev.csv")
                        true fresh =
    (Pipeline.Failed (Pipeline.Builtin OverflowError),
     ran fresh [Pipeline.Ping; Pipeline.DropCollection "vehicles"; Pipeline.ReadLocal "ev.csv";
                Pipeline.CloseClient]).
Proof.
  split.
  - apply (proj1 (proj2 (X24_run_pipeline_failures empty_disk "ev.csv" fresh))); reflexivity.
  - apply (proj2 (proj2 (X24_run_pipeline_failures
                           (calm_world "ev.csv" [infinite_range_row]) "ev.csv" fresh))
                 [infinite_range_row] OverflowError); reflexivity.
Defined.

(** ** From the pipeline to the queries *)




(** X26.  The manager connects lazily, and only through
    [get_collection]: on a manager that never connected, two calls of
    [get_collection] ping the server once; after [disconnect] the
    database attribute is still set, so a further [get_collection]
    hands out a collection of the closed client without connecting
    again; and [drop_collection] on a manager that never connected does
    not connect: it fails with a [TypeError] and calls nothing. *)
Theorem X26_lazy_connection (w : Pipeline.World) :
  (Pipeline.ping_error w = None ->
   Pipeline.bind (Pipeline.get_collection w) (fun _ => Pipeline.get_collection w) fresh =
     (Pipeline.Done tt, ran fresh [Pipeline.Ping])) /\
  (Pipeline.ping_error w = None ->
   Pipeline.bind (Pipeline.connect w)
     (fun _ => Pipeline.bind Pipeline.disconnect (fun _ => Pipeline.get_collection w)) fresh =
     (Pipeline.Done tt, ran fresh [Pipeline.Ping; Pipeline.CloseClient])) /\
  (forall name,
     Pipeline.drop_collection w name fresh = (Pipeline.Failed (Pipeline.Builtin TypeError), fresh)).
Proof.
  split; [|split].
  - intros Hp. unfold Pipeline.bind, Pipeline.get_collection at 1, Pipeline.bind,
      Pipeline.get_manager. cbn [fresh Pipeline.manager Pipeline.db].
    rewrite (connect_ok w _ Hp). now rewrite get_collection_connected.
  - intros Hp. unfold Pipeline.bind at 1. rewrite (connect_ok w _ Hp).
    unfold Pipeline.bind. rewrite disconnect_ran. now rewrite get_collection_connected.
  - intros name. reflexivity.
Qed.

Lemma X26_lazy_connection_witness :
  Pipeline.bind (Pipeline.connect empty_disk)
    (fun _ => Pipeline.bind Pipeline.disconnect (fun _ => Pipeline.get_collection empty_disk))
    fresh =
  (Pipeline.Done tt, ran fresh [Pipeline.Ping; Pipeline.CloseClient]).
Proof.
  apply (proj1 (proj2 (X26_lazy_connection empty_disk))). reflexivity.
Defined.
